(** * The Grok provider adapter (src/lib/ai-providers/grok-adapter.ts)

    A shallow embedding of the adapter and the properties proved about it.

    - [JS] models the fragment of the JavaScript runtime the adapter relies
      on: dynamically typed values, truthiness, [typeof], the operators
      [??] and [||], property reads and writes on plain objects, and
      [String.prototype.trim].
    - [Grok] embeds the functions of the adapter one by one, under their
      source names, with the collaborators it calls ([fetch],
      [JSON.parse], [z.toJSONSchema], the clock, the environment) as the
      variables of a section, and states and proves the properties
      C1 to C10.
    - [Page] and [Sql] embed the video page and the database function
      kept beside it, with their properties in [PageProperties] and
      [SqlProperties]. *)

From Stdlib Require Import List String Ascii Bool Arith ZArith Lia.
From Stdlib Require Import Sorting.Permutation.
From Stdlib Require Import Floats.PrimFloat.
From Stdlib Require Floats.FloatAxioms Floats.SpecFloat Floats.FloatOps.
Import ListNotations.

Set Warnings "-register-all".
#[local] Open Scope string_scope.

(* ================================================================== *)
(** * JavaScript values and operators *)
(* ================================================================== *)

Module JS.

(** A JavaScript value as the adapter meets it: what [JSON.parse] can
    produce, plus [undefined].  Numbers are IEEE 754 binary64, as in the
    language.  A string is a sequence of code units below 256.  An object
    is the list of its own enumerable properties in [Object.entries]
    order, whatever their names: [__proto__] too names a property of the
    object's own where [JSON.parse] made the object.  A JavaScript
    object never holds the same key twice (see [well_formed]). *)
Unset Elimination Schemes.
Inductive value : Type :=
| VUndef
| VNull
| VBool (b : bool)
| VNum (x : float)
| VStr (s : string)
| VArr (items : list value)
| VObj (entries : list (string * value)).
Set Elimination Schemes.

(** Structural induction that reaches the elements of arrays and the
    property values of objects. *)
Section value_induction.
Variable P : value -> Prop.
Hypothesis P_undef : P VUndef.
Hypothesis P_null : P VNull.
Hypothesis P_bool : forall b, P (VBool b).
Hypothesis P_num : forall x, P (VNum x).
Hypothesis P_str : forall s, P (VStr s).
Hypothesis P_arr : forall items, Forall P items -> P (VArr items).
Hypothesis P_obj :
  forall entries, Forall (fun kv => P (snd kv)) entries -> P (VObj entries).

Fixpoint value_ind (v : value) : P v :=
  match v with
  | VUndef => P_undef
  | VNull => P_null
  | VBool b => P_bool b
  | VNum x => P_num x
  | VStr s => P_str s
  | VArr items =>
      P_arr items
        ((fix all (l : list value) : Forall P l :=
            match l with
            | [] => Forall_nil P
            | x :: l' => Forall_cons x (value_ind x) (all l')
            end) items)
  | VObj entries =>
      P_obj entries
        ((fix all (l : list (string * value))
            : Forall (fun kv => P (snd kv)) l :=
            match l with
            | [] => Forall_nil _
            | kv :: l' =>
                Forall_cons (P := fun kv => P (snd kv)) kv
                  (value_ind (snd kv)) (all l')
            end) entries)
  end.
End value_induction.

(** [!v] is [negb (truthy v)]. *)
Definition truthy (v : value) : bool :=
  match v with
  | VUndef | VNull => false
  | VBool b => b
  | VNum x => negb (PrimFloat.eqb x 0 || negb (PrimFloat.eqb x x))
  | VStr s => negb (String.eqb s "")
  | VArr _ | VObj _ => true
  end.

(** [v === undefined || v === null]. *)
Definition nullish (v : value) : bool :=
  match v with
  | VUndef | VNull => true
  | _ => false
  end.

Definition typeof (v : value) : string :=
  match v with
  | VUndef => "undefined"
  | VNull => "object"
  | VBool _ => "boolean"
  | VNum _ => "number"
  | VStr _ => "string"
  | VArr _ | VObj _ => "object"
  end.

(** [typeof v === 'number'] and [typeof v === 'string']. *)
Definition is_number (v : value) : bool := String.eqb (typeof v) "number".
Definition is_string (v : value) : bool := String.eqb (typeof v) "string".

Definition Array_isArray (v : value) : bool :=
  match v with
  | VArr _ => true
  | _ => false
  end.

(** [a ?? b] and [a || b]. *)
Definition coalesce (a b : value) : value := if nullish a then b else a.
Definition or_else (a b : value) : value := if truthy a then a else b.

(** [a + b] on two numbers, the only operands the adapter adds. *)
Definition plus (a b : value) : value :=
  match a, b with
  | VNum x, VNum y => VNum (x + y)
  | _, _ => VUndef
  end.

(** [Array.prototype.includes] on an array of strings. *)
Definition includes (l : list string) (k : string) : bool :=
  existsb (String.eqb k) l.

(** Own-property lookup in an entry list. *)
Fixpoint obj_get (o : list (string * value)) (k : string) : value :=
  match o with
  | [] => VUndef
  | (k', v) :: o' => if String.eqb k' k then v else obj_get o' k
  end.

Fixpoint obj_has (o : list (string * value)) (k : string) : bool :=
  match o with
  | [] => false
  | (k', _) :: o' => String.eqb k' k || obj_has o' k
  end.

(** [o[k] = v]: an existing property keeps its place, a new one goes
    last. *)
Fixpoint obj_set {A : Type} (o : list (string * A)) (k : string) (v : A)
  : list (string * A) :=
  match o with
  | [] => [(k, v)]
  | (k', v') :: o' =>
      if String.eqb k' k then (k, v) :: o' else (k', v') :: obj_set o' k v
  end.

(** [v.k] for a receiver that is not [undefined] or [null] (every read in
    the adapter is guarded so).  None of the names the adapter reads is a
    built-in property of a primitive or of an array, so only plain objects
    answer. *)
Definition get (v : value) (k : string) : value :=
  match v with
  | VObj o => obj_get o k
  | _ => VUndef
  end.

(** [v?.k]. *)
Definition opt_get (v : value) (k : string) : value :=
  if nullish v then VUndef else get v k.

(** [k in v], for own properties. *)
Definition has (v : value) (k : string) : bool :=
  match v with
  | VObj o => obj_has o k
  | _ => false
  end.

(** [v.k = x] on a plain object. *)
Definition set (v : value) (k : string) (x : value) : value :=
  match v with
  | VObj o => VObj (obj_set o k x)
  | _ => v
  end.

(** [a[i]] on an array. *)
Definition index (v : value) (i : nat) : value :=
  match v with
  | VArr items => nth i items VUndef
  | _ => VUndef
  end.

Definition keys {A : Type} (o : list (string * A)) : list string :=
  map fst o.

(** No key twice, at any depth: the invariant of every JavaScript
    object. *)
Fixpoint distinct (ks : list string) : bool :=
  match ks with
  | [] => true
  | k :: ks' => negb (includes ks' k) && distinct ks'
  end.

Fixpoint well_formed (v : value) : bool :=
  match v with
  | VArr items => forallb well_formed items
  | VObj entries =>
      distinct (map fst entries)
      && forallb (fun kv => well_formed (snd kv)) entries
  | _ => true
  end.

(** ** Strings *)

(** White space and line terminators of ECMAScript among the code units
    below 256: TAB, LF, VT, FF, CR, SP and NBSP. *)
Definition is_white (c : ascii) : bool :=
  let n := nat_of_ascii c in
  ((9 <=? n) && (n <=? 13) || (n =? 32) || (n =? 160))%nat.

Fixpoint trimStart (s : string) : string :=
  match s with
  | EmptyString => EmptyString
  | String c s' => if is_white c then trimStart s' else s
  end.

Fixpoint trimEnd (s : string) : string :=
  match s with
  | EmptyString => EmptyString
  | String c s' =>
      match trimEnd s' with
      | EmptyString => if is_white c then EmptyString else String c EmptyString
      | t => String c t
      end
  end.

Definition trim (s : string) : string := trimEnd (trimStart s).

Fixpoint all_white (s : string) : bool :=
  match s with
  | EmptyString => true
  | String c s' => is_white c && all_white s'
  end.

(** [s.replace(/\/$/, '')]: one trailing slash removed. *)
Fixpoint strip_trailing_slash (s : string) : string :=
  match s with
  | EmptyString => EmptyString
  | String c EmptyString => if Ascii.eqb c "/"%char then EmptyString else s
  | String c s' => String c (strip_trailing_slash s')
  end.

(** ** Thrown values *)

(** What a [throw] can carry: an [Error] (or a subclass other than
    [DOMException]) with its message, a [DOMException] with its name and
    message, or any value that is not an [Error]. *)
Inductive thrown : Type :=
| JsError (message : string)
| DOMException (name message : string)
| ThrownValue (v : value).

(** [e instanceof Error]; [DOMException.prototype] inherits from
    [Error.prototype]. *)
Definition instanceof_Error (e : thrown) : bool :=
  match e with
  | JsError _ | DOMException _ _ => true
  | ThrownValue _ => false
  end.

Definition error_message (e : thrown) : string :=
  match e with
  | JsError m | DOMException _ m => m
  | ThrownValue _ => ""
  end.


(** The result of a call: it returns or it throws. *)
Inductive outcome (A : Type) : Type :=
| Return (a : A)
| Throw (e : thrown).
Arguments Return {A} a.
Arguments Throw {A} e.

End JS.

(* ================================================================== *)
(** * The video page (src/app/v/[slug]/page.tsx) *)
(* ================================================================== *)

Module Page.
Import JS.

(** ** String methods *)

(** The index that [slice] makes of an argument, for a string of length
    [len]: counted from the end when negative, and clamped. *)
Definition slice_index (len : nat) (i : Z) : nat :=
  if Z.ltb i 0%Z
  then Z.to_nat (Z.max (Z.add (Z.of_nat len) i) 0%Z)
  else Nat.min (Z.to_nat i) len.

(** [s.slice(start, end)]. *)
Definition slice (s : string) (start end_ : Z) : string :=
  let from := slice_index (String.length s) start in
  let to := slice_index (String.length s) end_ in
  substring from (to - from) s.

(** [s.slice(start)]. *)
Definition slice_from (s : string) (start : Z) : string :=
  slice s start (Z.of_nat (String.length s)).

(** [s.endsWith(t)]. *)
Definition endsWith (s t : string) : bool :=
  (String.length t <=? String.length s)%nat
  && String.eqb
       (substring (String.length s - String.length t) (String.length t) s) t.

Fixpoint all_chars (p : ascii -> bool) (s : string) : bool :=
  match s with
  | EmptyString => true
  | String c s' => p c && all_chars p s'
  end.

(** The class [[A-Za-z0-9_-]]. *)
Definition is_id_char (c : ascii) : bool :=
  let n := nat_of_ascii c in
  ((65 <=? n) && (n <=? 90) || (97 <=? n) && (n <=? 122)
   || (48 <=? n) && (n <=? 57) || (n =? 95) || (n =? 45))%nat.

(** [/^[A-Za-z0-9_-]{11}$/.test(s)]. *)
Definition id_pattern (s : string) : bool :=
  (String.length s =? 11)%nat && all_chars is_id_char s.

(** [array.join(sep)] on strings. *)
Fixpoint join (sep : string) (l : list string) : string :=
  match l with
  | [] => ""
  | [x] => x
  | x :: l' => x ++ sep ++ join sep l'
  end.

(** ** extractVideoIdFromSlug *)
Definition extractVideoIdFromSlug (slug : string) : option string :=
  let cleaned := strip_trailing_slash (trim slug) in
  let potentialId := slice_from cleaned (-11)%Z in
  if id_pattern potentialId then Some potentialId else None.

(** ** Rows of [video_analyses]

    The columns the page reads.  [null] is [None] for the columns whose
    type names it; the JSON columns are values. *)
Record VideoAnalysisRow : Type := {
  youtube_id : string;
  title : string;
  author : option string;
  duration : option float;
  thumbnail_url : option string;
  transcript : value;
  topics : value;
  summary : value;
  created_at : option string;
  updated_at : option string
}.

(** What [resolveVideoFromSlug] returns when it finds a video. *)
Record Resolved : Type := {
  video : VideoAnalysisRow;
  videoId : string;
  canonicalSlug : string
}.

(** How a request for the page goes: [redirect(url)], [notFound()], or
    on to the page of a video under an id, past both (what the page is
    then made of is not modelled). *)
Inductive navigation : Type :=
| Redirect (url : string)
| NotFound
| Rendered (video : VideoAnalysisRow) (videoId : string).

(** [a || b] on a nullable string column. *)
Definition or_string (a : option string) (b : string) : string :=
  match a with
  | Some s => if truthy (VStr s) then s else b
  | None => b
  end.

(** [`${a}`] for a nullable string column. *)
Definition template (a : option string) : string :=
  match a with
  | Some s => s
  | None => "null"
  end.

(** The summary text of a row: [typeof video.summary === 'string' ?
    video.summary : video.summary?.content || '']. *)
Definition summary_of (row : VideoAnalysisRow) : value :=
  if is_string (summary row) then summary row
  else or_else (opt_get (summary row) "content") (VStr "").

(** The description of the metadata.  On a summary that is truthy and
    not a string the call of [slice], or of [trim] on what the [slice]
    of an array returns, throws a [TypeError]: an [Error], here with
    the message of V8. *)
Definition description_of (summary : value) (title : string)
  : outcome string :=
  if truthy summary then
    match summary with
    | VStr s =>
        Return
          (trim (slice s 0%Z 160%Z)
           ++ (if (160 <? String.length s)%nat then "..." else ""))
    | VArr _ => Throw (JsError "summary.slice(...).trim is not a function")
    | _ => Throw (JsError "summary.slice is not a function")
    end
  else
    Return
      ("Watch highlights, browse the full transcript, and get AI-generated insights for "
       ++ title).

(** [[...].filter(Boolean).join(', ')]. *)
Definition keywords_of (row : VideoAnalysisRow) : string :=
  join ", "
    (filter (fun s => truthy (VStr s))
       ([ title row; title row ++ " transcript" ]
        ++ match author row with
           | Some a => [a]
           | None => []
           end
        ++ [ template (author row) ++ " videos";
             "video transcript"; "video summary"; "AI analysis";
             "highlights" ])).

Section Lookups.

(** The two queries on [video_analyses], by [youtube_id] and by [slug]:
    the [data] of [maybeSingle()], [None] for [null] (no row, or an
    error, which is only logged); and [buildVideoSlug] of [@/lib/utils],
    which is not part of the sources. *)
Variable select_by_youtube_id : string -> option VideoAnalysisRow.
Variable select_by_slug : string -> option VideoAnalysisRow.
Variable buildVideoSlug : string -> string -> string.

Definition resolved_of (data : VideoAnalysisRow) : Resolved :=
  {| video := data;
     videoId := youtube_id data;
     canonicalSlug := buildVideoSlug (title data) (youtube_id data) |}.

(** ** resolveVideoFromSlug *)
Definition resolveVideoFromSlug (slug : string) : option Resolved :=
  let videoIdFromSlug := extractVideoIdFromSlug slug in
  match
    match videoIdFromSlug with
    | Some id =>
        if truthy (VStr id)
        then option_map resolved_of (select_by_youtube_id id)
        else None
    | None => None
    end
  with
  | Some found => Some found
  | None => option_map resolved_of (select_by_slug slug)
  end.

(** ** generateMetadata *)
Definition generateMetadata (slug : string) : outcome value :=
  match resolveVideoFromSlug slug with
  | None =>
      Return
        (VObj
           [ ("title", VStr "Video Not Found - LongCut");
             ("description",
              VStr "This video analysis could not be found.") ])
  | Some resolved =>
      let row := video resolved in
      let slugForMeta :=
        if truthy (VStr (canonicalSlug resolved))
        then canonicalSlug resolved else slug in
      match description_of (summary_of row) (title row) with
      | Throw e => Throw e
      | Return description =>
          let thumbnailUrl :=
            or_string (thumbnail_url row)
              ("https://i.ytimg.com/vi/" ++ videoId resolved
               ++ "/maxresdefault.jpg") in
          Return
            (VObj
               [ ("title",
                  VStr (title row ++ " - Transcript & Analysis | LongCut"));
                 ("description", VStr description);
                 ("keywords", VStr (keywords_of row));
                 ("openGraph",
                  VObj
                    [ ("title", VStr (title row));
                      ("description", VStr description);
                      ("type", VStr "video.other");
                      ("url", VStr ("https://longcut.ai/v/" ++ slugForMeta));
                      ("siteName", VStr "LongCut");
                      ("images",
                       VArr
                         [ VObj
                             [ ("url", VStr thumbnailUrl);
                               ("width", VNum 1280);
                               ("height", VNum 720);
                               ("alt", VStr (title row)) ] ]);
                      ("videos",
                       VArr
                         [ VObj
                             [ ("url",
                                VStr
                                  ("https://www.youtube.com/watch?v="
                                   ++ videoId resolved)) ] ]) ]);
                 ("twitter",
                  VObj
                    [ ("card", VStr "summary_large_image");
                      ("title", VStr (title row));
                      ("description", VStr description);
                      ("images", VArr [VStr thumbnailUrl]) ]);
                 ("alternates",
                  VObj
                    [ ("canonical",
                       VStr ("https://longcut.ai/v/" ++ slugForMeta)) ]);
                 ("robots",
                  VObj
                    [ ("index", VBool true);
                      ("follow", VBool true);
                      ("googleBot",
                       VObj
                         [ ("index", VBool true);
                           ("follow", VBool true);
                           ("max-video-preview", VNum (-1)%float);
                           ("max-image-preview", VStr "large");
                           ("max-snippet", VNum (-1)%float) ]) ]) ])
      end
  end.

(** ** VideoPage, up to the markup *)
Definition VideoPage (slug : string) : navigation :=
  match resolveVideoFromSlug slug with
  | None =>
      let fallbackVideoId := extractVideoIdFromSlug slug in
      let hasCanonicalSuffix :=
        match fallbackVideoId with
        | Some id =>
            truthy (VStr id)
            && endsWith slug id
            && ((String.length slug =? 11)%nat
                || String.eqb (slice slug (-12)%Z (-11)%Z) "-")
        | None => false
        end in
      match fallbackVideoId with
      | Some id =>
          if truthy (VStr id) && hasCanonicalSuffix
          then Redirect ("/analyze/" ++ id)
          else NotFound
      | None => NotFound
      end
  | Some resolved =>
      if truthy (VStr (canonicalSlug resolved))
         && negb (String.eqb (canonicalSlug resolved) slug)
      then Redirect ("/v/" ++ canonicalSlug resolved)
      else Rendered (video resolved) (videoId resolved)
  end.

End Lookups.

(** ** A sample table

    One video stored under its id and under a legacy slug, one whose
    summary holds a number, and a stand-in for [buildVideoSlug]: the
    title, a hyphen, the id. *)
Module Sample.

Definition row : VideoAnalysisRow :=
  {| youtube_id := "dQw4w9WgXcQ";
     title := "rickroll";
     author := None;
     duration := Some 213%float;
     thumbnail_url := None;
     transcript := VArr [];
     topics := VNull;
     summary := VObj [("content", VStr "A song, line by line.")];
     created_at := None;
     updated_at := None |}.

Definition odd : VideoAnalysisRow :=
  {| youtube_id := "aaaaaaaaaaa";
     title := "odd";
     author := Some "someone";
     duration := None;
     thumbnail_url := Some "https://img.test/odd.jpg";
     transcript := VNull;
     topics := VNull;
     summary := VObj [("content", VNum 42)];
     created_at := None;
     updated_at := None |}.

Definition select_by_youtube_id (id : string) : option VideoAnalysisRow :=
  if String.eqb id (youtube_id row) then Some row
  else if String.eqb id (youtube_id odd) then Some odd
  else None.

Definition select_by_slug (slug : string) : option VideoAnalysisRow :=
  if String.eqb slug "never-gonna" then Some row else None.

Definition buildVideoSlug (title id : string) : string :=
  title ++ "-" ++ id.

End Sample.

End Page.

(* ================================================================== *)
(** * The migration beside the page (update_video_analysis_secure) *)
(* ================================================================== *)

Module Sql.

(** ** NULL and the three-valued logic

    A nullable value is an [option], [None] for NULL; so is a truth
    value, [None] for unknown. *)
Definition and3 (a b : option bool) : option bool :=
  match a, b with
  | Some false, _ | _, Some false => Some false
  | Some true, Some true => Some true
  | _, _ => None
  end.

(** [a = b] and [a != b]. *)
Definition eq3 {A : Type} (eqb : A -> A -> bool) (a b : option A)
  : option bool :=
  match a, b with
  | Some x, Some y => Some (eqb x y)
  | _, _ => None
  end.

Definition neq3 {A : Type} (eqb : A -> A -> bool) (a b : option A)
  : option bool :=
  option_map negb (eq3 eqb a b).

(** [a IS NULL] and [a IS NOT NULL], which are never unknown. *)
Definition is_null {A : Type} (a : option A) : bool :=
  match a with
  | Some _ => false
  | None => true
  end.

Definition is_not_null {A : Type} (a : option A) : bool := negb (is_null a).

(** What [WHERE] and [IF] make of a condition: only true passes. *)
Definition holds (c : option bool) : bool :=
  match c with
  | Some true => true
  | _ => false
  end.

Definition COALESCE {A : Type} (a b : option A) : option A :=
  match a with
  | Some _ => a
  | None => b
  end.

(** ** The table *)

(** A [uuid] is a number of 128 bits, a [text] a string. *)
Definition uuid : Type := N.
Definition text : Type := string.

Section Table.

(** The types of [jsonb] and of the time stamps, which the function only
    stores, and of the columns it does not name. *)
Variable jsonb : Type.
Variable timestamp : Type.
Variable columns : Type.

(** A row of [public.video_analyses].  The declaration of the table is
    not among the sources: a row has the columns the function names,
    each taken as nullable, which covers any declaration, and the
    others as one field. *)
Record row : Type := {
  id : option uuid;
  youtube_id : option text;
  created_by : option uuid;
  summary : option jsonb;
  suggested_questions : option jsonb;
  updated_at : option timestamp;
  others : columns
}.

(** The rows in the order a scan returns them. *)
Definition table : Type := list row.

(** Where the rows are after an [UPDATE].  The storage writes a new
    version of every row that is changed, and where the new versions
    come in a later scan, among the rows left as they were, is its
    choice: [placed rest written] is the table that holds the rows
    [rest] and the new versions [written].  PostgreSQL returns the new
    versions after the others, as [rest ++ written], as long as it
    finds room at the end. *)
Variable placed : table -> table -> table.

(** [SELECT id, created_by INTO v_video_id, v_created_by FROM
    public.video_analyses WHERE youtube_id = p_youtube_id]: the first
    row returned, NULLs when there is none; [matches] is the condition
    of its [WHERE]. *)
Definition matches (p_youtube_id : option text) (r : row) : bool :=
  holds (eq3 String.eqb (youtube_id r) p_youtube_id).

Definition select_into (t : table) (p_youtube_id : option text)
  : option uuid * option uuid :=
  match filter (matches p_youtube_id) t with
  | r :: _ => (id r, created_by r)
  | [] => (None, None)
  end.

(** The condition [WHERE id = v_video_id] of the [UPDATE]. *)
Definition hit (v_video_id : option uuid) (r : row) : bool :=
  holds (eq3 N.eqb (id r) v_video_id).

(** The [SET] clause: the new version of a row, at the time [now] of
    [timezone('utc'::text, now())]. *)
Definition written (now : timestamp)
    (p_summary p_suggested_questions : option jsonb) (r : row) : row :=
  {| id := id r;
     youtube_id := youtube_id r;
     created_by := created_by r;
     summary := COALESCE p_summary (summary r);
     suggested_questions :=
       COALESCE p_suggested_questions (suggested_questions r);
     updated_at := Some now;
     others := others r |}.

(** [UPDATE public.video_analyses SET ... WHERE id = v_video_id]. *)
Definition update (now : timestamp) (t : table) (v_video_id : option uuid)
    (p_summary p_suggested_questions : option jsonb) : table :=
  placed
    (filter (fun r => negb (hit v_video_id r)) t)
    (map (written now p_summary p_suggested_questions)
       (filter (hit v_video_id) t)).

(** The one row [(success, video_id)] that the function returns, and the
    table it leaves. *)
Definition update_video_analysis_secure (now : timestamp) (t : table)
    (p_youtube_id : option text) (p_user_id : option uuid)
    (p_summary p_suggested_questions : option jsonb)
  : (bool * option uuid) * table :=
  let '(v_video_id, v_created_by) := select_into t p_youtube_id in
  if is_null v_video_id then ((false, None), t)
  else if holds (and3 (Some (is_not_null v_created_by))
                   (neq3 N.eqb v_created_by p_user_id))
  then ((false, v_video_id), t)
  else ((true, v_video_id),
        update now t v_video_id p_summary p_suggested_questions).

(** ** Vocabulary of the properties *)

(** The table after an [UPDATE], up to where its rows are. *)
Definition updated (now : timestamp) (t : table) (v_video_id : option uuid)
    (p_summary p_suggested_questions : option jsonb) : table :=
  map
    (fun r =>
       if hit v_video_id r
       then written now p_summary p_suggested_questions r
       else r)
    t.

(** How a row of the table after a call stands to the row it was. *)
Definition kept_as (v_video_id : option uuid)
    (p_summary p_suggested_questions : option jsonb) (r r' : row) : Prop :=
  id r' = id r
  /\ youtube_id r' = youtube_id r
  /\ created_by r' = created_by r
  /\ others r' = others r
  /\ (id r = None \/ id r <> v_video_id -> r' = r)
  /\ (summary r <> None -> summary r' <> None)
  /\ (suggested_questions r <> None -> suggested_questions r' <> None)
  /\ (p_summary = None -> summary r' = summary r)
  /\ (p_suggested_questions = None ->
      suggested_questions r' = suggested_questions r).

End Table.

Arguments Build_row {jsonb timestamp columns}.
Arguments id {jsonb timestamp columns} r.
Arguments youtube_id {jsonb timestamp columns} r.
Arguments created_by {jsonb timestamp columns} r.
Arguments summary {jsonb timestamp columns} r.
Arguments suggested_questions {jsonb timestamp columns} r.
Arguments updated_at {jsonb timestamp columns} r.
Arguments others {jsonb timestamp columns} r.
Arguments matches {jsonb timestamp columns} p_youtube_id r.
Arguments select_into {jsonb timestamp columns} t p_youtube_id.
Arguments hit {jsonb timestamp columns} v_video_id r.
Arguments written {jsonb timestamp columns} now p_summary
  p_suggested_questions r.
Arguments update {jsonb timestamp columns} placed now t v_video_id p_summary
  p_suggested_questions.
Arguments updated {jsonb timestamp columns} now t v_video_id p_summary
  p_suggested_questions.
Arguments kept_as {jsonb timestamp columns} v_video_id p_summary
  p_suggested_questions r r'.
Arguments update_video_analysis_secure {jsonb timestamp columns} placed now t
  p_youtube_id p_user_id p_summary p_suggested_questions.

(** ** A sample table

    A video without an owner and a video of user 7, in a storage that
    returns the new versions of rows after the others. *)
Module Sample.

Definition anonymous : row string nat unit :=
  {| id := Some 1%N; youtube_id := Some "aaaaaaaaaaa"; created_by := None;
     summary := None; suggested_questions := Some "[]";
     updated_at := Some 10; others := tt |}.

Definition owned : row string nat unit :=
  {| id := Some 2%N; youtube_id := Some "bbbbbbbbbbb";
     created_by := Some 7%N;
     summary := Some "{}"; suggested_questions := None;
     updated_at := Some 20; others := tt |}.

Definition videos : table string nat unit := [anonymous; owned].

Definition placed (rest written : table string nat unit)
  : table string nat unit :=
  (rest ++ written)%list.

End Sample.

End Sql.

(* ================================================================== *)
(** * The adapter *)
(* ================================================================== *)

Module Grok.
Import JS.

(** The number that the literal [0.9] denotes: the binary64 value
    nearest to nine tenths. *)
Definition nine_tenths : float := 0x1.ccccccccccccdp-1%float.

Definition DEFAULT_MODEL : string := "grok-4-1-fast-non-reasoning".
Definition PROVIDER_NAME : string := "grok".

Definition UNSUPPORTED_SCHEMA_PROPS : list string :=
  [ "minLength"; "maxLength";
    "minItems"; "maxItems";
    "minContains"; "maxContains";
    "$schema" ].

(** ** sanitizeSchemaForGrok *)

(** The one key under which an assignment to an object made by [{}]
    makes no property: [__proto__] names the accessor that the object
    inherits from [Object.prototype], so that the assignment calls its
    setter. *)
Definition unassigned (key : string) : bool := String.eqb key "__proto__".

(** [result[key] = v] in the loop of the sanitizer, on the entries of
    [result].  Under [__proto__] the setter replaces the prototype of
    [result] when [v] is an object or [null] and does nothing otherwise;
    the prototype is not among the entries of a value, which are the
    properties of its own, those that [Object.entries] lists and
    [JSON.stringify] writes.  Under every other key the assignment is
    [obj_set]: no other property that [result] inherits, from
    [Object.prototype] or from a prototype put in its place by an
    earlier turn, has a setter or is read-only. *)
Definition assign (result : list (string * value)) (key : string)
    (v : value) : list (string * value) :=
  if unassigned key then result else obj_set result key v.

(** The guard [!schema || typeof schema !== 'object'] returns every value
    that is not an array or an object as it is.  An array is mapped; an
    object is rebuilt, entry by entry in [Object.entries] order, by
    assignment into a fresh [result]. *)
Fixpoint sanitizeSchemaForGrok (schema : value) : value :=
  match schema with
  | VArr items => VArr (map sanitizeSchemaForGrok items)
  | VObj entries =>
      VObj
        (fold_left
           (fun result kv =>
              if includes UNSUPPORTED_SCHEMA_PROPS (fst kv) then result
              else assign result (fst kv) (sanitizeSchemaForGrok (snd kv)))
           entries [])
  | _ => schema
  end.

(** ** sanitizeSchemaForGrok over a store

    The same function with the objects and arrays of JavaScript as what
    they are: cells of a store, reached by reference and written in
    place.  This is the model that tells whether the argument is touched
    and whether the result shares anything with it. *)
Module Store.

(** A value is a primitive or a reference to a cell. *)
Inductive word : Type :=
| WUndef
| WNull
| WBool (b : bool)
| WNum (x : float)
| WStr (s : string)
| WRef (l : nat).

(** An array or an object, with its contents. *)
Inductive cell : Type :=
| Arr (items : list word)
| Obj (entries : list (string * word)).

(** A store: the cell of reference [l] is the [l]-th. *)
Definition store : Type := list cell.

(** A new cell, as [{}] or the array [map] returns. *)
Definition alloc (c : cell) (m : store) : nat * store :=
  (List.length m, (m ++ [c])%list).

(** The cell of [l] replaced. *)
Fixpoint update (l : nat) (c : cell) (m : store) : store :=
  match m, l with
  | [], _ => []
  | _ :: m', 0 => c :: m'
  | c' :: m', S l' => c' :: update l' c m'
  end.

(** [o[k] = w] on the object of reference [l], made by [{}]: under
    [__proto__] no entry is written to any cell (see [assign] on
    trees). *)
Definition assign (l : nat) (k : string) (w : word) (m : store) : store :=
  if unassigned k then m
  else
    match nth_error m l with
    | Some (Obj entries) => update l (Obj (obj_set entries k w)) m
    | _ => m
    end.

(** [f] on every element, when it succeeds on all. *)
Fixpoint traverse {A B : Type} (f : A -> option B) (l : list A)
  : option (list B) :=
  match l with
  | [] => Some []
  | x :: l' =>
      match f x with
      | Some y =>
          match traverse f l' with
          | Some ys => Some (y :: ys)
          | None => None
          end
      | None => None
      end
  end.

(** [f] on the value of an entry. *)
Definition entry (f : word -> option value) (kv : string * word)
  : option (string * value) :=
  option_map (pair (fst kv)) (f (snd kv)).

(** The tree a word stands for in a store, read through references not
    below [floor]; [None] when a reference dangles or lies below the
    floor, or when [fuel] runs out, as it does on a cycle. *)
Fixpoint reify (floor fuel : nat) (m : store) (w : word) : option value :=
  match fuel with
  | 0 => None
  | S fuel =>
      match w with
      | WUndef => Some VUndef
      | WNull => Some VNull
      | WBool b => Some (VBool b)
      | WNum x => Some (VNum x)
      | WStr s => Some (VStr s)
      | WRef l =>
          if (l <? floor)%nat then None
          else
            match nth_error m l with
            | Some (Arr items) =>
                option_map VArr (traverse (reify floor fuel m) items)
            | Some (Obj entries) =>
                option_map VObj
                  (traverse (entry (reify floor fuel m)) entries)
            | None => None
            end
      end
  end.

(** [items.map(f)], the elements in order. *)
Fixpoint map_each (f : word -> store -> option (word * store))
    (items : list word) (m : store) : option (list word * store) :=
  match items with
  | [] => Some ([], m)
  | x :: items' =>
      match f x m with
      | Some (y, m) =>
          match map_each f items' m with
          | Some (ys, m) => Some (y :: ys, m)
          | None => None
          end
      | None => None
      end
  end.

(** The [for] loop over [Object.entries(schema)], writing into the
    object of reference [result]. *)
Fixpoint for_entries (f : word -> store -> option (word * store))
    (result : nat) (entries : list (string * word)) (m : store)
  : option store :=
  match entries with
  | [] => Some m
  | (key, x) :: entries' =>
      if includes UNSUPPORTED_SCHEMA_PROPS key
      then for_entries f result entries' m
      else
        match f x m with
        | Some (y, m) => for_entries f result entries' (assign result key y m)
        | None => None
        end
  end.

(** The function; [fuel] bounds the depth of the recursion, and [None]
    is a call that does not return.  The object [result] is made before
    the loop and written by it; the array is made by [map]. *)
Fixpoint sanitizeSchemaForGrok (fuel : nat) (schema : word) (m : store)
  : option (word * store) :=
  match fuel with
  | 0 => None
  | S fuel =>
      match schema with
      | WRef l =>
          match nth_error m l with
          | Some (Arr items) =>
              match map_each (sanitizeSchemaForGrok fuel) items m with
              | Some (ys, m) =>
                  let '(a, m) := alloc (Arr ys) m in Some (WRef a, m)
              | None => None
              end
          | Some (Obj entries) =>
              let '(result, m) := alloc (Obj []) m in
              match
                for_entries (sanitizeSchemaForGrok fuel) result entries m
              with
              | Some m => Some (WRef result, m)
              | None => None
              end
          | None => None
          end
      | _ => Some (schema, m)
      end
  end.

(** Every cell of [m] is in [m'], as it was. *)
Definition preserved (m m' : store) : Prop :=
  forall l, l < List.length m -> nth_error m' l = nth_error m l.

End Store.

(** The sanitizer in the words of its contract: the same tree with every
    entry under a banned key dropped, at every level.  Compared with the
    function above in [sanitize_refines_strip]. *)
Fixpoint strip_banned_keys (schema : value) : value :=
  match schema with
  | VArr items => VArr (map strip_banned_keys items)
  | VObj entries =>
      VObj
        (filter
           (fun kv => negb (includes UNSUPPORTED_SCHEMA_PROPS (fst kv)))
           (map (fun kv => (fst kv, strip_banned_keys (snd kv))) entries))
  | _ => schema
  end.

(** The keys that the loop of the sanitizer leaves out of [result]: the
    banned ones, which it skips, and the one it cannot assign. *)
Definition dropped (key : string) : bool :=
  includes UNSUPPORTED_SCHEMA_PROPS key || unassigned key.

(** The tree without the entries under those keys, at every level. *)
Fixpoint strip_dropped (schema : value) : value :=
  match schema with
  | VArr items => VArr (map strip_dropped items)
  | VObj entries =>
      VObj
        (filter (fun kv => negb (dropped (fst kv)))
           (map (fun kv => (fst kv, strip_dropped (snd kv))) entries))
  | _ => schema
  end.

(** No object of the tree has a key [__proto__]. *)
Fixpoint ordinary (v : value) : bool :=
  match v with
  | VArr items => forallb ordinary items
  | VObj entries =>
      forallb (fun kv => negb (unassigned (fst kv)) && ordinary (snd kv))
        entries
  | _ => true
  end.

(** A banned keyword is a key somewhere in the tree. *)
Fixpoint mentions_banned (v : value) : bool :=
  match v with
  | VArr items => existsb mentions_banned items
  | VObj entries =>
      existsb
        (fun kv =>
           includes UNSUPPORTED_SCHEMA_PROPS (fst kv)
           || mentions_banned (snd kv))
        entries
  | _ => false
  end.

(** Positions in a tree: a property of an object or an element of an
    array. *)
Inductive selector : Type :=
| Key (k : string)
| Index (i : nat).

Definition select (s : selector) (v : value) : option value :=
  match s, v with
  | Key k, VObj entries =>
      option_map snd (find (fun kv => String.eqb (fst kv) k) entries)
  | Index i, VArr items => nth_error items i
  | _, _ => None
  end.

Fixpoint follow (path : list selector) (v : value) : option value :=
  match path with
  | [] => Some v
  | s :: path' =>
      match select s v with
      | Some v' => follow path' v'
      | None => None
      end
  end.

Definition kept (s : selector) : bool :=
  match s with
  | Key k => negb (includes UNSUPPORTED_SCHEMA_PROPS k)
  | Index _ => true
  end.

(** A position that the loop of the sanitizer carries over. *)
Definition carried (s : selector) : bool :=
  match s with
  | Key k => negb (dropped k)
  | Index _ => true
  end.

Definition is_scalar (v : value) : bool :=
  match v with
  | VArr _ | VObj _ => false
  | _ => true
  end.

(** ** ensureSchemaName *)
Definition ensureSchemaName (name : option string) : string :=
  match name with
  | Some n =>
      if negb (String.eqb n "") && (0 <? String.length (trim n))%nat
      then trim n
      else "ResponseSchema"
  | None => "ResponseSchema"
  end.

(** ** extractTextFromChoice *)

(** One turn of the [for] loop over the parts of a content list: [Some]
    is a [return] from inside the loop, [None] is going on to the next
    part (by [continue], or by reaching the end of the loop body). *)
Definition part_text (part : value) : option string :=
  if negb (truthy part) then None
  else
    match part with
    | VStr s => Some s
    | _ =>
        match get part "text" with
        | VStr s => Some s
        | _ =>
            match get part "output_text" with
            | VStr s => Some s
            | _ =>
                match get part "data" with
                | VStr s => Some s
                | _ => None
                end
            end
        end
    end.

(** The loop: [None] is falling out of it. *)
Fixpoint scan_parts (parts : list value) : option string :=
  match parts with
  | [] => None
  | part :: rest =>
      match part_text part with
      | Some s => Some s
      | None => scan_parts rest
      end
  end.

Definition extractTextFromChoice (choice : value) : string :=
  if negb (truthy choice) then ""
  else
    let message :=
      coalesce (get choice "message")
        (coalesce (get choice "delta") (VObj [])) in
    let content := get message "content" in
    match content with
    | VStr s => s
    | _ =>
        match
          match content with
          | VArr parts => scan_parts parts
          | _ => None
          end
        with
        | Some s => s
        | None =>
            match get message "text" with
            | VStr s => s
            | _ => ""
            end
        end
    end.

(** ** normalizeUsage *)
Definition normalizeUsage (raw latencyMs : value) : value :=
  if negb (truthy raw) then
    if truthy latencyMs then VObj [("latencyMs", latencyMs)] else VUndef
  else
    let promptTokens :=
      coalesce (get raw "prompt_tokens")
        (coalesce (get raw "promptTokens")
           (coalesce (get raw "input_tokens") (get raw "inputTokens"))) in
    let completionTokens :=
      coalesce (get raw "completion_tokens")
        (coalesce (get raw "completionTokens")
           (coalesce (get raw "output_tokens") (get raw "outputTokens"))) in
    let totalTokens :=
      coalesce (get raw "total_tokens")
        (coalesce (get raw "totalTokens")
           (if is_number promptTokens && is_number completionTokens
            then plus promptTokens completionTokens
            else VUndef)) in
    VObj
      [ ("promptTokens", promptTokens);
        ("completionTokens", completionTokens);
        ("totalTokens", totalTokens);
        ("latencyMs", latencyMs) ].

(** ** The host: timers, the clock and the network *)

(** A pending timer made by [setTimeout]: its id, its delay, and the
    controller its callback aborts.  The only callback the adapter ever
    schedules is [() => controller.abort()]. *)
Record timer : Type := {
  timer_id : nat;
  timer_delay : float;
  timer_aborts : nat
}.

(** An outgoing [fetch] call. *)
Record Request : Type := {
  url : string;
  method : string;
  headers : list (string * string);
  body : string;
  signal : option nat
}.

(** A [Response]: [response.ok], [response.statusText], and what
    [await response.text()] gives. *)
Record Response : Type := {
  ok : bool;
  statusText : string;
  text : outcome string
}.

(** What awaiting the network call amounts to: the result of
    [await fetch(...)], and the timers that fired while the call (and the
    reading of the body) was awaited.  It is the answer to a request
    and to the timers that are pending while the call waits, which are
    those that can fire and abort it. *)
Record FetchReply : Type := {
  reply : outcome Response;
  fired : list nat
}.

(** The mutable state of the host a call can touch. *)
Record host : Type := {
  pending : list timer;
  fresh : nat;
  clock : nat;
  wire : list Request
}.

Definition is_pending (id : nat) (h : host) : bool :=
  existsb (fun t => Nat.eqb (timer_id t) id) (pending h).

(** [new AbortController()]. *)
Definition new_AbortController (h : host) : nat * host :=
  (fresh h,
   {| pending := pending h; fresh := S (fresh h);
      clock := clock h; wire := wire h |}).

(** [setTimeout(() => controller.abort(), delay)]. *)
Definition setTimeout (controller : nat) (delay : float) (h : host)
  : nat * host :=
  (fresh h,
   {| pending :=
        pending h
        ++ [{| timer_id := fresh h; timer_delay := delay;
               timer_aborts := controller |}];
      fresh := S (fresh h); clock := clock h; wire := wire h |}).

(** [clearTimeout(id)]: nothing happens when the timer is gone. *)
Definition clearTimeout (id : nat) (h : host) : host :=
  {| pending := filter (fun t => negb (Nat.eqb (timer_id t) id)) (pending h);
     fresh := fresh h; clock := clock h; wire := wire h |}.

(** A timer that fires leaves the pending set. *)
Definition fire (ids : list nat) (h : host) : host :=
  {| pending :=
       filter (fun t => negb (existsb (Nat.eqb (timer_id t)) ids)) (pending h);
     fresh := fresh h; clock := clock h; wire := wire h |}.

Definition send (r : Request) (h : host) : host :=
  {| pending := pending h; fresh := fresh h; clock := clock h;
     wire := wire h ++ [r] |}.

(** ** buildAbortController

    The pair [{ controller, clear }]: [clear] is [None] for the closure
    [() => undefined] and [Some t] for [() => clearTimeout(t)]. *)
Record AbortHandle : Type := {
  controller : option nat;
  clear : option nat
}.

Definition run_clear (a : AbortHandle) (h : host) : host :=
  match clear a with
  | Some t => clearTimeout t h
  | None => h
  end.

Module Params.
(** Modelled from the spec: the declaration of [ProviderGenerateParams] in
    [./types] is not part of the sources; the fields are those the adapter
    reads.  The sampling controls and [model] are dynamically typed values,
    since the adapter tests their type at run time. *)
Record t (zod : Type) : Type := {
  prompt : string;
  model : value;
  temperature : value;
  topP : value;
  maxOutputTokens : value;
  timeoutMs : option float;
  zodSchema : option zod;
  schemaName : option string
}.
Arguments prompt {zod} _.
Arguments model {zod} _.
Arguments temperature {zod} _.
Arguments topP {zod} _.
Arguments maxOutputTokens {zod} _.
Arguments timeoutMs {zod} _.
Arguments zodSchema {zod} _.
Arguments schemaName {zod} _.
End Params.

Module Result.
(** Modelled from the spec: the declaration of [ProviderGenerateResult] in
    [./types] is not part of the sources; the fields are those the adapter
    returns. *)
Record t : Type := {
  content : string;
  rawResponse : value;
  provider : string;
  model : value;
  usage : value
}.
End Result.

(* ================================================================== *)
(** * A mock backend *)
(* ================================================================== *)

Module Mock.

(** A reader for the fragment of JSON the examples use: objects, arrays,
    strings without escapes, unsigned integers, [true], [false] and
    [null], with white space between tokens.  Anything else is refused,
    as a text on which [JSON.parse] throws. *)
Definition is_space (c : ascii) : bool :=
  let n := nat_of_ascii c in
  ((n =? 32) || (n =? 9) || (n =? 10) || (n =? 13))%nat.

Fixpoint skip (cs : list ascii) : list ascii :=
  match cs with
  | c :: cs' => if is_space c then skip cs' else cs
  | [] => []
  end.

Definition digit (c : ascii) : option float :=
  match nat_of_ascii c - 48 with
  | 0 => if (nat_of_ascii c =? 48)%nat then Some 0%float else None
  | 1 => Some 1%float
  | 2 => Some 2%float
  | 3 => Some 3%float
  | 4 => Some 4%float
  | 5 => Some 5%float
  | 6 => Some 6%float
  | 7 => Some 7%float
  | 8 => Some 8%float
  | 9 => Some 9%float
  | _ => None
  end.

Fixpoint digits (acc : float) (cs : list ascii) : float * list ascii :=
  match cs with
  | c :: cs' =>
      match digit c with
      | Some d => digits (acc * 10 + d)%float cs'
      | None => (acc, cs)
      end
  | [] => (acc, [])
  end.

(** The characters of a string up to its closing quote. *)
Fixpoint chars (cs : list ascii) : option (string * list ascii) :=
  match cs with
  | [] => None
  | c :: cs' =>
      if (nat_of_ascii c =? 34)%nat then Some (EmptyString, cs')
      else if (nat_of_ascii c =? 92)%nat then None
      else
        match chars cs' with
        | Some (s, rest) => Some (String c s, rest)
        | None => None
        end
  end.

Fixpoint expect (word : list ascii) (cs : list ascii) : option (list ascii) :=
  match word, cs with
  | [], _ => Some cs
  | w :: word', c :: cs' => if Ascii.eqb w c then expect word' cs' else None
  | _ :: _, [] => None
  end.

Fixpoint read_value (fuel : nat) (cs : list ascii)
  : option (value * list ascii) :=
  match fuel with
  | 0 => None
  | S fuel =>
      match skip cs with
      | [] => None
      | c :: rest =>
          let n := nat_of_ascii c in
          if (n =? 34)%nat then
            match chars rest with
            | Some (s, rest) => Some (VStr s, rest)
            | None => None
            end
          else if (n =? 123)%nat then
            match skip rest with
            | c' :: rest' =>
                if (nat_of_ascii c' =? 125)%nat then Some (VObj [], rest')
                else read_members fuel rest []
            | [] => None
            end
          else if (n =? 91)%nat then
            match skip rest with
            | c' :: rest' =>
                if (nat_of_ascii c' =? 93)%nat then Some (VArr [], rest')
                else read_elements fuel rest []
            | [] => None
            end
          else if (n =? 116)%nat then
            option_map (fun r => (VBool true, r))
              (expect (list_ascii_of_string "rue") rest)
          else if (n =? 102)%nat then
            option_map (fun r => (VBool false, r))
              (expect (list_ascii_of_string "alse") rest)
          else if (n =? 110)%nat then
            option_map (fun r => (VNull, r))
              (expect (list_ascii_of_string "ull") rest)
          else
            match digit c with
            | Some d => let '(x, r) := digits d rest in Some (VNum x, r)
            | None => None
            end
      end
  end

with read_members (fuel : nat) (cs : list ascii)
    (acc : list (string * value)) : option (value * list ascii) :=
  match fuel with
  | 0 => None
  | S fuel =>
      match skip cs with
      | q :: rest =>
          if (nat_of_ascii q =? 34)%nat then
            match chars rest with
            | Some (k, rest) =>
                match skip rest with
                | colon :: rest =>
                    if (nat_of_ascii colon =? 58)%nat then
                      match read_value fuel rest with
                      | Some (v, rest) =>
                          match skip rest with
                          | c :: rest' =>
                              if (nat_of_ascii c =? 44)%nat
                              then read_members fuel rest' (obj_set acc k v)
                              else if (nat_of_ascii c =? 125)%nat
                              then Some (VObj (obj_set acc k v), rest')
                              else None
                          | [] => None
                          end
                      | None => None
                      end
                    else None
                | [] => None
                end
            | None => None
            end
          else None
      | [] => None
      end
  end

with read_elements (fuel : nat) (cs : list ascii) (acc : list value)
  : option (value * list ascii) :=
  match fuel with
  | 0 => None
  | S fuel =>
      match read_value fuel cs with
      | Some (v, rest) =>
          match skip rest with
          | c :: rest' =>
              if (nat_of_ascii c =? 44)%nat
              then read_elements fuel rest' (acc ++ [v])
              else if (nat_of_ascii c =? 93)%nat
              then Some (VArr (acc ++ [v]), rest')
              else None
          | [] => None
          end
      | None => None
      end
  end.

Definition parse (s : string) : option value :=
  let cs := list_ascii_of_string s in
  match read_value (S (List.length cs)) cs with
  | Some (v, rest) =>
      match skip rest with
      | [] => Some v
      | _ :: _ => None
      end
  | None => None
  end.

(** JSON texts are written with apostrophes for the quotes. *)
Fixpoint json (s : string) : string :=
  match s with
  | EmptyString => EmptyString
  | String c s' =>
      String (if (nat_of_ascii c =? 39)%nat then ascii_of_nat 34 else c)
        (json s')
  end.

(** The other collaborators: no schema descriptors in use, a serializer
    whose output the backend does not read, a text for numbers that no
    example reads, a clock that advances by 42 between its first two
    readings, and a host with nothing pending. *)
Definition no_schema (d : Empty_set) : outcome value :=
  match d with end.

Definition stringify (v : value) : string := "(payload)".
Definition display (x : float) : string := "(number)".

Definition Date_now (n : nat) : float :=
  match n with
  | 0 => 1000%float
  | _ => 1042%float
  end.

(** A clock that does not advance between two readings. *)
Definition still (n : nat) : float := 1000%float.

Definition idle : host :=
  {| pending := []; fresh := 0; clock := 0; wire := [] |}.

(** A backend that answers every request with the same status and
    body. *)
Definition backend (success : bool) (status body : string)
    (r : Request) (timers : list timer) : FetchReply :=
  {| reply :=
       Return {| ok := success; statusText := status; text := Return body |};
     fired := [] |}.

Definition answer_4 : string :=
  json "{'model':'m1','choices':[{'message':{'content':'4'}}]}".


(** A backend that never answers.  The wait ends when a pending timer
    fires that aborts the signal of the request; where there is none,
    the example lets the connection fail. *)
Definition silence (r : Request) (timers : list timer) : FetchReply :=
  match
    match signal r with
    | Some c => find (fun t => Nat.eqb (timer_aborts t) c) timers
    | None => None
    end
  with
  | Some t =>
      {| reply :=
           Throw (DOMException "AbortError" "This operation was aborted");
         fired := [timer_id t] |}
  | None => {| reply := Throw (JsError "fetch failed"); fired := [] |}
  end.

(** The call [generate({prompt, timeoutMs})]. *)
Definition hurried (p : string) (ms : float) : Params.t Empty_set :=
  {| Params.prompt := p; Params.model := VUndef;
     Params.temperature := VUndef; Params.topP := VUndef;
     Params.maxOutputTokens := VUndef; Params.timeoutMs := Some ms;
     Params.zodSchema := None; Params.schemaName := None |}.

(** A schema with length bounds at several depths, inside an array of
    sub-schemas too, and a draft marker; and what is left of it. *)
Definition person_schema : value :=
  VObj
    [ ("$schema", VStr "https://json-schema.org/draft/2020-12/schema");
      ("type", VStr "object");
      ("properties",
       VObj
         [ ("name",
            VObj
              [ ("type", VStr "string"); ("minLength", VNum 1);
                ("maxLength", VNum 80) ]);
           ("tags",
            VObj
              [ ("type", VStr "array"); ("minItems", VNum 1);
                ("items", VObj [("type", VStr "string")]) ]) ]);
      ("anyOf",
       VArr
         [ VObj [("type", VStr "string"); ("maxLength", VNum 3)];
           VObj [("type", VStr "null")] ]) ].

Definition person_schema_sanitized : value :=
  VObj
    [ ("type", VStr "object");
      ("properties",
       VObj
         [ ("name", VObj [("type", VStr "string")]);
           ("tags",
            VObj
              [ ("type", VStr "array");
                ("items", VObj [("type", VStr "string")]) ]) ]);
      ("anyOf",
       VArr [VObj [("type", VStr "string")]; VObj [("type", VStr "null")]]) ].

(** [person_schema] in a store, at reference 7. *)
Definition person_store : Store.store :=
  [ Store.Obj
      [ ("type", Store.WStr "string"); ("minLength", Store.WNum 1);
        ("maxLength", Store.WNum 80) ];
    Store.Obj [("type", Store.WStr "string")];
    Store.Obj
      [ ("type", Store.WStr "array"); ("minItems", Store.WNum 1);
        ("items", Store.WRef 1) ];
    Store.Obj [("name", Store.WRef 0); ("tags", Store.WRef 2)];
    Store.Obj [("type", Store.WStr "string"); ("maxLength", Store.WNum 3)];
    Store.Obj [("type", Store.WStr "null")];
    Store.Arr [Store.WRef 4; Store.WRef 5];
    Store.Obj
      [ ("$schema", Store.WStr "https://json-schema.org/draft/2020-12/schema");
        ("type", Store.WStr "object");
        ("properties", Store.WRef 3);
        ("anyOf", Store.WRef 6) ] ].

(** Two schema descriptors: one that converts to [person_schema], one on
    which the conversion throws. *)
Inductive descriptor : Type :=
| Person
| Unsupported.

Definition toJSONSchema (d : descriptor) : outcome value :=
  match d with
  | Person => Return person_schema
  | Unsupported => Throw (JsError "Unsupported type")
  end.

Definition structured (d : descriptor) (label : option string)
  : Params.t descriptor :=
  {| Params.prompt := "hi"; Params.model := VUndef;
     Params.temperature := VUndef; Params.topP := VUndef;
     Params.maxOutputTokens := VUndef; Params.timeoutMs := None;
     Params.zodSchema := Some d; Params.schemaName := label |}.

(** An environment with a key and a base URL that ends with a slash. *)
Definition env (k : string) : option string :=
  if String.eqb k "XAI_API_KEY" then Some "secret"
  else if String.eqb k "XAI_API_BASE_URL" then Some "https://proxy.test/v1/"
  else None.

(** A host on which another call waits for its deadline. *)
Definition busy : host :=
  {| pending :=
       [{| timer_id := 5; timer_delay := 30000; timer_aborts := 4 |}];
     fresh := 6; clock := 0; wire := [] |}.

(** An object schema with a property called [__proto__], as
    [JSON.parse] makes it from a text that names one. *)
Definition proto_schema : value :=
  VObj
    [ ("type", VStr "object");
      ("properties",
       VObj
         [ ("__proto__", VObj [("type", VStr "string")]);
           ("name", VObj [("type", VStr "string")]) ]) ].

(** An object schema with a property called [maxLength], which it
    requires. *)
Definition limits_schema : value :=
  VObj
    [ ("type", VStr "object");
      ("properties",
       VObj
         [ ("maxLength", VObj [("type", VStr "number")]);
           ("unit", VObj [("type", VStr "string"); ("maxLength", VNum 8)]) ]);
      ("required", VArr (map VStr ["maxLength"; "unit"])) ].

End Mock.

(** ** Vocabulary of the properties *)

(** What a part of a content list offers: itself when it is a string
    that is not empty, or the first string among its [text],
    [output_text] and [data]. *)
Inductive carries (part : value) (s : string) : Prop :=
| carries_itself :
    part = VStr s -> s <> "" -> carries part s
| carries_text :
    get part "text" = VStr s -> carries part s
| carries_output_text :
    is_string (get part "text") = false ->
    get part "output_text" = VStr s -> carries part s
| carries_data :
    is_string (get part "text") = false ->
    is_string (get part "output_text") = false ->
    get part "data" = VStr s -> carries part s.

Definition silent (part : value) : Prop := forall s, ~ carries part s.

(** A sampling control as it appears in the payload: under its wire name
    when it is a number, not at all otherwise. *)
Definition optional (k : string) (v : value) : list (string * value) :=
  if is_number v then [(k, v)] else [].

Definition user_message (p : string) : value :=
  VArr [VObj [("role", VStr "user"); ("content", VStr p)]].

(** One turn of the loop of the sanitizer, on trees. *)
Definition step (result : list (string * value)) (kv : string * value)
  : list (string * value) :=
  if includes UNSUPPORTED_SCHEMA_PROPS (fst kv) then result
  else assign result (fst kv) (sanitizeSchemaForGrok (snd kv)).

(** What a call of the store sanitizer is expected to do on a word that
    reads as a tree: return, keep every cell of the store it was given,
    and hand back a word that reads, in cells made by the call alone, as
    the sanitized tree. *)
Definition copies (fuel : nat) : Prop :=
  forall (m : Store.store) (w : Store.word) (t : value),
    Store.reify 0 fuel m w = Some t ->
    exists w' m',
      Store.sanitizeSchemaForGrok fuel w m = Some (w', m')
      /\ Store.preserved m m'
      /\ Store.reify (List.length m) fuel m' w'
         = Some (sanitizeSchemaForGrok t).

(** The handle of a call without a deadline. *)
Definition no_deadline : AbortHandle := {| controller := None; clear := None |}.

(** The ids of the pending timers are below the next id the host hands
    out: what [setTimeout] guarantees of its return values. *)
Definition timers_fresh (h : host) : Prop :=
  Forall (fun t => timer_id t < fresh h) (pending h).

(** A string ends with a slash. *)
Definition ends_with_slash (s : string) : Prop := exists u, s = u ++ "/".

Module ProviderAdapter.
(** Modelled from the spec: the declaration of [ProviderAdapter] in
    [./types] is not part of the sources; the fields are those of the
    object the adapter returns.  [generate] is a call against a host. *)
Record t (zod : Type) : Type := {
  name : string;
  defaultModel : string;
  generate : Params.t zod -> host -> outcome Result.t * host
}.
Arguments name {zod} _.
Arguments defaultModel {zod} _.
Arguments generate {zod} _ _ _.
End ProviderAdapter.

Section Adapter.

(** The collaborators of the adapter, which it calls and does not
    define. *)

(** Typed schema descriptors and [z.toJSONSchema]. *)
Variable zod : Type.
Variable z_toJSONSchema : zod -> outcome value.
(** [JSON.parse]: [None] when it throws. *)
Variable JSON_parse : string -> option value.
Variable JSON_stringify : value -> string.
(** [Number::toString]: the decimal text of a number. *)
Variable Number_toString : float -> string.
(** [typeof AbortController !== 'undefined']. *)
Variable AbortController_defined : bool.
(** [process.env]. *)
Variable process_env : string -> option string.
(** The successive readings of [Date.now()]. *)
Variable Date_now : nat -> float.
(** The network, and the host while a call waits for it: what comes of
    a request, given the timers that are pending during the wait. *)
Variable fetch : Request -> list timer -> FetchReply.

(** [Array.prototype.join] with commas between the elements, [convert]
    being the conversion of an element that is not [null] or
    [undefined]. *)
Fixpoint join_elements (convert : value -> outcome string) (l : list value)
  : outcome string :=
  match l with
  | [] => Return ""
  | x :: l' =>
      match (if nullish x then Return "" else convert x) with
      | Throw e => Throw e
      | Return s =>
          match l' with
          | [] => Return s
          | _ :: _ =>
              match join_elements convert l' with
              | Throw e => Throw e
              | Return t => Return (s ++ "," ++ t)
              end
          end
      end
  end.

(** String conversion, as a template literal does it, of a value that
    [JSON.parse] made (or [undefined]).  An object is converted by its
    [toString]: the one it inherits gives [[object Object]]; a property
    [toString] of its own hides that one and is no function, and then
    [valueOf], its own or the inherited one, gives no primitive either,
    so that the conversion throws a [TypeError] (an [Error], here with
    the message of V8).  An array is converted by [join]: its elements,
    converted in turn, [null] and [undefined] as the empty string, with
    commas between them. *)
Fixpoint ToString (v : value) : outcome string :=
  match v with
  | VUndef => Return "undefined"
  | VNull => Return "null"
  | VBool b => Return (if b then "true" else "false")
  | VNum x => Return (Number_toString x)
  | VStr s => Return s
  | VArr items => join_elements ToString items
  | VObj entries =>
      if obj_has entries "toString"
      then Throw (JsError "Cannot convert object to primitive value")
      else Return "[object Object]"
  end.

Definition read_clock (h : host) : float * host :=
  (Date_now (clock h),
   {| pending := pending h; fresh := fresh h; clock := S (clock h);
      wire := wire h |}).

Definition buildAbortController (timeoutMs : option float) (h : host)
  : AbortHandle * host :=
  match timeoutMs with
  | None => ({| controller := None; clear := None |}, h)
  | Some ms =>
      if negb (truthy (VNum ms)) || PrimFloat.leb ms 0
         || negb AbortController_defined
      then ({| controller := None; clear := None |}, h)
      else
        let '(c, h1) := new_AbortController h in
        let '(t, h2) := setTimeout c ms h1 in
        ({| controller := Some c; clear := Some t |}, h2)
  end.

(** ** buildPayload *)
Definition buildPayload (params : Params.t zod) : outcome value :=
  let payload :=
    VObj
      [ ("model", coalesce (Params.model params) (VStr DEFAULT_MODEL));
        ("messages",
         VArr
           [ VObj
               [ ("role", VStr "user");
                 ("content", VStr (Params.prompt params)) ] ]) ] in
  let payload :=
    if is_number (Params.temperature params)
    then set payload "temperature" (Params.temperature params)
    else payload in
  let payload :=
    if is_number (Params.topP params)
    then set payload "top_p" (Params.topP params)
    else payload in
  let payload :=
    if is_number (Params.maxOutputTokens params)
    then set payload "max_output_tokens" (Params.maxOutputTokens params)
    else payload in
  match Params.zodSchema params with
  | None => Return payload
  | Some descriptor =>
      match z_toJSONSchema descriptor with
      | Return jsonSchema =>
          let sanitizedSchema := sanitizeSchemaForGrok jsonSchema in
          Return
            (set payload "response_format"
               (VObj
                  [ ("type", VStr "json_schema");
                    ("json_schema",
                     VObj
                       [ ("name",
                          VStr (ensureSchemaName (Params.schemaName params)));
                         ("schema", sanitizedSchema) ]) ]))
      | Throw error =>
          Throw
            (JsError
               (if instanceof_Error error
                then "Failed to convert schema: " ++ error_message error
                else "Failed to convert schema"))
      end
  end.

(** ** generate *)

(** The [message] and the [code] of the error raised for a response whose
    status is not a success. *)
Definition upstream_message (parsed : value) (response : Response) : value :=
  or_else (opt_get (opt_get parsed "error") "message")
    (or_else (opt_get parsed "message")
       (or_else (VStr (statusText response)) (VStr "Unknown error"))).

Definition upstream_code (parsed : value) : value :=
  or_else (opt_get (opt_get parsed "error") "code") (opt_get parsed "code").

(** The text in parentheses of the message: the inner template
    [` (${code})`], or the empty string. *)
Definition code_text (code : value) : outcome string :=
  if truthy code then
    match ToString code with
    | Return c => Return (" (" ++ c ++ ")")
    | Throw e => Throw e
    end
  else Return "".

(** What [throw new Error(`Grok API error${...}: ${message}`)] throws:
    the error, or what a conversion inside the template throws before
    the error is made, the one of [code] first. *)
Definition upstream_error (parsed : value) (response : Response) : thrown :=
  let message := upstream_message parsed response in
  let code := upstream_code parsed in
  match code_text code with
  | Throw e => e
  | Return c =>
      match ToString message with
      | Throw e => e
      | Return m => JsError ("Grok API error" ++ c ++ ": " ++ m)
      end
  end.

(** The argument of [fetch]. *)
Definition build_request (apiKey baseUrl : string) (payload : value)
    (handle : AbortHandle) : Request :=
  {| url := baseUrl ++ "/chat/completions";
     method := "POST";
     headers :=
       [ ("Authorization", "Bearer " ++ apiKey);
         ("Content-Type", "application/json") ];
     body := JSON_stringify payload;
     signal := controller handle |}.

(** [responseText ? JSON.parse(responseText) : undefined], [None] when
    [JSON.parse] throws. *)
Definition parse_body (responseText : string) : option value :=
  if String.eqb responseText "" then Some VUndef else JSON_parse responseText.

(** [Array.isArray(parsed?.choices) ? parsed.choices[0] : undefined]. *)
Definition first_choice (parsed : value) : value :=
  if Array_isArray (opt_get parsed "choices")
  then index (get parsed "choices") 0
  else VUndef.

(** The body of the [try] block.  [console.error], which only logs, is
    left out. *)
Definition try_block (apiKey baseUrl : string) (params : Params.t zod)
    (handle : AbortHandle) (requestStartedAt : float) (h : host)
  : outcome Result.t * host :=
  match buildPayload params with
  | Throw e => (Throw e, h)
  | Return payload =>
      let request := build_request apiKey baseUrl payload handle in
      let answer := fetch request (pending h) in
      let h := fire (fired answer) (send request h) in
      match reply answer with
      | Throw e => (Throw e, h)
      | Return response =>
          match text response with
          | Throw e => (Throw e, h)
          | Return responseText =>
              match parse_body responseText with
              | None =>
                  (Throw (JsError "Grok API returned a non-JSON response."), h)
              | Some parsed =>
                  if negb (ok response)
                  then (Throw (upstream_error parsed response), h)
                  else
                    let '(now, h) := read_clock h in
                    let latencyMs := (now - requestStartedAt)%float in
                    let choice := first_choice parsed in
                    let content := extractTextFromChoice choice in
                    if negb (truthy (VStr content))
                    then
                      (Throw (JsError "Grok API returned an empty response."),
                       h)
                    else
                      (Return
                         {| Result.content := content;
                            Result.rawResponse := parsed;
                            Result.provider := PROVIDER_NAME;
                            Result.model :=
                              coalesce (opt_get parsed "model")
                                (get payload "model");
                            Result.usage :=
                              normalizeUsage (opt_get parsed "usage")
                                (VNum latencyMs) |},
                       h)
              end
          end
      end
  end.

(** The [catch] clause. *)
Definition catch_clause (error : thrown) : thrown :=
  match error with
  | DOMException name _ =>
      if String.eqb name "AbortError"
      then JsError "Grok request timed out."
      else error
  | _ => error
  end.

Definition generate (apiKey baseUrl : string) (params : Params.t zod)
    (h : host) : outcome Result.t * host :=
  let '(handle, h) := buildAbortController (Params.timeoutMs params) h in
  let '(requestStartedAt, h) := read_clock h in
  let '(result, h) :=
    try_block apiKey baseUrl params handle requestStartedAt h in
  let result :=
    match result with
    | Return r => Return r
    | Throw error => Throw (catch_clause error)
    end in
  (result, run_clear handle h).

(** ** createGrokAdapter *)
Definition createGrokAdapter : outcome (ProviderAdapter.t zod) :=
  let apiKey := process_env "XAI_API_KEY" in
  if negb
       match apiKey with
       | Some k => negb (String.eqb k "")
       | None => false
       end
  then
    Throw
      (JsError
         "XAI_API_KEY is required to use the Grok provider. Set the environment variable and try again.")
  else
    let apiKey := match apiKey with Some k => k | None => "" end in
    let baseUrl :=
      match process_env "XAI_API_BASE_URL" with
      | Some u => strip_trailing_slash u
      | None => "https://api.x.ai/v1"
      end in
    Return
      {| ProviderAdapter.name := PROVIDER_NAME;
         ProviderAdapter.defaultModel := DEFAULT_MODEL;
         ProviderAdapter.generate := generate apiKey baseUrl |}.


Definition sampling_fields (params : Params.t zod) : list (string * value) :=
  (optional "temperature" (Params.temperature params)
   ++ optional "top_p" (Params.topP params)
   ++ optional "max_output_tokens" (Params.maxOutputTokens params))%list.

(** The call [build({prompt})]: every other field absent. *)
Definition just_prompt (p : string) : Params.t zod :=
  {| Params.prompt := p; Params.model := VUndef;
     Params.temperature := VUndef; Params.topP := VUndef;
     Params.maxOutputTokens := VUndef; Params.timeoutMs := None;
     Params.zodSchema := None; Params.schemaName := None |}.

Definition with_topP (p : string) (x : value) : Params.t zod :=
  {| Params.prompt := p; Params.model := VUndef;
     Params.temperature := VUndef; Params.topP := x;
     Params.maxOutputTokens := VUndef; Params.timeoutMs := None;
     Params.zodSchema := None; Params.schemaName := None |}.

(** The result of a call whose request got [response] with a body that
    could be read as [responseText], in one expression; [t0] and [t1] are
    the two readings of the clock. *)
Definition settle (payload : value) (response : Response)
    (responseText : string) (t0 t1 : float) : outcome Result.t :=
  match parse_body responseText with
  | None => Throw (JsError "Grok API returned a non-JSON response.")
  | Some parsed =>
      if ok response then
        if String.eqb (extractTextFromChoice (first_choice parsed)) ""
        then Throw (JsError "Grok API returned an empty response.")
        else
          Return
            {| Result.content := extractTextFromChoice (first_choice parsed);
               Result.rawResponse := parsed;
               Result.provider := PROVIDER_NAME;
               Result.model :=
                 coalesce (opt_get parsed "model") (get payload "model");
               Result.usage :=
                 normalizeUsage (opt_get parsed "usage") (VNum (t1 - t0)) |}
      else Throw (upstream_error parsed response)
  end.

(* ================================================================== *)
(** * Properties *)
(* ================================================================== *)

(** ** Objects as entry lists *)

#[local] Arguments includes : simpl never.

Lemma includes_In (l : list string) (k : string) :
  includes l k = true <-> In k l.
Proof.
  unfold includes. rewrite existsb_exists. split.
  - intros [x [Hx He]]. apply String.eqb_eq in He. now subst.
  - intros H. exists k. split; [assumption | apply String.eqb_refl].
Qed.

Lemma includes_not_In (l : list string) (k : string) :
  includes l k = false <-> ~ In k l.
Proof.
  rewrite <- includes_In. destruct (includes l k); split; congruence.
Qed.

Lemma distinct_NoDup (ks : list string) : distinct ks = true <-> NoDup ks.
Proof.
  induction ks as [|k ks IH]; simpl.
  - split; [constructor | reflexivity].
  - rewrite andb_true_iff, negb_true_iff, includes_not_In, IH. split.
    + intros [H1 H2]. now constructor.
    + intros H. inversion H; subst. now split.
Qed.

Lemma obj_set_fresh {A : Type} (o : list (string * A)) (k : string) (v : A) :
  ~ In k (keys o) -> obj_set o k v = (o ++ [(k, v)])%list.
Proof.
  induction o as [|[k' v'] o IH]; simpl; intros H.
  - reflexivity.
  - destruct (String.eqb_spec k' k) as [->|Hne].
    + exfalso. apply H. now left.
    + rewrite IH; [reflexivity|]. intros Hin. apply H. now right.
Qed.

(** ** The sanitizer *)

(** The loop of the sanitizer, for any treatment [g] of the property
    values: over distinct keys, assignment appends. *)
Lemma assign_loop (g : value -> value) (entries acc : list (string * value)) :
  NoDup (keys acc ++ keys entries)%list ->
  fold_left
    (fun result kv =>
       if includes UNSUPPORTED_SCHEMA_PROPS (fst kv) then result
       else assign result (fst kv) (g (snd kv)))
    entries acc
  = (acc
     ++ filter (fun kv => negb (dropped (fst kv)))
          (map (fun kv => (fst kv, g (snd kv))) entries))%list.
Proof.
  revert acc. induction entries as [|[k v] entries IH]; intros acc Hnd;
    cbn [fold_left map filter fst snd].
  - now rewrite app_nil_r.
  - simpl in Hnd. unfold dropped at 1, assign at 2.
    destruct (includes UNSUPPORTED_SCHEMA_PROPS k) eqn:Hb; cbn [negb orb].
    + apply IH. eapply NoDup_remove_1; eassumption.
    + destruct (unassigned k); cbn [negb].
      * apply IH. eapply NoDup_remove_1; eassumption.
      * rewrite obj_set_fresh.
        -- rewrite IH.
           ++ now rewrite <- app_assoc.
           ++ unfold keys in *. rewrite map_app, <- app_assoc. exact Hnd.
        -- intros Hin. apply NoDup_remove_2 in Hnd. apply Hnd.
           apply in_or_app. now left.
Qed.

Lemma map_ext_Forall {A B : Type} (f g : A -> B) (l : list A) :
  Forall (fun x => f x = g x) l -> map f l = map g l.
Proof.
  induction 1 as [|x l Hx _ IH]; simpl; [reflexivity | now rewrite Hx, IH].
Qed.

(** On a tree whose objects hold no key twice, the sanitizer leaves out
    the entries under the banned keys and those under [__proto__], and
    nothing else. *)
Lemma sanitize_strip_dropped (v : value) :
  well_formed v = true -> sanitizeSchemaForGrok v = strip_dropped v.
Proof.
  induction v as [| | | | |items IH|entries IH] using value_ind;
    intros Hwf; try reflexivity.
  - simpl. f_equal. apply map_ext_Forall.
    simpl in Hwf. rewrite forallb_forall in Hwf. rewrite Forall_forall in *.
    intros x Hx. apply IH; auto.
  - simpl in *. apply andb_true_iff in Hwf as [Hd Hw].
    f_equal. rewrite assign_loop.
    + simpl. f_equal. apply map_ext_Forall.
      rewrite forallb_forall in Hw. rewrite Forall_forall in *.
      intros [k x] Hx. simpl. f_equal. apply (IH _ Hx). apply (Hw _ Hx).
    + simpl. now apply distinct_NoDup.
Qed.

(** Where no key is [__proto__], that is what the contract says. *)
Lemma strip_dropped_ordinary (v : value) :
  ordinary v = true -> strip_dropped v = strip_banned_keys v.
Proof.
  induction v as [| | | | |items IH|entries IH] using value_ind;
    intros Ho; try reflexivity.
  - simpl in *. f_equal. apply map_ext_Forall.
    rewrite forallb_forall in Ho. rewrite Forall_forall in *.
    intros x Hx. apply IH; auto.
  - simpl in *. f_equal.
    induction IH as [|[k x] l Hx _ IHl]; cbn [map filter forallb fst snd] in *;
      [reflexivity|].
    apply andb_true_iff in Ho as [Hk Ho].
    apply andb_true_iff in Hk as [Hk Hox].
    apply negb_true_iff in Hk. unfold dropped at 1. rewrite Hk, orb_false_r.
    rewrite (Hx Hox), (IHl Ho). reflexivity.
Qed.

(** On a tree whose objects hold no key twice and no key [__proto__],
    the sanitizer computes what its contract says. *)
Lemma sanitize_refines_strip (v : value) :
  well_formed v = true -> ordinary v = true ->
  sanitizeSchemaForGrok v = strip_banned_keys v.
Proof.
  intros Hwf Ho.
  now rewrite (sanitize_strip_dropped v Hwf), (strip_dropped_ordinary v Ho).
Qed.

Lemma strip_dropped_no_banned (v : value) :
  mentions_banned (strip_dropped v) = false.
Proof.
  induction v as [| | | | |items IH|entries IH] using value_ind;
    try reflexivity.
  - simpl. induction IH as [|x l Hx _ IHl]; simpl; [reflexivity|].
    now rewrite Hx, IHl.
  - simpl. induction IH as [|[k x] l Hx _ IHl]; cbn [map filter fst snd].
    + reflexivity.
    + unfold dropped at 1.
      destruct (includes UNSUPPORTED_SCHEMA_PROPS k) eqn:Hb; cbn [negb orb].
      * exact IHl.
      * destruct (unassigned k); cbn [negb]; [exact IHl|].
        cbn [existsb fst snd]. simpl in Hx. now rewrite Hb, Hx, IHl.
Qed.

Lemma strip_no_banned (v : value) :
  mentions_banned (strip_banned_keys v) = false.
Proof.
  induction v as [| | | | |items IH|entries IH] using value_ind;
    try reflexivity.
  - simpl. induction IH as [|x l Hx _ IHl]; simpl; [reflexivity|].
    now rewrite Hx, IHl.
  - simpl. induction IH as [|[k x] l Hx _ IHl]; cbn [map filter fst snd].
    + reflexivity.
    + destruct (includes UNSUPPORTED_SCHEMA_PROPS k) eqn:Hb; cbn [negb].
      * exact IHl.
      * cbn [existsb fst snd]. simpl in Hx. now rewrite Hb, Hx, IHl.
Qed.

Lemma strip_clean (v : value) :
  mentions_banned v = false -> strip_banned_keys v = v.
Proof.
  induction v as [| | | | |items IH|entries IH] using value_ind;
    intros Hm; try reflexivity.
  - simpl in *. f_equal.
    induction IH as [|x l Hx _ IHl]; simpl in *; [reflexivity|].
    apply orb_false_iff in Hm as [H1 H2]. now rewrite Hx, IHl.
  - simpl in *. f_equal.
    induction IH as [|[k x] l Hx _ IHl]; cbn [map filter fst snd existsb] in *.
    + reflexivity.
    + apply orb_false_iff in Hm as [H1 H2].
      apply orb_false_iff in H1 as [Hb Hx'].
      rewrite Hb. cbn [negb]. simpl in Hx. now rewrite Hx, IHl.
Qed.

Lemma strip_idempotent (v : value) :
  strip_banned_keys (strip_banned_keys v) = strip_banned_keys v.
Proof. apply strip_clean, strip_no_banned. Qed.

Lemma keys_strip_entries (g : value -> value)
    (entries : list (string * value)) :
  keys
    (filter (fun kv => negb (includes UNSUPPORTED_SCHEMA_PROPS (fst kv)))
       (map (fun kv => (fst kv, g (snd kv))) entries))
  = filter (fun k => negb (includes UNSUPPORTED_SCHEMA_PROPS k)) (keys entries).
Proof.
  unfold keys.
  induction entries as [|[k x] l IH]; cbn [map filter fst snd].
  - reflexivity.
  - destruct (includes UNSUPPORTED_SCHEMA_PROPS k); cbn [negb map fst].
    + exact IH.
    + now rewrite IH.
Qed.

Lemma NoDup_filter {A : Type} (f : A -> bool) (l : list A) :
  NoDup l -> NoDup (filter f l).
Proof.
  induction 1 as [|x l Hx _ IH]; simpl; [constructor|].
  destruct (f x); [|exact IH]. constructor; [|exact IH].
  intros Hin. apply filter_In in Hin as [Hin _]. contradiction.
Qed.

Lemma strip_well_formed (v : value) :
  well_formed v = true -> well_formed (strip_banned_keys v) = true.
Proof.
  induction v as [| | | | |items IH|entries IH] using value_ind;
    intros Hwf; try reflexivity.
  - simpl in *. rewrite forallb_forall in *. rewrite Forall_forall in IH.
    intros y Hy. apply in_map_iff in Hy as [x [<- Hx]]. auto.
  - simpl in *. apply andb_true_iff in Hwf as [Hd Hw].
    apply andb_true_iff. split.
    + apply distinct_NoDup. fold (keys
        (filter (fun kv => negb (includes UNSUPPORTED_SCHEMA_PROPS (fst kv)))
           (map (fun kv => (fst kv, strip_banned_keys (snd kv))) entries))).
      rewrite keys_strip_entries. apply NoDup_filter.
      now apply distinct_NoDup.
    + rewrite forallb_forall in *. rewrite Forall_forall in IH.
      intros y Hy. apply filter_In in Hy as [Hy _].
      apply in_map_iff in Hy as [x [<- Hx]]. simpl. auto.
Qed.

Lemma find_strip_entries (drop : string -> bool) (g : value -> value)
    (k : string) (entries : list (string * value)) :
  drop k = false ->
  find (fun kv => String.eqb (fst kv) k)
    (filter (fun kv => negb (drop (fst kv)))
       (map (fun kv => (fst kv, g (snd kv))) entries))
  = option_map (fun kv => (fst kv, g (snd kv)))
      (find (fun kv => String.eqb (fst kv) k) entries).
Proof.
  intros Hk. induction entries as [|[k' x] l IH]; cbn [map filter find fst snd].
  - reflexivity.
  - destruct (String.eqb_spec k' k) as [->|Hne].
    + rewrite Hk. cbn [negb find fst]. now rewrite String.eqb_refl.
    + destruct (drop k'); cbn [negb find fst].
      * exact IH.
      * destruct (String.eqb_spec k' k); [contradiction | exact IH].
Qed.

Lemma select_strip (s : selector) (v : value) :
  kept s = true ->
  select s (strip_banned_keys v) = option_map strip_banned_keys (select s v).
Proof.
  intros Hs. destruct s as [k|i], v; try reflexivity.
  - cbn [select strip_banned_keys]. simpl in Hs. apply negb_true_iff in Hs.
    rewrite (find_strip_entries (includes UNSUPPORTED_SCHEMA_PROPS))
      by assumption.
    now destruct (find _ entries).
  - cbn [select strip_banned_keys]. apply nth_error_map.
Qed.

Lemma select_strip_dropped (s : selector) (v : value) :
  carried s = true ->
  select s (strip_dropped v) = option_map strip_dropped (select s v).
Proof.
  intros Hs. destruct s as [k|i], v; try reflexivity.
  - cbn [select strip_dropped]. simpl in Hs. apply negb_true_iff in Hs.
    rewrite (find_strip_entries dropped) by assumption.
    now destruct (find _ entries).
  - cbn [select strip_dropped]. apply nth_error_map.
Qed.

Lemma follow_strip_dropped (path : list selector) (v : value) :
  forallb carried path = true ->
  follow path (strip_dropped v) = option_map strip_dropped (follow path v).
Proof.
  revert v. induction path as [|s path IH]; intros v Hp; simpl in *.
  - reflexivity.
  - apply andb_true_iff in Hp as [Hs Hp].
    rewrite select_strip_dropped by assumption.
    destruct (select s v); simpl; [now apply IH | reflexivity].
Qed.

Lemma follow_strip (path : list selector) (v : value) :
  forallb kept path = true ->
  follow path (strip_banned_keys v)
  = option_map strip_banned_keys (follow path v).
Proof.
  revert v. induction path as [|s path IH]; intros v Hp; simpl in *.
  - reflexivity.
  - apply andb_true_iff in Hp as [Hs Hp].
    rewrite select_strip by assumption.
    destruct (select s v); simpl; [now apply IH | reflexivity].
Qed.

Lemma select_well_formed (s : selector) (v v' : value) :
  well_formed v = true -> select s v = Some v' -> well_formed v' = true.
Proof.
  intros Hwf Hs. destruct s as [k|i], v; try discriminate; simpl in *.
  - apply andb_true_iff in Hwf as [_ Hw]. rewrite forallb_forall in Hw.
    destruct (find _ entries) as [kv|] eqn:Hf; [|discriminate].
    apply find_some in Hf as [Hin _]. injection Hs as <-. auto.
  - rewrite forallb_forall in Hwf. apply nth_error_In in Hs. auto.
Qed.

Lemma follow_well_formed (path : list selector) (v v' : value) :
  well_formed v = true -> follow path v = Some v' -> well_formed v' = true.
Proof.
  revert v. induction path as [|s path IH]; intros v Hwf Hf; simpl in *.
  - now injection Hf as <-.
  - destruct (select s v) as [w|] eqn:Hs; [|discriminate].
    eapply IH; [|eassumption]. eapply select_well_formed; eassumption.
Qed.

Lemma select_ordinary (s : selector) (v v' : value) :
  ordinary v = true -> select s v = Some v' -> ordinary v' = true.
Proof.
  intros Ho Hs. destruct s as [k|i], v; try discriminate; simpl in *.
  - rewrite forallb_forall in Ho.
    destruct (find _ entries) as [kv|] eqn:Hf; [|discriminate].
    apply find_some in Hf as [Hin _]. injection Hs as <-.
    specialize (Ho _ Hin). now apply andb_true_iff in Ho as [_ Ho].
  - rewrite forallb_forall in Ho. apply nth_error_In in Hs. auto.
Qed.

Lemma follow_ordinary (path : list selector) (v v' : value) :
  ordinary v = true -> follow path v = Some v' -> ordinary v' = true.
Proof.
  revert v. induction path as [|s path IH]; intros v Ho Hf; simpl in *.
  - now injection Hf as <-.
  - destruct (select s v) as [w|] eqn:Hs; [|discriminate].
    eapply IH; [|eassumption]. eapply select_ordinary; eassumption.
Qed.

Lemma strip_ordinary (v : value) :
  ordinary v = true -> ordinary (strip_banned_keys v) = true.
Proof.
  induction v as [| | | | |items IH|entries IH] using value_ind;
    intros Ho; try reflexivity.
  - simpl in *. rewrite forallb_forall in *. rewrite Forall_forall in IH.
    intros y Hy. apply in_map_iff in Hy as [x [<- Hx]]. auto.
  - simpl in *. rewrite forallb_forall in *. rewrite Forall_forall in IH.
    intros y Hy. apply filter_In in Hy as [Hy _].
    apply in_map_iff in Hy as [x [<- Hx]]. simpl.
    specialize (Ho _ Hx). apply andb_true_iff in Ho as [Hk Hox].
    rewrite Hk. simpl. auto.
Qed.

(** ** The sanitizer over a store *)

Lemma preserved_refl (m : Store.store) : Store.preserved m m.
Proof. now intros l _. Qed.

Lemma preserved_length (m m' : Store.store) :
  Store.preserved m m' -> List.length m <= List.length m'.
Proof.
  intros H. destruct (List.length m) as [|n] eqn:E; [lia|].
  assert (Hn : n < List.length m) by lia. rewrite E in Hn.
  unfold Store.preserved in H. rewrite E in H. specialize (H n Hn).
  assert (Hs : nth_error m n <> None) by (apply nth_error_Some; lia).
  rewrite <- H in Hs. apply nth_error_Some in Hs. lia.
Qed.

Lemma preserved_trans (m1 m2 m3 : Store.store) :
  Store.preserved m1 m2 -> Store.preserved m2 m3 -> Store.preserved m1 m3.
Proof.
  intros H12 H23 l Hl. rewrite H23, H12; auto.
  apply preserved_length in H12. lia.
Qed.

Lemma preserved_alloc (m : Store.store) (c : Store.cell) :
  Store.preserved m (m ++ [c])%list.
Proof. intros l Hl. now apply nth_error_app1. Qed.

Lemma nth_error_update_other (m : Store.store) (l l' : nat) (c : Store.cell) :
  l <> l' -> nth_error (Store.update l c m) l' = nth_error m l'.
Proof.
  revert l l'. induction m as [|c' m IH]; intros [|l] [|l'] Hne; simpl;
    try reflexivity; try congruence.
  apply IH. congruence.
Qed.

Lemma nth_error_update_same (m : Store.store) (l : nat) (c : Store.cell) :
  l < List.length m -> nth_error (Store.update l c m) l = Some c.
Proof.
  revert l. induction m as [|c' m IH]; intros [|l] Hl; simpl in *;
    try lia; [reflexivity|]. apply IH. lia.
Qed.

Lemma traverse_impl {A B : Type} (f g : A -> option B) (l : list A)
    (ys : list B) :
  (forall x y, In x l -> f x = Some y -> g x = Some y) ->
  Store.traverse f l = Some ys -> Store.traverse g l = Some ys.
Proof.
  revert ys. induction l as [|x l IH]; intros ys Hfg; simpl; [trivial|].
  destruct (f x) as [y|] eqn:Ex; [|discriminate].
  rewrite (Hfg x y (or_introl eq_refl) Ex).
  destruct (Store.traverse f l) as [ys'|] eqn:El; [|discriminate].
  rewrite (IH ys'); auto. intros x' y' Hin. apply Hfg. now right.
Qed.

Lemma traverse_ext {A B : Type} (f g : A -> option B) (l : list A) :
  (forall x, f x = g x) -> Store.traverse f l = Store.traverse g l.
Proof.
  intros H. induction l as [|x l IH]; simpl; [reflexivity|].
  now rewrite H, IH.
Qed.

Lemma entry_impl (f g : Store.word -> option value) (kv : string * Store.word)
    (p : string * value) :
  (forall y, f (snd kv) = Some y -> g (snd kv) = Some y) ->
  Store.entry f kv = Some p -> Store.entry g kv = Some p.
Proof.
  unfold Store.entry. intros H. destruct (f (snd kv)) as [y|]; [|discriminate].
  now rewrite (H y eq_refl).
Qed.

(** A tree read from a store is read again, the same, from every store
    that keeps the cells of the first. *)
Lemma reify_preserved (floor fuel : nat) (m m' : Store.store) (w : Store.word)
    (t : value) :
  Store.preserved m m' ->
  Store.reify floor fuel m w = Some t -> Store.reify floor fuel m' w = Some t.
Proof.
  intros Hp. revert w t. induction fuel as [|fuel IH]; intros w t; simpl;
    [discriminate|].
  destruct w as [| | | | |l]; trivial.
  destruct (l <? floor)%nat; [discriminate|].
  destruct (nth_error m l) as [c|] eqn:El; [|discriminate].
  rewrite Hp, El by (apply nth_error_Some; congruence).
  destruct c as [items|entries].
  - destruct (Store.traverse (Store.reify floor fuel m) items) as [ts|] eqn:Et;
      [|discriminate].
    rewrite (traverse_impl (Store.reify floor fuel m)
               (Store.reify floor fuel m') items ts); auto.
  - destruct (Store.traverse (Store.entry (Store.reify floor fuel m)) entries)
      as [ts|] eqn:Et; [|discriminate].
    rewrite (traverse_impl (Store.entry (Store.reify floor fuel m))
               (Store.entry (Store.reify floor fuel m')) entries ts); auto.
    intros kv p _. apply entry_impl. auto.
Qed.

(** Reading above a floor looks at no cell below it. *)
Lemma reify_above (floor fuel : nat) (m m' : Store.store) (w : Store.word) :
  (forall l, floor <= l -> nth_error m' l = nth_error m l) ->
  Store.reify floor fuel m' w = Store.reify floor fuel m w.
Proof.
  intros Ha. revert w. induction fuel as [|fuel IH]; intros w; simpl;
    [reflexivity|].
  destruct w as [| | | | |l]; trivial.
  destruct (Nat.ltb_spec l floor) as [Hlt|Hge]; [reflexivity|].
  rewrite (Ha l Hge). destruct (nth_error m l) as [[items|entries]|];
    [| |reflexivity].
  - now rewrite (traverse_ext _ _ items IH).
  - f_equal. apply traverse_ext. intros kv. unfold Store.entry. now rewrite IH.
Qed.

(** A tree read above a floor is read above every lower floor. *)
Lemma reify_floor (floor floor' fuel : nat) (m : Store.store) (w : Store.word)
    (t : value) :
  floor' <= floor ->
  Store.reify floor fuel m w = Some t -> Store.reify floor' fuel m w = Some t.
Proof.
  intros Hle. revert w t. induction fuel as [|fuel IH]; intros w t; simpl;
    [discriminate|].
  destruct w as [| | | | |l]; trivial.
  destruct (Nat.ltb_spec l floor) as [Hlt|Hge]; [discriminate|].
  destruct (Nat.ltb_spec l floor') as [Hlt'|Hge']; [lia|].
  destruct (nth_error m l) as [[items|entries]|]; [| |discriminate].
  - destruct (Store.traverse (Store.reify floor fuel m) items) as [ts|] eqn:Et;
      [|discriminate].
    rewrite (traverse_impl (Store.reify floor fuel m)
               (Store.reify floor' fuel m) items ts); auto.
  - destruct (Store.traverse (Store.entry (Store.reify floor fuel m)) entries)
      as [ts|] eqn:Et; [|discriminate].
    rewrite (traverse_impl (Store.entry (Store.reify floor fuel m))
               (Store.entry (Store.reify floor' fuel m)) entries ts); auto.
    intros kv p _. apply entry_impl. auto.
Qed.

Lemma traverse_obj_set (g : Store.word -> option value)
    (aw : list (string * Store.word)) (at_ : list (string * value))
    (k : string) (y : Store.word) (ty : value) :
  Store.traverse (Store.entry g) aw = Some at_ ->
  g y = Some ty ->
  Store.traverse (Store.entry g) (obj_set aw k y) = Some (obj_set at_ k ty).
Proof.
  intros Ha Hy. revert at_ Ha.
  induction aw as [|[k' w'] aw IH]; intros at_ Ha; simpl in *.
  - injection Ha as <-. unfold Store.entry. simpl. now rewrite Hy.
  - unfold Store.entry at 1 in Ha. simpl in Ha.
    destruct (g w') as [t'|] eqn:Ew; [|discriminate]. simpl in Ha.
    destruct (Store.traverse (Store.entry g) aw) as [ts|] eqn:Et;
      [|discriminate].
    injection Ha as <-. simpl.
    destruct (String.eqb k' k); simpl.
    + unfold Store.entry at 1. simpl. now rewrite Hy, Et.
    + unfold Store.entry at 1. simpl. rewrite Ew. simpl.
      now rewrite (IH ts eq_refl).
Qed.


Lemma map_each_copies (fuel : nat) (base : Store.store) :
  copies fuel ->
  forall (items : list Store.word) (m : Store.store) (ts : list value),
    Store.preserved base m ->
    Store.traverse (Store.reify 0 fuel base) items = Some ts ->
    exists ys m',
      Store.map_each (Store.sanitizeSchemaForGrok fuel) items m = Some (ys, m')
      /\ Store.preserved m m'
      /\ Store.traverse (Store.reify (List.length base) fuel m') ys
         = Some (map sanitizeSchemaForGrok ts).
Proof.
  intros Hc. induction items as [|x items IH]; intros m ts Hp Ht; simpl in *.
  - injection Ht as <-. exists [], m.
    split; [reflexivity | split; [apply preserved_refl | reflexivity]].
  - destruct (Store.reify 0 fuel base x) as [tx|] eqn:Ex; [|discriminate].
    destruct (Store.traverse (Store.reify 0 fuel base) items) as [ts'|] eqn:Et;
      [|discriminate].
    injection Ht as <-.
    destruct (Hc m x tx (reify_preserved _ _ _ _ _ _ Hp Ex))
      as [y [m1 [Hs [Hp1 Hy]]]].
    destruct (IH m1 ts' (preserved_trans _ _ _ Hp Hp1) eq_refl)
      as [ys [m2 [Hl [Hp2 Hys]]]].
    exists (y :: ys), m2. rewrite Hs, Hl.
    split; [reflexivity | split].
    + eapply preserved_trans; eassumption.
    + simpl.
      rewrite (reify_floor (List.length m) (List.length base) fuel m2 y
                 (sanitizeSchemaForGrok tx)).
      * now rewrite Hys.
      * now apply preserved_length.
      * eapply reify_preserved; eassumption.
Qed.


Lemma for_entries_copies (fuel : nat) (base : Store.store) :
  copies fuel ->
  forall (entries : list (string * Store.word)) (m : Store.store)
         (aw : list (string * Store.word)) (at_ ets : list (string * value)),
    Store.preserved base m ->
    nth_error m (List.length base) = Some (Store.Obj aw) ->
    Store.traverse (Store.entry (Store.reify (S (List.length base)) fuel m)) aw
    = Some at_ ->
    Store.traverse (Store.entry (Store.reify 0 fuel base)) entries = Some ets ->
    exists m' aw',
      Store.for_entries (Store.sanitizeSchemaForGrok fuel) (List.length base)
        entries m
      = Some m'
      /\ Store.preserved base m'
      /\ nth_error m' (List.length base) = Some (Store.Obj aw')
      /\ Store.traverse
           (Store.entry (Store.reify (S (List.length base)) fuel m')) aw'
         = Some (fold_left step ets at_).
Proof.
  intros Hc. set (r := List.length base).
  induction entries as [|[k x] entries IH]; intros m aw at_ ets Hp Hr Ha He;
    simpl in *.
  - injection He as <-. exists m, aw. auto.
  - unfold Store.entry at 1 in He. simpl in He.
    destruct (Store.reify 0 fuel base x) as [tx|] eqn:Ex; [|discriminate].
    simpl in He.
    destruct (Store.traverse (Store.entry (Store.reify 0 fuel base)) entries)
      as [ets'|] eqn:Et; [|discriminate].
    injection He as <-. simpl. unfold step at 2. simpl.
    destruct (includes UNSUPPORTED_SCHEMA_PROPS k) eqn:Hb.
    + apply (IH m aw at_ ets' Hp Hr Ha eq_refl).
    + destruct (Hc m x tx (reify_preserved _ _ _ _ _ _ Hp Ex))
        as [y [m1 [Hs [Hp1 Hy]]]].
      rewrite Hs.
      assert (Hlt : r < List.length m).
      { apply nth_error_Some. congruence. }
      assert (Hr1 : nth_error m1 r = Some (Store.Obj aw)).
      { now rewrite (Hp1 r Hlt). }
      assert (Hlt1 : r < List.length m1).
      { apply nth_error_Some. congruence. }
      unfold assign. destruct (unassigned k) eqn:Hu.
      { replace (Store.assign r k y m1) with m1
          by (unfold Store.assign; now rewrite Hu).
        apply (IH m1 aw at_ ets').
        - eapply preserved_trans; eassumption.
        - exact Hr1.
        - apply (traverse_impl (Store.entry (Store.reify (S r) fuel m)));
            [|exact Ha].
          intros kv p _. apply entry_impl. intros t' Ht'.
          eapply reify_preserved; eassumption.
        - reflexivity. }
      set (m2 := Store.assign r k y m1).
      assert (Hm2 : m2 = Store.update r (Store.Obj (obj_set aw k y)) m1).
      { unfold m2, Store.assign. now rewrite Hu, Hr1. }
      assert (Hab : forall l, S r <= l -> nth_error m2 l = nth_error m1 l).
      { intros l Hl. rewrite Hm2. apply nth_error_update_other. lia. }
      apply (IH m2 (obj_set aw k y)
               (obj_set at_ k (sanitizeSchemaForGrok tx)) ets').
      * intros l Hl. rewrite Hm2, nth_error_update_other by (unfold r; lia).
        apply (preserved_trans _ _ _ Hp Hp1 l Hl).
      * rewrite Hm2. now apply nth_error_update_same.
      * apply traverse_obj_set.
        -- apply (traverse_impl (Store.entry (Store.reify (S r) fuel m)));
             [|exact Ha].
           intros kv p _. apply entry_impl. intros t' Ht'.
           rewrite (reify_above (S r) fuel m1 m2 (snd kv) Hab).
           eapply reify_preserved; eassumption.
        -- rewrite (reify_above (S r) fuel m1 m2 y Hab).
           eapply reify_floor; [|exact Hy]. lia.
      * reflexivity.
Qed.

(** The store sanitizer returns on every word that reads as a tree, with
    the fuel that reads it; it changes no cell of the store it is given;
    and what it returns reads, in new cells only, as the sanitized
    tree. *)
Lemma sanitize_copies (fuel : nat) : copies fuel.
Proof.
  induction fuel as [|fuel IH]; intros m w t Hr; simpl in Hr;
    [discriminate|].
  destruct w as [| | | | |l];
    try (injection Hr as <-; eexists; exists m; simpl;
         split; [reflexivity | split; [apply preserved_refl | reflexivity]]).
  simpl in Hr. destruct (nth_error m l) as [[items|entries]|] eqn:El;
    [| |discriminate].
  - destruct (Store.traverse (Store.reify 0 fuel m) items) as [ts|] eqn:Et;
      [|discriminate].
    injection Hr as <-.
    destruct (map_each_copies fuel m IH items m ts (preserved_refl m) Et)
      as [ys [m' [Hl [Hp Hys]]]].
    exists (Store.WRef (List.length m')), (m' ++ [Store.Arr ys])%list.
    simpl. rewrite El, Hl. simpl. split; [reflexivity | split].
    + eapply preserved_trans; [exact Hp | apply preserved_alloc].
    + pose proof (preserved_length _ _ Hp) as Hlen.
      destruct (Nat.ltb_spec (List.length m') (List.length m)); [lia|].
      rewrite nth_error_app2, Nat.sub_diag by lia. simpl.
      rewrite (traverse_impl (Store.reify (List.length m) fuel m')
                 (Store.reify (List.length m) fuel (m' ++ [Store.Arr ys])%list)
                 ys
                 (map sanitizeSchemaForGrok ts)); auto.
      intros x y _. apply reify_preserved, preserved_alloc.
  - destruct (Store.traverse (Store.entry (Store.reify 0 fuel m)) entries)
      as [ets|] eqn:Et; [|discriminate].
    injection Hr as <-.
    destruct (for_entries_copies fuel m IH entries (m ++ [Store.Obj []])%list
                [] [] ets)
      as [m' [aw' [Hl [Hp [Hr' Ha]]]]].
    + apply preserved_alloc.
    + now rewrite nth_error_app2, Nat.sub_diag by lia.
    + reflexivity.
    + exact Et.
    + exists (Store.WRef (List.length m)), m'.
      simpl. rewrite El. simpl. rewrite Hl.
      split; [reflexivity | split; [exact Hp|]].
      destruct (Nat.ltb_spec (List.length m) (List.length m)); [lia|].
      rewrite Hr'.
      rewrite (traverse_impl
                 (Store.entry (Store.reify (S (List.length m)) fuel m'))
                 (Store.entry (Store.reify (List.length m) fuel m')) aw'
                 (fold_left step ets [])); auto.
      intros kv p _. apply entry_impl. intros t' Ht'.
      eapply reify_floor; [|exact Ht']. lia.
Qed.

(** C2.  The claim fails on the code for a schema that gives a property
    the name [__proto__]: it holds no banned keyword, so that nothing is
    to be removed from it, and the sanitizer does not return it as it
    is: the property is gone from the [properties] of the result, while
    the property beside it is kept.  The loop assigns [result[key]] on
    an object made by [{}], and under that key the assignment makes no
    property. *)
Theorem sanitize_loses_proto_property :
  well_formed Mock.proto_schema = true
  /\ mentions_banned Mock.proto_schema = false
  /\ follow [Key "properties"; Key "__proto__"] Mock.proto_schema
     = Some (VObj [("type", VStr "string")])
  /\ follow [Key "properties"; Key "__proto__"]
       (sanitizeSchemaForGrok Mock.proto_schema)
     = None
  /\ follow [Key "properties"; Key "name"]
       (sanitizeSchemaForGrok Mock.proto_schema)
     = Some (VObj [("type", VStr "string")])
  /\ sanitizeSchemaForGrok Mock.proto_schema <> Mock.proto_schema.
Proof.
  split; [reflexivity|]. split; [reflexivity|]. split; [reflexivity|].
  split; [reflexivity|]. split; [reflexivity|].
  intros H. apply (f_equal (follow [Key "properties"; Key "__proto__"])) in H.
  vm_compute in H. discriminate.
Qed.

(** X21.  On every JSON-Schema-like tree (a finite tree of objects,
    arrays and scalars whose objects hold no key twice) in which no key
    is [__proto__], [sanitizeSchemaForGrok] returns the tree with every
    entry under a banned keyword removed at every depth, inside arrays
    too: no banned keyword is a key anywhere in
    the output; every position reached through kept keys and array indices
    holds the sanitized value of what the input holds there, and is absent
    when the input has none; an object keeps its other keys in their
    order and an array its length; a value that is not an object or an
    array comes back unchanged, as does a tree with nothing to remove; and
    sanitizing twice is sanitizing once.  Over a store, where objects
    and arrays are cells written in place: on every value that stands
    for the tree (an acyclic one, then) the function returns, leaves
    every cell of the store as it was, so that the input is not mutated,
    and returns a value that stands for the sanitized tree in cells
    made by the call alone, a deep copy. *)
Theorem sanitize_contract (schema : value) :
  well_formed schema = true ->
  ordinary schema = true ->
  sanitizeSchemaForGrok schema = strip_banned_keys schema
  /\ mentions_banned (sanitizeSchemaForGrok schema) = false
  /\ (forall path,
        forallb kept path = true ->
        follow path (sanitizeSchemaForGrok schema)
        = option_map sanitizeSchemaForGrok (follow path schema))
  /\ (forall entries,
        schema = VObj entries ->
        exists entries',
          sanitizeSchemaForGrok schema = VObj entries'
          /\ keys entries'
             = filter (fun k => negb (includes UNSUPPORTED_SCHEMA_PROPS k))
                 (keys entries))
  /\ (forall items,
        schema = VArr items ->
        exists items',
          sanitizeSchemaForGrok schema = VArr items'
          /\ List.length items' = List.length items)
  /\ (is_scalar schema = true -> sanitizeSchemaForGrok schema = schema)
  /\ (mentions_banned schema = false -> sanitizeSchemaForGrok schema = schema)
  /\ sanitizeSchemaForGrok (sanitizeSchemaForGrok schema)
     = sanitizeSchemaForGrok schema
  /\ (forall fuel m w,
        Store.reify 0 fuel m w = Some schema ->
        exists w' m',
          Store.sanitizeSchemaForGrok fuel w m = Some (w', m')
          /\ Store.preserved m m'
          /\ Store.reify (List.length m) fuel m' w'
             = Some (sanitizeSchemaForGrok schema)).
Proof.
  intros Hwf Ho. pose proof (sanitize_refines_strip schema Hwf Ho) as Heq.
  split; [exact Heq|].
  repeat match goal with |- _ /\ _ => split end;
    [..|intros fuel m w Hr; exact (sanitize_copies fuel m w schema Hr)];
    rewrite Heq.
  - apply strip_no_banned.
  - intros path Hp. rewrite follow_strip by assumption.
    destruct (follow path schema) as [w|] eqn:Hf; simpl; [|reflexivity].
    f_equal. symmetry. apply sanitize_refines_strip.
    + eapply follow_well_formed; eassumption.
    + eapply follow_ordinary; eassumption.
  - intros entries ->. eexists. split; [reflexivity|].
    apply keys_strip_entries.
  - intros items ->. eexists. split; [reflexivity|]. apply length_map.
  - destruct schema; simpl; congruence.
  - apply strip_clean.
  - rewrite sanitize_refines_strip
      by (now apply strip_well_formed || now apply strip_ordinary).
    apply strip_idempotent.
Qed.

(** ** Text extraction *)


Lemma get_string_is_object (part : value) (k s : string) :
  get part k = VStr s -> exists o, part = VObj o.
Proof. destruct part; simpl; try discriminate. eauto. Qed.

Lemma part_text_carries (part : value) (s : string) :
  part_text part = Some s <-> carries part s.
Proof.
  split.
  - unfold part_text. destruct (truthy part) eqn:Ht; simpl; [|discriminate].
    destruct part as [| | b | x | s0 | items | o]; simpl in *;
      try discriminate.
    + intros [= <-]. apply carries_itself; [reflexivity|].
      intros ->. discriminate.
    + destruct (obj_get o "text") eqn:E1;
        try (intros [= <-]; now apply carries_text);
        (destruct (obj_get o "output_text") eqn:E2;
         try (intros [= <-]; apply carries_output_text; simpl;
              [now rewrite E1 | assumption]);
         (destruct (obj_get o "data") eqn:E3; try discriminate;
          intros [= <-]; apply carries_data; simpl;
          [now rewrite E1 | now rewrite E2 | assumption])).
  - intros [-> Hne | H1 | H0 H1 | H0 H0' H1].
    + unfold part_text. simpl.
      destruct (String.eqb_spec s ""); [contradiction | reflexivity].
    + destruct (get_string_is_object _ _ _ H1) as [o ->].
      unfold part_text. simpl in *. now rewrite H1.
    + destruct (get_string_is_object _ _ _ H1) as [o ->].
      unfold part_text. simpl in *. rewrite H1.
      now destruct (obj_get o "text").
    + destruct (get_string_is_object _ _ _ H1) as [o ->].
      unfold part_text. simpl in *. rewrite H1.
      destruct (obj_get o "text"); try discriminate;
        now destruct (obj_get o "output_text").
Qed.

Lemma part_text_silent (part : value) :
  part_text part = None <-> silent part.
Proof.
  unfold silent. split.
  - intros H s Hc. apply part_text_carries in Hc. congruence.
  - intros H. destruct (part_text part) as [s|] eqn:E; [|reflexivity].
    exfalso. apply (H s). now apply part_text_carries.
Qed.

Lemma scan_parts_first (before after : list value) (part : value) (s : string) :
  Forall silent before -> carries part s ->
  scan_parts (before ++ part :: after)%list = Some s.
Proof.
  intros Hb Hc. induction Hb as [|x l Hx _ IH]; simpl.
  - apply part_text_carries in Hc. now rewrite Hc.
  - apply part_text_silent in Hx. now rewrite Hx.
Qed.

Lemma scan_parts_none (parts : list value) :
  Forall silent parts -> scan_parts parts = None.
Proof.
  induction 1 as [|x l Hx _ IH]; simpl; [reflexivity|].
  apply part_text_silent in Hx. now rewrite Hx.
Qed.

(** C6, as amended.  For every choice: a falsy choice gives the empty
    string.  Otherwise, with [message] the choice's [message], or its
    [delta] when that is null or undefined, or an empty object:
    a string [content] is returned as it is; in a [content] list the
    first part that offers a string wins (a part offers itself when it is
    a string that is not empty, or else the first string among its
    [text], [output_text] and [data]; falsy parts, the empty string among
    them, offer nothing), whatever follows it; when [content] is neither,
    or a list in which no part offers anything, a string [text] of the
    message is returned, and the empty string when there is none. *)
Theorem extractText_strategies (choice : value) :
  let message :=
    coalesce (get choice "message")
      (coalesce (get choice "delta") (VObj [])) in
  let content := get message "content" in
  (truthy choice = false -> extractTextFromChoice choice = "")
  /\ (truthy choice = true ->
      (forall s, content = VStr s -> extractTextFromChoice choice = s)
      /\ (forall before part after s,
            content = VArr (before ++ part :: after)%list ->
            Forall silent before ->
            carries part s ->
            extractTextFromChoice choice = s)
      /\ (is_string content = false ->
          (forall parts, content = VArr parts -> Forall silent parts) ->
          (forall t, get message "text" = VStr t ->
                     extractTextFromChoice choice = t)
          /\ (is_string (get message "text") = false ->
              extractTextFromChoice choice = "")))
  /\ extractTextFromChoice
       (VObj [("message", VObj [("content", VStr "hello")])]) = "hello"
  /\ extractTextFromChoice
       (VObj
          [("message",
            VObj
              [("content",
                VArr [VObj [("type", VStr "x")]; VObj [("text", VStr "hi")]])])])
     = "hi"
  /\ extractTextFromChoice (VObj [("message", VObj [("content", VArr [])])])
     = "".
Proof.
  intros message content. split; [|split].
  - intros Ht. unfold extractTextFromChoice. now rewrite Ht.
  - intros Ht. unfold extractTextFromChoice. rewrite Ht. simpl negb. cbv iota.
    fold message. fold content.
    split; [|split; [|intros Hns Hsil; split]].
    + intros s ->. reflexivity.
    + intros before part after s -> Hb Hc.
      now rewrite (scan_parts_first before after part s Hb Hc).
    + intros t Htext. destruct content eqn:Ec; try discriminate;
        try (now rewrite Htext).
      rewrite (scan_parts_none items (Hsil items eq_refl)). now rewrite Htext.
    + intros Htext. destruct content eqn:Ec; try discriminate;
        try (now destruct (get message "text"); try discriminate).
      rewrite (scan_parts_none items (Hsil items eq_refl)).
      now destruct (get message "text"); try discriminate.
  - repeat split.
Qed.

(** The claim C6 as it was stated fails: in [{message: {content: ["",
    "x"]}}] the first part that is itself a string is the empty string,
    and the loop skips it (it is falsy) and returns the next part. *)
Lemma extractText_skips_empty_string_part :
  extractTextFromChoice
    (VObj [("message", VObj [("content", VArr [VStr ""; VStr "x"])])])
  = "x"
  /\ extractTextFromChoice
       (VObj [("message", VObj [("content", VArr [VStr ""; VStr "x"])])])
     <> "".
Proof. split; [reflexivity | discriminate]. Qed.

(** ** Usage accounting *)

(** Without usage data the result depends on the latency alone. *)
Lemma normalizeUsage_absent (raw latencyMs : value) :
  truthy raw = false ->
  normalizeUsage raw latencyMs
  = if truthy latencyMs then VObj [("latencyMs", latencyMs)] else VUndef.
Proof. intros H. unfold normalizeUsage. now rewrite H. Qed.

(** With usage data: the token counts are the first variant that is not
    null or undefined, in the order snake_case prompt/completion, their
    camelCase forms, snake_case input/output, their camelCase forms; an
    explicit total is taken as it is, a missing one is the sum of two
    numeric counts; the latency is attached whatever it is. *)
Lemma normalizeUsage_present (raw latencyMs : value) :
  truthy raw = true ->
  let promptTokens :=
    coalesce (get raw "prompt_tokens")
      (coalesce (get raw "promptTokens")
         (coalesce (get raw "input_tokens") (get raw "inputTokens"))) in
  let completionTokens :=
    coalesce (get raw "completion_tokens")
      (coalesce (get raw "completionTokens")
         (coalesce (get raw "output_tokens") (get raw "outputTokens"))) in
  let explicit := coalesce (get raw "total_tokens") (get raw "totalTokens") in
  let result := normalizeUsage raw latencyMs in
  get result "promptTokens" = promptTokens
  /\ get result "completionTokens" = completionTokens
  /\ get result "latencyMs" = latencyMs
  /\ (nullish explicit = false -> get result "totalTokens" = explicit)
  /\ (nullish explicit = true ->
      forall p c, promptTokens = VNum p -> completionTokens = VNum c ->
                  get result "totalTokens" = VNum (p + c))
  /\ (nullish explicit = true ->
      is_number promptTokens && is_number completionTokens = false ->
      get result "totalTokens" = VUndef).
Proof.
  intros H. unfold normalizeUsage. rewrite H. cbn [negb]. cbv zeta.
  set (p := coalesce (get raw "prompt_tokens") _).
  set (c := coalesce (get raw "completion_tokens") _).
  set (t1 := get raw "total_tokens"). set (t2 := get raw "totalTokens").
  cbn [get obj_get String.eqb Ascii.eqb Bool.eqb].
  unfold coalesce.
  destruct (nullish t1) eqn:E1; [destruct (nullish t2) eqn:E2|];
    repeat split; try congruence; try reflexivity.
  - intros _ q r -> ->. reflexivity.
  - intros _ Hnum. now rewrite Hnum.
Qed.

Lemma normalizeUsage_examples :
  let u :=
    normalizeUsage
      (VObj [("prompt_tokens", VNum 10); ("completion_tokens", VNum 5)])
      (VNum 42) in
  let u' :=
    normalizeUsage
      (VObj
         [ ("total_tokens", VNum 99); ("prompt_tokens", VNum 10);
           ("completion_tokens", VNum 5) ])
      (VNum 42) in
  get u "totalTokens" = VNum 15 /\ get u "latencyMs" = VNum 42
  /\ get u' "totalTokens" = VNum 99.
Proof. repeat split. Qed.

(** C5.  The claim fails on the code where no usage data came back and
    the measured latency is zero: the latency was supplied, and the result
    is [undefined] instead of a record that carries it.  With usage data
    the same latency is attached. *)
Theorem normalizeUsage_drops_zero_latency :
  normalizeUsage VUndef (VNum 0) = VUndef
  /\ get (normalizeUsage (VObj []) (VNum 0)) "latencyMs" = VNum 0.
Proof. split; reflexivity. Qed.

(** ** The payload *)


Lemma buildPayload_shape (params : Params.t zod) :
  match buildPayload params with
  | Return payload =>
      exists format,
        payload
        = VObj
            ([ ("model", coalesce (Params.model params) (VStr DEFAULT_MODEL));
               ("messages", user_message (Params.prompt params)) ]
             ++ sampling_fields params ++ format)%list
        /\ match Params.zodSchema params with
           | None => format = []
           | Some _ => exists block, format = [("response_format", block)]
           end
  | Throw _ =>
      exists descriptor e,
        Params.zodSchema params = Some descriptor
        /\ z_toJSONSchema descriptor = Throw e
  end.
Proof.
  unfold buildPayload, sampling_fields, optional, user_message.
  destruct (is_number (Params.temperature params));
    destruct (is_number (Params.topP params));
    destruct (is_number (Params.maxOutputTokens params));
    (destruct (Params.zodSchema params) as [d|];
     [destruct (z_toJSONSchema d) as [doc|e] eqn:Ed|]);
    cbn; eauto.
Qed.

(** C3.  For every call, the payload that [buildPayload] returns holds
    the model (the given one, or the default), the single user message
    with the prompt, one field for each sampling control that is a
    number, under its wire name and with the value given, and the
    structured-output block when a schema descriptor is given, in this
    order and nothing else; [buildPayload] returns whenever no descriptor
    is given.  So a sampling field is in the payload exactly when the
    control is a number; [build({prompt: "hi"})] is exactly the default
    model and the message; and [build({prompt: "hi", topP: 0.9})] adds
    [top_p] at 0.9 and no other sampling field. *)
Theorem buildPayload_sparse (params : Params.t zod) :
  match buildPayload params with
  | Return payload =>
      (exists format,
         payload
         = VObj
             ([ ("model", coalesce (Params.model params) (VStr DEFAULT_MODEL));
                ("messages", user_message (Params.prompt params)) ]
              ++ sampling_fields params ++ format)%list
         /\ match Params.zodSchema params with
            | None => format = []
            | Some _ => exists block, format = [("response_format", block)]
            end)
      /\ has payload "temperature" = is_number (Params.temperature params)
      /\ has payload "top_p" = is_number (Params.topP params)
      /\ has payload "max_output_tokens"
         = is_number (Params.maxOutputTokens params)
      /\ (is_number (Params.temperature params) = true ->
          get payload "temperature" = Params.temperature params)
      /\ (is_number (Params.topP params) = true ->
          get payload "top_p" = Params.topP params)
      /\ (is_number (Params.maxOutputTokens params) = true ->
          get payload "max_output_tokens" = Params.maxOutputTokens params)
  | Throw _ => Params.zodSchema params <> None
  end
  /\ (Params.zodSchema params = None ->
      exists payload, buildPayload params = Return payload)
  /\ buildPayload (just_prompt "hi")
     = Return
         (VObj [("model", VStr DEFAULT_MODEL); ("messages", user_message "hi")])
  /\ buildPayload (with_topP "hi" (VNum nine_tenths))
     = Return
         (VObj
            [ ("model", VStr DEFAULT_MODEL); ("messages", user_message "hi");
              ("top_p", VNum nine_tenths) ]).
Proof.
  split; [|split; [|split; reflexivity]].
  - pose proof (buildPayload_shape params) as Hs.
    destruct (buildPayload params) as [payload|e].
    + destruct Hs as [format [-> Hf]]. split; [eauto|].
      assert (Hfmt : format = []
                     \/ exists b, format = [("response_format", b)]).
      { destruct (Params.zodSchema params); auto. }
      clear Hf. unfold sampling_fields, optional.
      destruct (is_number (Params.temperature params));
        destruct (is_number (Params.topP params));
        destruct (is_number (Params.maxOutputTokens params));
        destruct Hfmt as [->|[b ->]]; cbn; repeat split; congruence.
    + destruct Hs as [d [e' [-> _]]]. discriminate.
  - intros Hz. unfold buildPayload. rewrite Hz. eauto.
Qed.

(** ** Schema names and the structured-output block *)

Lemma all_white_trimStart (s : string) :
  all_white (trimStart s) = all_white s.
Proof.
  induction s as [|c s IH]; simpl; [reflexivity|].
  destruct (is_white c) eqn:Hc; simpl; [exact IH | now rewrite Hc].
Qed.

Lemma trimEnd_empty (s : string) :
  trimEnd s = "" <-> all_white s = true.
Proof.
  induction s as [|c s IH]; simpl; [tauto|].
  destruct (trimEnd s) as [|c' t].
  - destruct (is_white c); simpl.
    + split; intros _; [now apply IH | reflexivity].
    + split; discriminate.
  - split; [discriminate|]. intros H. apply andb_true_iff in H as [_ H].
    apply IH in H. discriminate.
Qed.

Lemma trim_empty (s : string) : trim s = "" <-> all_white s = true.
Proof. unfold trim. now rewrite trimEnd_empty, all_white_trimStart. Qed.

(** [trim] removes white space at both ends and nothing else. *)
Lemma trimStart_decompose (s : string) :
  exists l, s = l ++ trimStart s /\ all_white l = true.
Proof.
  induction s as [|c s [l [Hl Hw]]]; simpl.
  - now exists "".
  - destruct (is_white c) eqn:Hc.
    + exists (String c l). simpl. rewrite Hc, Hw. now rewrite <- Hl.
    + now exists "".
Qed.

Lemma trimEnd_decompose (s : string) :
  exists r, s = trimEnd s ++ r /\ all_white r = true.
Proof.
  induction s as [|c s [r [Hr Hw]]]; simpl.
  - now exists "".
  - destruct (trimEnd s) as [|c' t] eqn:Et.
    + simpl in Hr. subst r. destruct (is_white c) eqn:Hc.
      * exists (String c s). simpl. now rewrite Hc, Hw.
      * exists s. now split.
    + exists r. simpl in *. now rewrite <- Hr.
Qed.

Lemma trim_decompose (s : string) :
  exists l r, s = l ++ trim s ++ r /\ all_white l = true /\ all_white r = true.
Proof.
  destruct (trimStart_decompose s) as [l [Hl Hwl]].
  destruct (trimEnd_decompose (trimStart s)) as [r [Hr Hwr]].
  exists l, r. unfold trim. now rewrite <- Hr, <- Hl.
Qed.

Lemma ensureSchemaName_default (s : string) :
  all_white s = true -> ensureSchemaName (Some s) = "ResponseSchema".
Proof.
  intros H. unfold ensureSchemaName. apply trim_empty in H. rewrite H.
  simpl. now rewrite andb_false_r.
Qed.

Lemma ensureSchemaName_trimmed (s : string) :
  all_white s = false -> ensureSchemaName (Some s) = trim s.
Proof.
  intros H. unfold ensureSchemaName.
  destruct (String.eqb_spec s "") as [->|_]; [discriminate|].
  destruct (trim s) as [|c t] eqn:Et; [|reflexivity].
  apply trim_empty in Et. congruence.
Qed.

Lemma wire_buildAbortController (timeoutMs : option float) (h : host) :
  wire (snd (buildAbortController timeoutMs h)) = wire h.
Proof.
  unfold buildAbortController. destruct timeoutMs as [ms|]; [|reflexivity].
  now destruct (_ || _).
Qed.

Lemma wire_run_clear (a : AbortHandle) (h : host) :
  wire (run_clear a h) = wire h.
Proof. unfold run_clear. now destruct (clear a). Qed.

(** A call whose payload cannot be built fails with the error of
    [buildPayload], and nothing goes out on the network. *)
Lemma generate_payload_failure (apiKey baseUrl : string)
    (params : Params.t zod) (h : host) (e : thrown) :
  buildPayload params = Throw e ->
  instanceof_Error e = true ->
  (forall n m, e <> DOMException n m) ->
  fst (generate apiKey baseUrl params h) = Throw e
  /\ wire (snd (generate apiKey baseUrl params h)) = wire h.
Proof.
  intros Hb He Hd. unfold generate.
  pose proof (wire_buildAbortController (Params.timeoutMs params) h) as Hw.
  destruct (buildAbortController (Params.timeoutMs params) h) as [handle h1].
  simpl in Hw. unfold read_clock, try_block. rewrite Hb. simpl. split.
  - destruct e; try reflexivity. exfalso. eapply Hd. reflexivity.
  - now rewrite wire_run_clear.
Qed.

(** C4.  For every call that gives a schema descriptor: when the
    conversion returns a JSON-Schema document, [buildPayload] returns a
    payload whose [response_format] is [{type: "json_schema",
    json_schema: {name, schema}}] with the sanitized document as [schema]
    and the resolved name as [name]; when the conversion throws,
    [buildPayload] throws the conversion-failure error (an [Error] whose
    message starts with [Failed to convert schema], the spec's
    ValidationError), no payload is produced, and [generate] fails with
    that error before anything is sent.  The name is the default
    [ResponseSchema] when [schemaName] is absent, empty or white space
    only, and the trimmed [schemaName] otherwise. *)
Theorem buildPayload_structured (params : Params.t zod) (descriptor : zod) :
  Params.zodSchema params = Some descriptor ->
  (forall doc,
     z_toJSONSchema descriptor = Return doc ->
     exists payload,
       buildPayload params = Return payload
       /\ get payload "response_format"
          = VObj
              [ ("type", VStr "json_schema");
                ("json_schema",
                 VObj
                   [ ("name",
                      VStr (ensureSchemaName (Params.schemaName params)));
                     ("schema", sanitizeSchemaForGrok doc) ]) ])
  /\ (forall e,
        z_toJSONSchema descriptor = Throw e ->
        exists message,
          buildPayload params = Throw (JsError message)
          /\ message
             = (if instanceof_Error e
                then "Failed to convert schema: " ++ error_message e
                else "Failed to convert schema")
          /\ String.prefix "Failed to convert schema" message = true
          /\ forall apiKey baseUrl h,
               fst (generate apiKey baseUrl params h) = Throw (JsError message)
               /\ wire (snd (generate apiKey baseUrl params h)) = wire h)
  /\ ensureSchemaName None = "ResponseSchema"
  /\ (forall s, all_white s = true ->
                ensureSchemaName (Some s) = "ResponseSchema")
  /\ (forall s, all_white s = false -> ensureSchemaName (Some s) = trim s)
  /\ ensureSchemaName (Some " Foo ") = "Foo"
  /\ ensureSchemaName (Some "   ") = "ResponseSchema"
  /\ ensureSchemaName (Some "") = "ResponseSchema".
Proof.
  intros Hz. split; [|split].
  - intros doc Hdoc. unfold buildPayload. rewrite Hz, Hdoc.
    eexists. split; [reflexivity|].
    destruct (is_number (Params.temperature params));
      destruct (is_number (Params.topP params));
      destruct (is_number (Params.maxOutputTokens params)); reflexivity.
  - intros e He.
    assert (Hb : buildPayload params
                 = Throw (JsError
                            (if instanceof_Error e
                             then "Failed to convert schema: "
                                  ++ error_message e
                             else "Failed to convert schema"))).
    { unfold buildPayload. now rewrite Hz, He. }
    eexists. split; [exact Hb|]. split; [reflexivity|]. split.
    + now destruct (instanceof_Error e).
    + intros apiKey baseUrl h.
      apply generate_payload_failure; [exact Hb | reflexivity | discriminate].
  - repeat split.
    + apply ensureSchemaName_default.
    + apply ensureSchemaName_trimmed.
Qed.

(** ** Calls that get a response *)


Lemma clock_buildAbortController (timeoutMs : option float) (h : host) :
  clock (snd (buildAbortController timeoutMs h)) = clock h.
Proof.
  unfold buildAbortController. destruct timeoutMs as [ms|]; [|reflexivity].
  now destruct (_ || _).
Qed.

(** A conversion to a string throws nothing but the [TypeError]. *)
Lemma ToString_throws (v : value) (e : thrown) :
  ToString v = Throw e ->
  e = JsError "Cannot convert object to primitive value".
Proof.
  induction v as [| | |x|s|items IH|entries IH] using value_ind;
    try discriminate.
  - cbn [ToString].
    induction IH as [|x l Hx _ IHl]; [discriminate|].
    cbn [join_elements].
    destruct (nullish x).
    + destruct l as [|y l']; [discriminate|].
      destruct (join_elements ToString (y :: l')) as [t|e'] eqn:Ej;
        [discriminate|].
      intros [= <-]. now apply IHl.
    + destruct (ToString x) as [sx|ex] eqn:Ex.
      * destruct l as [|y l']; [discriminate|].
        destruct (join_elements ToString (y :: l')) as [t|e'] eqn:Ej;
          [discriminate|].
        intros [= <-]. now apply IHl.
      * intros [= <-]. now apply Hx.
  - cbn [ToString]. destruct (obj_has entries "toString"); [|discriminate].
    now intros [= <-].
Qed.

(** What is thrown for a failure status is an [Error], never a
    [DOMException]. *)
Lemma upstream_error_is_Error (parsed : value) (response : Response) :
  exists m, upstream_error parsed response = JsError m.
Proof.
  unfold upstream_error, code_text.
  destruct (truthy (upstream_code parsed)).
  - destruct (ToString (upstream_code parsed)) as [c|e] eqn:Ec.
    + destruct (ToString (upstream_message parsed response)) as [m|e] eqn:Em;
        [eauto|].
      rewrite (ToString_throws _ _ Em). eauto.
    + rewrite (ToString_throws _ _ Ec). eauto.
  - destruct (ToString (upstream_message parsed response)) as [m|e] eqn:Em;
      [eauto|].
    rewrite (ToString_throws _ _ Em). eauto.
Qed.

Lemma catch_clause_settle (payload : value) (response : Response)
    (responseText : string) (t0 t1 : float) :
  match settle payload response responseText t0 t1 with
  | Return r => Return r
  | Throw e => Throw (catch_clause e)
  end
  = settle payload response responseText t0 t1.
Proof.
  unfold settle. destruct (parse_body responseText) as [parsed|];
    [|reflexivity].
  destruct (ok response).
  - now destruct (String.eqb _ "").
  - destruct (upstream_error_is_Error parsed response) as [m ->].
    reflexivity.
Qed.

Lemma generate_received (apiKey baseUrl : string) (params : Params.t zod)
    (h : host) (payload : value) (response : Response)
    (responseText : string) :
  buildPayload params = Return payload ->
  reply
    (fetch
       (build_request apiKey baseUrl payload
          (fst (buildAbortController (Params.timeoutMs params) h)))
       (pending (snd (buildAbortController (Params.timeoutMs params) h))))
  = Return response ->
  text response = Return responseText ->
  fst (generate apiKey baseUrl params h)
  = settle payload response responseText
      (Date_now (clock h)) (Date_now (S (clock h))).
Proof.
  intros Hb Hf Ht. rewrite <- catch_clause_settle. unfold generate.
  pose proof (clock_buildAbortController (Params.timeoutMs params) h) as Hc.
  destruct (buildAbortController (Params.timeoutMs params) h) as [handle h1].
  simpl in Hf, Hc. unfold read_clock, try_block. rewrite Hb. cbv zeta.
  cbn [pending]. rewrite Hf, Ht. unfold settle.
  destruct (parse_body responseText) as [parsed|]; [|reflexivity].
  destruct (ok response); [|reflexivity].
  cbn [negb read_clock clock fire send]. rewrite Hc. cbn [truthy].
  rewrite Bool.negb_involutive.
  now destruct (String.eqb (extractTextFromChoice (first_choice parsed)) "").
Qed.

Lemma buildPayload_model (params : Params.t zod) (payload : value) :
  buildPayload params = Return payload ->
  get payload "model" = coalesce (Params.model params) (VStr DEFAULT_MODEL).
Proof.
  intros Hb. pose proof (buildPayload_shape params) as Hs.
  rewrite Hb in Hs. destruct Hs as [format [-> _]]. reflexivity.
Qed.

(** C1.  For every call whose request gets a success-status response with
    a body that parses, with an array of choices from whose first entry a
    text that is not empty can be extracted, [generate] returns a result
    whose content is that text, whose provider is the adapter's name
    [grok], whose model is the model the response reports, or when it
    reports none (null or undefined) the model of the payload (the one
    given, or the default), whose raw response is the parsed body, and
    whose usage is the normalized usage of the body with the measured
    latency. *)
Theorem generate_success (apiKey baseUrl : string) (params : Params.t zod)
    (h : host) (payload : value) (response : Response)
    (responseText : string) (parsed : value) :
  buildPayload params = Return payload ->
  reply
    (fetch
       (build_request apiKey baseUrl payload
          (fst (buildAbortController (Params.timeoutMs params) h)))
       (pending (snd (buildAbortController (Params.timeoutMs params) h))))
  = Return response ->
  ok response = true ->
  text response = Return responseText ->
  responseText <> "" ->
  JSON_parse responseText = Some parsed ->
  Array_isArray (opt_get parsed "choices") = true ->
  extractTextFromChoice (index (get parsed "choices") 0) <> "" ->
  fst (generate apiKey baseUrl params h)
  = Return
      {| Result.content :=
           extractTextFromChoice (index (get parsed "choices") 0);
         Result.rawResponse := parsed;
         Result.provider := "grok";
         Result.model :=
           coalesce (opt_get parsed "model")
             (coalesce (Params.model params) (VStr DEFAULT_MODEL));
         Result.usage :=
           normalizeUsage (opt_get parsed "usage")
             (VNum (Date_now (S (clock h)) - Date_now (clock h))) |}.
Proof.
  intros Hb Hf Hok Ht Hne Hp Hc Hx.
  rewrite (generate_received _ _ _ _ _ _ _ Hb Hf Ht).
  rewrite <- (buildPayload_model _ _ Hb).
  unfold settle, parse_body, first_choice.
  destruct (String.eqb_spec responseText ""); [contradiction|].
  rewrite Hp, Hok, Hc.
  destruct (String.eqb_spec
              (extractTextFromChoice (index (get parsed "choices") 0)) "");
    [contradiction | reflexivity].
Qed.

(** ** Responses whose status is not a success *)







(** ** Empty bodies and bodies that do not parse *)

Lemma parse_body_empty : parse_body "" = Some VUndef.
Proof. reflexivity. Qed.

Lemma code_text_throws (code : value) (e : thrown) :
  code_text code = Throw e ->
  e = JsError "Cannot convert object to primitive value".
Proof.
  unfold code_text. destruct (truthy code); [|discriminate].
  destruct (ToString code) as [c|e'] eqn:Ec; [discriminate|].
  intros [= <-]. exact (ToString_throws _ _ Ec).
Qed.

(** What is thrown for a failure status is not the error of a body that
    does not parse. *)
Lemma upstream_error_other (parsed : value) (response : Response) :
  upstream_error parsed response
  <> JsError "Grok API returned a non-JSON response.".
Proof.
  unfold upstream_error.
  destruct (code_text (upstream_code parsed)) as [c|e] eqn:Ec.
  - destruct (ToString (upstream_message parsed response)) as [m|e] eqn:Em.
    + cbn [append]. discriminate.
    + rewrite (ToString_throws _ _ Em). discriminate.
  - rewrite (code_text_throws _ _ Ec). discriminate.
Qed.

(** C10.  For every call whose request gets a response with a readable
    body: when the status is a success and the body is the empty string,
    [JSON.parse] is not consulted (whatever it would do) and the call
    rejects with the empty-response error, message [Grok API returned an
    empty response.]; the same error is raised for every success
    response that parses and from which no text can be extracted; and the
    non-JSON error, message [Grok API returned a non-JSON response.], is
    raised exactly when the body is not empty and [JSON.parse] throws on
    it, whatever the status. *)
Theorem generate_empty_body (apiKey baseUrl : string)
    (params : Params.t zod) (h : host) (payload : value)
    (response : Response) (responseText : string) :
  buildPayload params = Return payload ->
  reply
    (fetch
       (build_request apiKey baseUrl payload
          (fst (buildAbortController (Params.timeoutMs params) h)))
       (pending (snd (buildAbortController (Params.timeoutMs params) h))))
  = Return response ->
  text response = Return responseText ->
  let result := fst (generate apiKey baseUrl params h) in
  (ok response = true -> responseText = "" ->
   result = Throw (JsError "Grok API returned an empty response."))
  /\ (forall parsed,
        ok response = true -> parse_body responseText = Some parsed ->
        extractTextFromChoice (first_choice parsed) = "" ->
        result = Throw (JsError "Grok API returned an empty response."))
  /\ (result = Throw (JsError "Grok API returned a non-JSON response.")
      <-> responseText <> "" /\ JSON_parse responseText = None).
Proof.
  intros Hb Hf Ht result. subst result.
  rewrite (generate_received _ _ _ _ _ _ _ Hb Hf Ht). unfold settle.
  split; [|split].
  - intros Hok ->. rewrite parse_body_empty, Hok. reflexivity.
  - intros parsed Hok Hp Hx. now rewrite Hp, Hok, Hx.
  - unfold parse_body.
    destruct (String.eqb_spec responseText "") as [->|Hne].
    + split.
      * destruct (ok response); [simpl; discriminate|].
        intros [= H]. now destruct (upstream_error_other VUndef response).
      * intros [Hc _]. contradiction.
    + destruct (JSON_parse responseText) as [parsed|].
      * split.
        -- destruct (ok response).
           ++ destruct (String.eqb _ ""); discriminate.
           ++ intros [= H].
              now destruct (upstream_error_other parsed response).
        -- intros [_ Hc]. discriminate.
      * split; [now split | reflexivity].
Qed.

(** ** Deadlines *)

(** The guard of [buildAbortController] lets exactly the positive numbers
    through: zero, the negative numbers and NaN are turned away. *)
Lemma deadline_guard_positive (ms : float) :
  (0 <? ms)%float = true ->
  negb (truthy (VNum ms)) || (ms <=? 0)%float = false.
Proof.
  simpl. rewrite Bool.negb_involutive.
  rewrite FloatAxioms.ltb_spec, FloatAxioms.leb_spec, !FloatAxioms.eqb_spec.
  replace (FloatOps.Prim2SF 0) with (SpecFloat.S754_zero false) by reflexivity.
  destruct (FloatOps.Prim2SF ms) as [s|s| |s m e]; try destruct s; cbn;
    try discriminate; intros _; try reflexivity.
  unfold SpecFloat.SFeqb, SpecFloat.SFcompare.
  now rewrite BinInt.Z.compare_refl, BinPos.Pos.compare_refl.
Qed.

Lemma deadline_guard_other (ms : float) :
  (0 <? ms)%float = false ->
  negb (truthy (VNum ms)) || (ms <=? 0)%float = true.
Proof.
  simpl. rewrite Bool.negb_involutive.
  rewrite FloatAxioms.ltb_spec, FloatAxioms.leb_spec, !FloatAxioms.eqb_spec.
  replace (FloatOps.Prim2SF 0) with (SpecFloat.S754_zero false) by reflexivity.
  destruct (FloatOps.Prim2SF ms) as [s|s| |s m e]; try destruct s; cbn;
    try discriminate; intros _; rewrite ?Bool.orb_true_r; reflexivity.
Qed.


Lemma buildAbortController_armed (ms : float) (h : host) :
  (0 <? ms)%float = true -> AbortController_defined = true ->
  buildAbortController (Some ms) h
  = ({| controller := Some (fresh h); clear := Some (S (fresh h)) |},
     {| pending :=
          (pending h
           ++ [{| timer_id := S (fresh h); timer_delay := ms;
                  timer_aborts := fresh h |}])%list;
        fresh := S (S (fresh h)); clock := clock h; wire := wire h |}).
Proof.
  intros Hpos Hdef. unfold buildAbortController.
  rewrite (deadline_guard_positive ms Hpos), Hdef. reflexivity.
Qed.

Lemma buildAbortController_idle (timeoutMs : option float) (h : host) :
  timeoutMs = None
  \/ (exists ms, timeoutMs = Some ms /\ (0 <? ms)%float = false)
  \/ AbortController_defined = false ->
  buildAbortController timeoutMs h = (no_deadline, h).
Proof.
  unfold buildAbortController.
  intros [-> | [[ms [-> Hms]] | Hdef]]; [reflexivity | |].
  - now rewrite (deadline_guard_other ms Hms).
  - destruct timeoutMs as [ms|]; [|reflexivity].
    rewrite Hdef. simpl negb. now rewrite Bool.orb_true_r.
Qed.

(** The handle either holds nothing, or holds the timer that was added
    last. *)
Lemma buildAbortController_cases (timeoutMs : option float) (h : host) :
  buildAbortController timeoutMs h = (no_deadline, h)
  \/ exists ms,
       timeoutMs = Some ms
       /\ buildAbortController timeoutMs h
          = ({| controller := Some (fresh h); clear := Some (S (fresh h)) |},
             {| pending :=
                  (pending h
                   ++ [{| timer_id := S (fresh h); timer_delay := ms;
                          timer_aborts := fresh h |}])%list;
                fresh := S (S (fresh h)); clock := clock h;
                wire := wire h |}).
Proof.
  unfold buildAbortController. destruct timeoutMs as [ms|]; [|now left].
  destruct (_ || _); [now left | right; eauto].
Qed.

(** The [try] block adds no timer. *)
Lemma pending_try_block (apiKey baseUrl : string) (params : Params.t zod)
    (handle : AbortHandle) (t0 : float) (h : host) (t : timer) :
  In t (pending (snd (try_block apiKey baseUrl params handle t0 h))) ->
  In t (pending h).
Proof.
  unfold try_block.
  destruct (buildPayload params) as [payload|e]; [|trivial].
  cbv zeta.
  assert (Hfire : forall ids r,
            In t (pending (fire ids (send r h))) -> In t (pending h)).
  { intros ids r Hin. simpl in Hin. now apply filter_In in Hin. }
  destruct (reply (fetch _ _)) as [response|e]; [|apply Hfire].
  destruct (text response) as [responseText|e]; [|apply Hfire].
  destruct (parse_body responseText) as [parsed|]; [|apply Hfire].
  destruct (ok response); simpl negb; cbv iota; [|apply Hfire].
  unfold read_clock. cbv beta iota zeta.
  match goal with
  | |- context [if ?b then _ else _] => destruct b
  end; intros Hin; apply (Hfire (fired (fetch
         (build_request apiKey baseUrl payload handle) (pending h)))
         (build_request apiKey baseUrl payload handle)); exact Hin.
Qed.

(** After a call, only timers that were pending before it are pending. *)
Lemma generate_leaves_no_timer (apiKey baseUrl : string)
    (params : Params.t zod) (h : host) (t : timer) :
  In t (pending (snd (generate apiKey baseUrl params h))) ->
  In t (pending h).
Proof.
  unfold generate.
  destruct (buildAbortController_cases (Params.timeoutMs params) h)
    as [-> | [ms [_ ->]]].
  - unfold read_clock. cbv zeta.
    destruct (try_block _ _ _ _ _ _) as [r h3] eqn:Et. simpl.
    intros Hin. change h3 with (snd (r, h3)) in Hin. rewrite <- Et in Hin.
    apply pending_try_block in Hin. exact Hin.
  - unfold read_clock. cbv zeta.
    destruct (try_block _ _ _ _ _ _) as [r h3] eqn:Et. simpl.
    intros Hin. apply filter_In in Hin as [Hin Hid].
    change h3 with (snd (r, h3)) in Hin. rewrite <- Et in Hin.
    apply pending_try_block in Hin. simpl in Hin.
    apply in_app_or in Hin as [Hin | [<- | []]]; [exact Hin|].
    simpl in Hid. now rewrite Nat.eqb_refl in Hid.
Qed.

Lemma generate_timer_cleared (apiKey baseUrl : string)
    (params : Params.t zod) (h : host) (id : nat) :
  clear (fst (buildAbortController (Params.timeoutMs params) h)) = Some id ->
  is_pending id (snd (generate apiKey baseUrl params h)) = false.
Proof.
  unfold generate.
  destruct (buildAbortController (Params.timeoutMs params) h) as [handle h1].
  simpl. intros Hc. unfold read_clock. cbv zeta.
  destruct (try_block _ _ _ _ _ _) as [r h3]. simpl.
  unfold run_clear. rewrite Hc. unfold is_pending, clearTimeout. simpl.
  induction (pending h3) as [|t l IH]; simpl; [reflexivity|].
  destruct (Nat.eqb (timer_id t) id) eqn:E; simpl; [exact IH|].
  now rewrite E.
Qed.

Lemma generate_sends_one (apiKey baseUrl : string) (params : Params.t zod)
    (h : host) (payload : value) :
  buildPayload params = Return payload ->
  wire (snd (generate apiKey baseUrl params h))
  = (wire h
     ++ [build_request apiKey baseUrl payload
           (fst (buildAbortController (Params.timeoutMs params) h))])%list.
Proof.
  intros Hb. unfold generate.
  pose proof (wire_buildAbortController (Params.timeoutMs params) h) as Hw.
  destruct (buildAbortController (Params.timeoutMs params) h) as [handle h1].
  simpl in Hw. simpl fst. unfold read_clock. cbv zeta.
  destruct (try_block _ _ _ _ _ _) as [r h3] eqn:Et. simpl.
  rewrite wire_run_clear, <- Hw.
  change h3 with (snd (r, h3)). rewrite <- Et. clear Et.
  unfold try_block. rewrite Hb. cbv zeta.
  destruct (reply (fetch _ _)) as [response|e]; [|reflexivity].
  destruct (text response) as [responseText|e]; [|reflexivity].
  destruct (parse_body responseText) as [parsed|]; [|reflexivity].
  destruct (ok response); simpl negb; cbv iota; [|reflexivity].
  unfold read_clock. cbv beta iota zeta.
  match goal with
  | |- context [if ?b then _ else _] => destruct b
  end; reflexivity.
Qed.

Lemma generate_aborted (apiKey baseUrl : string) (params : Params.t zod)
    (h : host) (payload : value) (m : string) :
  buildPayload params = Return payload ->
  reply
    (fetch
       (build_request apiKey baseUrl payload
          (fst (buildAbortController (Params.timeoutMs params) h)))
       (pending (snd (buildAbortController (Params.timeoutMs params) h))))
  = Throw (DOMException "AbortError" m)
  \/ (exists response,
        reply
          (fetch
             (build_request apiKey baseUrl payload
                (fst (buildAbortController (Params.timeoutMs params) h)))
             (pending (snd (buildAbortController (Params.timeoutMs params) h))))
        = Return response
        /\ text response = Throw (DOMException "AbortError" m)) ->
  fst (generate apiKey baseUrl params h)
  = Throw (JsError "Grok request timed out.").
Proof.
  intros Hb Hf. unfold generate.
  destruct (buildAbortController (Params.timeoutMs params) h) as [handle h1].
  simpl in Hf. unfold read_clock, try_block. rewrite Hb. cbv zeta.
  cbn [pending].
  destruct Hf as [Hf | [response [Hf Ht]]]; rewrite Hf; [|rewrite Ht];
    reflexivity.
Qed.

(** The outcome of a call that sends its request is made of the answer
    to that request under the timers that the call left pending when it
    sent it: a rejection of the request or of the reading of the body
    goes through the [catch] clause, a body that was read is settled. *)
Lemma generate_outcome (apiKey baseUrl : string) (params : Params.t zod)
    (h : host) (payload : value) :
  buildPayload params = Return payload ->
  fst (generate apiKey baseUrl params h)
  = match
      reply
        (fetch
           (build_request apiKey baseUrl payload
              (fst (buildAbortController (Params.timeoutMs params) h)))
           (pending (snd (buildAbortController (Params.timeoutMs params) h))))
    with
    | Throw e => Throw (catch_clause e)
    | Return response =>
        match text response with
        | Throw e => Throw (catch_clause e)
        | Return responseText =>
            settle payload response responseText
              (Date_now (clock h)) (Date_now (S (clock h)))
        end
    end.
Proof.
  intros Hb.
  destruct (reply (fetch _ _)) as [response|e] eqn:Hf.
  - destruct (text response) as [responseText|e] eqn:Ht.
    + exact (generate_received _ _ _ _ _ _ _ Hb Hf Ht).
    + unfold generate.
      destruct (buildAbortController (Params.timeoutMs params) h)
        as [handle h1].
      simpl in Hf. unfold read_clock, try_block. rewrite Hb. cbv zeta.
      cbn [pending]. now rewrite Hf, Ht.
  - unfold generate.
    destruct (buildAbortController (Params.timeoutMs params) h)
      as [handle h1].
    simpl in Hf. unfold read_clock, try_block. rewrite Hb. cbv zeta.
    cbn [pending]. now rewrite Hf.
Qed.

(** C9.  For every call: with a positive [timeoutMs] where
    [AbortController] exists, [generate] makes a controller and a timer
    that aborts it after [timeoutMs]; the request it sends carries the
    controller's signal and waits with that timer pending, beside the
    timers that were there before: the outcome of the call is made of
    the answer to the request under those timers.  When the call is
    aborted (the request, or the reading of the body, rejects with a
    [DOMException] named [AbortError]), [generate] rejects with the
    timeout error, message [Grok request timed out.]; whatever way the
    call ends, no timer is pending afterwards that was not pending
    before, and the timer of the call is not pending; and with
    [timeoutMs] absent, or not a positive number, or without
    [AbortController], no controller and no timer are made, the request
    carries no signal and waits under the timers that were there
    before. *)
Theorem generate_deadline (apiKey baseUrl : string) (params : Params.t zod)
    (h : host) :
  let armed := buildAbortController (Params.timeoutMs params) h in
  let handle := fst armed in
  let waiting := pending (snd armed) in
  let result := fst (generate apiKey baseUrl params h) in
  let after := snd (generate apiKey baseUrl params h) in
  (forall ms,
     Params.timeoutMs params = Some ms ->
     (0 <? ms)%float = true ->
     AbortController_defined = true ->
     controller handle = Some (fresh h)
     /\ clear handle = Some (S (fresh h))
     /\ waiting
        = (pending h
           ++ [{| timer_id := S (fresh h); timer_delay := ms;
                  timer_aborts := fresh h |}])%list
     /\ forall payload,
          buildPayload params = Return payload ->
          wire after
          = (wire h ++ [build_request apiKey baseUrl payload handle])%list
          /\ signal (build_request apiKey baseUrl payload handle)
             = Some (fresh h))
  /\ (forall payload,
        buildPayload params = Return payload ->
        result
        = match
            reply (fetch (build_request apiKey baseUrl payload handle) waiting)
          with
          | Throw e => Throw (catch_clause e)
          | Return response =>
              match text response with
              | Throw e => Throw (catch_clause e)
              | Return responseText =>
                  settle payload response responseText
                    (Date_now (clock h)) (Date_now (S (clock h)))
              end
          end)
  /\ (forall payload m,
        buildPayload params = Return payload ->
        reply (fetch (build_request apiKey baseUrl payload handle) waiting)
        = Throw (DOMException "AbortError" m) ->
        result = Throw (JsError "Grok request timed out."))
  /\ (forall payload response m,
        buildPayload params = Return payload ->
        reply (fetch (build_request apiKey baseUrl payload handle) waiting)
        = Return response ->
        text response = Throw (DOMException "AbortError" m) ->
        result = Throw (JsError "Grok request timed out."))
  /\ (forall t, In t (pending after) -> In t (pending h))
  /\ (forall id, clear handle = Some id -> is_pending id after = false)
  /\ (Params.timeoutMs params = None
      \/ (exists ms,
            Params.timeoutMs params = Some ms /\ (0 <? ms)%float = false)
      \/ AbortController_defined = false ->
      armed = (no_deadline, h)
      /\ waiting = pending h
      /\ forall payload,
           signal (build_request apiKey baseUrl payload handle) = None).
Proof.
  cbv zeta. repeat apply conj.
  - intros ms Hms Hpos Hdef. rewrite Hms.
    rewrite (buildAbortController_armed ms h Hpos Hdef).
    split; [reflexivity | split; [reflexivity | split; [reflexivity|]]].
    intros payload Hb. split; [|reflexivity].
    pose proof (generate_sends_one apiKey baseUrl params h payload Hb) as Hw.
    rewrite Hms, (buildAbortController_armed ms h Hpos Hdef) in Hw.
    exact Hw.
  - intros payload Hb. now apply generate_outcome.
  - intros payload m Hb Hf. eapply generate_aborted; eauto.
  - intros payload response m Hb Hf Ht. eapply generate_aborted; eauto.
  - apply generate_leaves_no_timer.
  - apply generate_timer_cleared.
  - intros Hc. rewrite (buildAbortController_idle _ h Hc).
    split; [reflexivity|]. now split.
Qed.

(** ** Construction *)

(** C8.  For every environment: when [XAI_API_KEY] is absent (unset, or
    set to the empty string) [createGrokAdapter] throws at once, the
    configuration error that names the variable, and returns no adapter;
    when it is present, [createGrokAdapter] returns an adapter whose name
    is [grok], whose default model is the fixed default, and whose
    [generate] uses the key and the base URL of the environment (one
    trailing slash removed), or the default base URL. *)
Theorem createGrokAdapter_fails_fast :
  match process_env "XAI_API_KEY" with
  | None | Some EmptyString =>
      createGrokAdapter
      = Throw
          (JsError
             "XAI_API_KEY is required to use the Grok provider. Set the environment variable and try again.")
  | Some apiKey =>
      exists adapter,
        createGrokAdapter = Return adapter
        /\ ProviderAdapter.name adapter = "grok"
        /\ ProviderAdapter.defaultModel adapter = "grok-4-1-fast-non-reasoning"
        /\ ProviderAdapter.generate adapter
           = generate apiKey
               match process_env "XAI_API_BASE_URL" with
               | Some u => strip_trailing_slash u
               | None => "https://api.x.ai/v1"
               end
  end.
Proof.
  unfold createGrokAdapter.
  destruct (process_env "XAI_API_KEY") as [[|c k]|]; try reflexivity.
  simpl. eexists. repeat split.
Qed.

(** ** One request for each call *)

Lemma wire_try_block (apiKey baseUrl : string) (params : Params.t zod)
    (handle : AbortHandle) (t0 : float) (h : host) :
  wire (snd (try_block apiKey baseUrl params handle t0 h))
  = match buildPayload params with
    | Return payload =>
        (wire h ++ [build_request apiKey baseUrl payload handle])%list
    | Throw _ => wire h
    end.
Proof.
  unfold try_block. destruct (buildPayload params) as [payload|e];
    [|reflexivity].
  cbv zeta.
  destruct (reply (fetch _ _)) as [response|e]; [|reflexivity].
  destruct (text response) as [responseText|e]; [|reflexivity].
  destruct (parse_body responseText) as [parsed|]; [|reflexivity].
  destruct (ok response); simpl negb; cbv iota; [|reflexivity].
  unfold read_clock. cbv beta iota zeta.
  match goal with
  | |- context [if ?b then _ else _] => destruct b
  end; reflexivity.
Qed.

(** X1.  Every call of [generate] sends at most one request, whatever
    comes back: exactly one, the request built from the payload, when the
    payload can be built, and none when it cannot.  Nothing is retried
    and nothing is sent twice. *)
Theorem generate_single_request (apiKey baseUrl : string)
    (params : Params.t zod) (h : host) :
  wire (snd (generate apiKey baseUrl params h))
  = match buildPayload params with
    | Return payload =>
        (wire h
         ++ [build_request apiKey baseUrl payload
               (fst (buildAbortController (Params.timeoutMs params) h))])%list
    | Throw _ => wire h
    end.
Proof.
  unfold generate.
  pose proof (wire_buildAbortController (Params.timeoutMs params) h) as Hw.
  destruct (buildAbortController (Params.timeoutMs params) h) as [handle h1].
  simpl in Hw. simpl fst. unfold read_clock. cbv zeta.
  pose proof (wire_try_block apiKey baseUrl params handle
                (Date_now (clock h1))
                {| pending := pending h1; fresh := fresh h1;
                   clock := S (clock h1); wire := wire h1 |}) as Ht.
  destruct (try_block _ _ _ _ _ _) as [r h3]. simpl in Ht. simpl.
  rewrite wire_run_clear, Ht, Hw. reflexivity.
Qed.

(** ** What a result vouches for *)

(** X2.  Whenever [generate] returns a result, its content is not
    empty, its provider is [grok], and behind it there is a payload that
    was built, a response of success status to the request, and a body
    that was read, was not empty and parsed to the raw response of the
    result, from whose first choice the content was extracted.  So
    [generate] never returns on a failure status, on an empty or
    unparsable body, or with an empty text. *)
Theorem generate_returns_only_text (apiKey baseUrl : string)
    (params : Params.t zod) (h : host) (r : Result.t) :
  fst (generate apiKey baseUrl params h) = Return r ->
  Result.content r <> ""
  /\ Result.provider r = PROVIDER_NAME
  /\ exists payload response responseText,
       buildPayload params = Return payload
       /\ reply
            (fetch
               (build_request apiKey baseUrl payload
                  (fst (buildAbortController (Params.timeoutMs params) h)))
               (pending (snd (buildAbortController (Params.timeoutMs params) h))))
          = Return response
       /\ ok response = true
       /\ text response = Return responseText
       /\ responseText <> ""
       /\ JSON_parse responseText = Some (Result.rawResponse r)
       /\ Result.content r
          = extractTextFromChoice (first_choice (Result.rawResponse r)).
Proof.
  unfold generate.
  destruct (buildAbortController (Params.timeoutMs params) h) as [handle h1].
  simpl fst. simpl snd. unfold read_clock, try_block. cbv zeta.
  cbn [pending].
  destruct (buildPayload params) as [payload|e]; [|simpl; discriminate].
  destruct
    (reply (fetch (build_request apiKey baseUrl payload handle) (pending h1)))
    as [response|e] eqn:Hf; [|simpl; discriminate].
  destruct (text response) as [responseText|e] eqn:Ht; [|simpl; discriminate].
  destruct (parse_body responseText) as [parsed|] eqn:Hp;
    [|simpl; discriminate].
  destruct (ok response) eqn:Hok; simpl negb; cbv iota;
    [|simpl; discriminate].
  cbv beta iota zeta. cbn [truthy].
  destruct (String.eqb_spec (extractTextFromChoice (first_choice parsed)) "")
    as [He|Hne]; simpl; [discriminate|].
  intros [= <-]. simpl.
  split; [exact Hne|]. split; [reflexivity|].
  exists payload, response, responseText.
  repeat match goal with |- _ /\ _ => split end; try reflexivity;
    try assumption.
  - intros ->. apply Hne. unfold parse_body in Hp. simpl in Hp.
    now injection Hp as <-.
  - unfold parse_body in Hp.
    destruct (String.eqb_spec responseText "") as [->|_]; [|exact Hp].
    exfalso. apply Hne. now injection Hp as <-.
Qed.

(** ** Failures of the network *)

(** X3.  When the request, or the reading of the body of its response,
    rejects with anything but a [DOMException] named [AbortError],
    [generate] rejects with that very value: it is not wrapped, renamed
    or replaced, and it is not retried. *)
Theorem generate_passes_failure_on (apiKey baseUrl : string)
    (params : Params.t zod) (h : host) (payload : value) (e : thrown) :
  buildPayload params = Return payload ->
  reply
    (fetch
       (build_request apiKey baseUrl payload
          (fst (buildAbortController (Params.timeoutMs params) h)))
       (pending (snd (buildAbortController (Params.timeoutMs params) h))))
  = Throw e
  \/ (exists response,
        reply
          (fetch
             (build_request apiKey baseUrl payload
                (fst (buildAbortController (Params.timeoutMs params) h)))
             (pending (snd (buildAbortController (Params.timeoutMs params) h))))
        = Return response
        /\ text response = Throw e) ->
  (forall m, e <> DOMException "AbortError" m) ->
  fst (generate apiKey baseUrl params h) = Throw e.
Proof.
  intros Hb Hf Hna. unfold generate.
  destruct (buildAbortController (Params.timeoutMs params) h) as [handle h1].
  simpl in Hf. unfold read_clock, try_block. rewrite Hb. cbv zeta.
  cbn [pending].
  assert (Hc : catch_clause e = e).
  { destruct e as [m|n m|v]; try reflexivity. simpl.
    destruct (String.eqb_spec n "AbortError") as [->|_]; [|reflexivity].
    exfalso. now apply (Hna m). }
  destruct Hf as [Hf | [response [Hf Ht]]]; rewrite Hf; [|rewrite Ht];
    simpl; now rewrite Hc.
Qed.

(** ** Timers of other calls *)

Lemma pending_buildAbortController (timeoutMs : option float) (h : host) :
  let h1 := snd (buildAbortController timeoutMs h) in
  match clear (fst (buildAbortController timeoutMs h)) with
  | None => pending h1 = pending h /\ fresh h1 = fresh h
  | Some id =>
      exists t,
        pending h1 = (pending h ++ [t])%list
        /\ timer_id t = id /\ id = S (fresh h) /\ fresh h1 = S (S (fresh h))
  end.
Proof.
  destruct (buildAbortController_cases timeoutMs h) as [-> | [ms [_ ->]]];
    simpl; [auto|].
  eexists. repeat split.
Qed.

Lemma fresh_try_block (apiKey baseUrl : string) (params : Params.t zod)
    (handle : AbortHandle) (t0 : float) (h : host) :
  fresh (snd (try_block apiKey baseUrl params handle t0 h)) = fresh h.
Proof.
  unfold try_block. destruct (buildPayload params) as [payload|e];
    [|reflexivity].
  cbv zeta.
  destruct (reply (fetch _ _)) as [response|e]; [|reflexivity].
  destruct (text response) as [responseText|e]; [|reflexivity].
  destruct (parse_body responseText) as [parsed|]; [|reflexivity].
  destruct (ok response); simpl negb; cbv iota; [|reflexivity].
  unfold read_clock. cbv beta iota zeta.
  match goal with
  | |- context [if ?b then _ else _] => destruct b
  end; reflexivity.
Qed.

(** The [try] block removes from the pending set only timers that fired
    while the request was awaited. *)
Lemma pending_try_block_keeps (apiKey baseUrl : string)
    (params : Params.t zod) (handle : AbortHandle) (t0 : float) (h : host)
    (t : timer) :
  In t (pending h) ->
  (forall payload,
     buildPayload params = Return payload ->
     ~ In (timer_id t)
         (fired
            (fetch (build_request apiKey baseUrl payload handle)
               (pending h)))) ->
  In t (pending (snd (try_block apiKey baseUrl params handle t0 h))).
Proof.
  intros Hin Hnf. unfold try_block.
  destruct (buildPayload params) as [payload|e]; [|exact Hin].
  specialize (Hnf payload eq_refl). cbv zeta.
  set (request := build_request apiKey baseUrl payload handle) in *.
  assert (Hfire : In t (pending
                          (fire (fired (fetch request (pending h)))
                             (send request h)))).
  { simpl. apply filter_In. split; [exact Hin|].
    apply negb_true_iff.
    destruct (existsb (Nat.eqb (timer_id t))
                (fired (fetch request (pending h)))) eqn:E;
      [|reflexivity].
    apply existsb_exists in E as [x [Hx Hex]].
    apply Nat.eqb_eq in Hex. subst x. contradiction. }
  destruct (reply (fetch _ _)) as [response|e]; [|apply Hfire].
  destruct (text response) as [responseText|e]; [|apply Hfire].
  destruct (parse_body responseText) as [parsed|]; [|apply Hfire].
  destruct (ok response); simpl negb; cbv iota; [|apply Hfire].
  unfold read_clock. cbv beta iota zeta.
  match goal with
  | |- context [if ?b then _ else _] => destruct b
  end; apply Hfire.
Qed.

(** X4.  On a host whose pending timers have ids below its next id, a
    call of [generate] leaves a host of the same kind, and clears no
    timer but its own: every timer that was pending before the call, and
    did not fire while the call waited for its request (when it sent
    one), is pending after it.  Calls that share a host do not cancel
    each other's deadlines. *)
Theorem generate_spares_other_timers (apiKey baseUrl : string)
    (params : Params.t zod) (h : host) :
  timers_fresh h ->
  let armed := buildAbortController (Params.timeoutMs params) h in
  timers_fresh (snd (generate apiKey baseUrl params h))
  /\ fresh h <= fresh (snd (generate apiKey baseUrl params h))
  /\ forall t,
       In t (pending h) ->
       (forall payload,
          buildPayload params = Return payload ->
          ~ In (timer_id t)
              (fired
                 (fetch (build_request apiKey baseUrl payload (fst armed))
                    (pending (snd armed))))) ->
       In t (pending (snd (generate apiKey baseUrl params h))).
Proof.
  intros Hfresh. cbv zeta.
  unfold timers_fresh in *. rewrite Forall_forall in Hfresh.
  pose proof (pending_buildAbortController (Params.timeoutMs params) h) as Hb.
  assert (Hsub : forall t,
            In t (pending (snd (generate apiKey baseUrl params h))) ->
            In t (pending h)).
  { apply generate_leaves_no_timer. }
  revert Hsub. unfold generate.
  destruct (buildAbortController (Params.timeoutMs params) h) as [handle h1].
  cbv zeta in Hb. simpl in Hb. unfold read_clock. cbv zeta.
  pose proof (fresh_try_block apiKey baseUrl params handle
                (Date_now (clock h1))
                {| pending := pending h1; fresh := fresh h1;
                   clock := S (clock h1); wire := wire h1 |}) as Hfr.
  pose proof (fun t => pending_try_block_keeps apiKey baseUrl params handle
                (Date_now (clock h1))
                {| pending := pending h1; fresh := fresh h1;
                   clock := S (clock h1); wire := wire h1 |} t) as Hkeep.
  destruct (try_block _ _ _ _ _ _) as [r h3]. simpl in Hfr, Hkeep. simpl.
  intros Hsub.
  assert (Hfr' : fresh (run_clear handle h3) = fresh h3).
  { unfold run_clear. now destruct (clear handle). }
  assert (Hle : fresh h <= fresh h1).
  { destruct (clear handle) as [id|].
    - destruct Hb as [t [_ [_ [_ ->]]]]. lia.
    - destruct Hb as [_ ->]. lia. }
  split; [|split].
  - rewrite Forall_forall. intros t Ht. rewrite Hfr', Hfr.
    specialize (Hfresh t (Hsub t Ht)). lia.
  - rewrite Hfr', Hfr. exact Hle.
  - intros t Hin Hnf. unfold run_clear.
    destruct (clear handle) as [id|].
    + destruct Hb as [t' [Hp [_ [-> _]]]].
      simpl. apply filter_In. split.
      * apply Hkeep; [|exact Hnf]. rewrite Hp. apply in_or_app. now left.
      * apply negb_true_iff, Nat.eqb_neq.
        specialize (Hfresh t Hin). lia.
    + destruct Hb as [Hp _]. apply Hkeep; [|exact Hnf]. now rewrite Hp.
Qed.

(** ** Where the requests go *)

Lemma strip_trailing_slash_removes (u : string) :
  strip_trailing_slash (u ++ "/") = u.
Proof.
  induction u as [|c u IH]; [reflexivity|].
  simpl. rewrite IH. destruct (u ++ "/") eqn:E; [|reflexivity].
  destruct u; discriminate.
Qed.

Lemma strip_trailing_slash_keeps (s : string) :
  ~ ends_with_slash s -> strip_trailing_slash s = s.
Proof.
  induction s as [|c s IH]; intros Hn; [reflexivity|].
  simpl. destruct s as [|c' s'].
  - destruct (Ascii.eqb_spec c "/"%char) as [->|_]; [|reflexivity].
    exfalso. apply Hn. now exists "".
  - rewrite IH; [reflexivity|].
    intros [u Hu]. apply Hn. exists (String c u). simpl. now rewrite Hu.
Qed.

(** X5.  An adapter made by [createGrokAdapter] sends its request, for
    every call whose payload can be built, by [POST] to the base URL
    followed by [/chat/completions], with the key of the environment as a
    bearer token and a JSON content type, and the serialized payload as
    body.  The base URL is the default [https://api.x.ai/v1] only when
    [XAI_API_BASE_URL] is unset; when it is set, it is its value with one
    trailing slash removed, if it has one, and as it is otherwise, the
    empty string included. *)
Theorem adapter_request (adapter : ProviderAdapter.t zod)
    (params : Params.t zod) (h : host) (payload : value) :
  createGrokAdapter = Return adapter ->
  buildPayload params = Return payload ->
  exists key base request,
    process_env "XAI_API_KEY" = Some key
    /\ wire (snd (ProviderAdapter.generate adapter params h))
       = (wire h ++ [request])%list
    /\ url request = base ++ "/chat/completions"
    /\ method request = "POST"
    /\ headers request
       = [ ("Authorization", "Bearer " ++ key);
           ("Content-Type", "application/json") ]
    /\ body request = JSON_stringify payload
    /\ (process_env "XAI_API_BASE_URL" = None ->
        base = "https://api.x.ai/v1")
    /\ (forall u,
          process_env "XAI_API_BASE_URL" = Some (u ++ "/") -> base = u)
    /\ (forall u,
          process_env "XAI_API_BASE_URL" = Some u ->
          ~ ends_with_slash u -> base = u).
Proof.
  intros Hc Hb. unfold createGrokAdapter in Hc.
  destruct (process_env "XAI_API_KEY") as [key|]; [|discriminate].
  destruct (String.eqb key ""); [discriminate|]. simpl in Hc.
  injection Hc as <-. simpl ProviderAdapter.generate.
  eexists key, _, _. split; [reflexivity|]. split.
  - apply generate_sends_one. exact Hb.
  - simpl. repeat match goal with |- _ /\ _ => split end; try reflexivity.
    + now intros ->.
    + intros u ->. apply strip_trailing_slash_removes.
    + intros u -> Hn. now apply strip_trailing_slash_keeps.
Qed.

(** ** Message and delta *)

(** X6.  In [extractTextFromChoice] the [delta] of a choice is looked at
    only when its [message] is null or undefined: a choice with a message
    gives what its message alone gives, even when the message holds no
    text and the delta does; a choice without a message gives what its
    delta gives. *)
Theorem extractText_message_first (choice : value) :
  (nullish (get choice "message") = false ->
   extractTextFromChoice choice
   = extractTextFromChoice (VObj [("message", get choice "message")]))
  /\ (nullish (get choice "message") = true ->
      nullish (get choice "delta") = false ->
      extractTextFromChoice choice
      = extractTextFromChoice (VObj [("message", get choice "delta")])).
Proof.
  assert (Hobj : forall k, nullish (get choice k) = false ->
                           truthy choice = true).
  { intros k. destruct choice; simpl; try discriminate. reflexivity. }
  split.
  - intros Hm. unfold extractTextFromChoice. rewrite (Hobj _ Hm).
    cbn [negb truthy get obj_get String.eqb Ascii.eqb Bool.eqb].
    unfold coalesce. rewrite Hm. reflexivity.
  - intros Hm Hd. unfold extractTextFromChoice. rewrite (Hobj _ Hd).
    cbn [negb truthy get obj_get String.eqb Ascii.eqb Bool.eqb].
    unfold coalesce. rewrite Hm, Hd. reflexivity.
Qed.

(** ** Properties named like keywords *)

Lemma clean_find (entries : list (string * value)) (k : string) :
  mentions_banned (VObj entries) = false ->
  includes UNSUPPORTED_SCHEMA_PROPS k = true ->
  find (fun kv => String.eqb (fst kv) k) entries = None.
Proof.
  intros Hm Hk. induction entries as [|[k' x] l IH];
    cbn [mentions_banned existsb find fst snd] in *; [reflexivity|].
  apply orb_false_iff in Hm as [H1 H2].
  apply orb_false_iff in H1 as [Hb _].
  destruct (String.eqb_spec k' k) as [->|_]; [congruence|].
  apply IH. exact H2.
Qed.

Lemma clean_select (s : selector) (v w : value) :
  mentions_banned v = false -> select s v = Some w ->
  mentions_banned w = false.
Proof.
  intros Hm Hs. destruct s as [k|i], v; try discriminate;
    cbn [select mentions_banned] in *.
  - destruct (find _ entries) as [kv|] eqn:Hf; [|discriminate].
    injection Hs as <-. apply find_some in Hf as [Hin _].
    destruct (mentions_banned (snd kv)) eqn:E; [|reflexivity].
    assert (Hex : existsb
                    (fun kv => includes UNSUPPORTED_SCHEMA_PROPS (fst kv)
                               || mentions_banned (snd kv)) entries = true).
    { apply existsb_exists. exists kv. split; [exact Hin|].
      now rewrite E, orb_true_r. }
    congruence.
  - apply nth_error_In in Hs.
    destruct (mentions_banned w) eqn:E; [|reflexivity].
    assert (Hex : existsb mentions_banned items = true).
    { apply existsb_exists. now exists w. }
    congruence.
Qed.

Lemma clean_follow_banned (path : list selector) (k : string) (v : value) :
  mentions_banned v = false ->
  includes UNSUPPORTED_SCHEMA_PROPS k = true ->
  follow (path ++ [Key k]) v = None.
Proof.
  revert v. induction path as [|s path IH]; intros v Hm Hk; simpl.
  - destruct v; try reflexivity. cbn [select].
    now rewrite (clean_find entries k Hm Hk).
  - destruct (select s v) as [w|] eqn:Hs; [|reflexivity].
    apply IH; [|exact Hk]. eapply clean_select; eassumption.
Qed.

(** X7.  The sanitizer does not tell a keyword of a schema from a name
    that a schema gives to one of its properties: in the sanitized tree
    no position ends in a banned key, so a property called [minLength]
    or [maxItems] is gone from the [properties] of its object, while a
    list of names, such as the [required] list that asks for it, comes
    through as it was wherever it is reached through keys that the
    loop carries over, those that are not banned and not
    [__proto__]. *)
Theorem sanitize_drops_homonymous_property (schema : value) :
  well_formed schema = true ->
  (forall path k,
     includes UNSUPPORTED_SCHEMA_PROPS k = true ->
     follow (path ++ [Key k]) (sanitizeSchemaForGrok schema) = None)
  /\ (forall path names,
        forallb carried path = true ->
        follow path schema = Some (VArr (map VStr names)) ->
        follow path (sanitizeSchemaForGrok schema)
        = Some (VArr (map VStr names))).
Proof.
  intros Hwf. rewrite (sanitize_strip_dropped schema Hwf). split.
  - intros path k Hk. apply clean_follow_banned; [|exact Hk].
    apply strip_dropped_no_banned.
  - intros path names Hp Hf.
    rewrite (follow_strip_dropped path schema Hp), Hf.
    simpl. f_equal. f_equal. rewrite map_map. reflexivity.
Qed.

(** ** The names that reach the backend *)

Lemma trimEnd_idempotent (s : string) : trimEnd (trimEnd s) = trimEnd s.
Proof.
  induction s as [|c s IH]; [reflexivity|].
  simpl. destruct (trimEnd s) as [|c' u] eqn:E.
  - destruct (is_white c) eqn:Hc; simpl; [reflexivity | now rewrite Hc].
  - simpl. simpl in IH. now rewrite IH.
Qed.

Lemma all_white_trimEnd (s : string) : all_white (trimEnd s) = all_white s.
Proof.
  induction s as [|c s IH]; [reflexivity|].
  simpl. destruct (trimEnd s) as [|c' u] eqn:E.
  - simpl in IH. rewrite <- IH.
    destruct (is_white c) eqn:Hc; simpl; [reflexivity | now rewrite Hc].
  - simpl. simpl in IH. now rewrite IH.
Qed.

Lemma trimStart_trimEnd (s : string) :
  trimStart (trimEnd (trimStart s)) = trimEnd (trimStart s).
Proof.
  induction s as [|c s IH]; [reflexivity|].
  simpl. destruct (is_white c) eqn:Hc; [exact IH|].
  simpl. destruct (trimEnd s); rewrite ?Hc; simpl; now rewrite Hc.
Qed.

Lemma trim_idempotent (s : string) : trim (trim s) = trim s.
Proof.
  unfold trim. now rewrite trimStart_trimEnd, trimEnd_idempotent.
Qed.

(** X8.  Whatever [schemaName] is given, the name that
    [ensureSchemaName] resolves is never empty and never white space
    only, has no white space at either end, and is a name that resolves
    to itself. *)
Theorem ensureSchemaName_is_a_name (name : option string) :
  ensureSchemaName name <> ""
  /\ all_white (ensureSchemaName name) = false
  /\ trim (ensureSchemaName name) = ensureSchemaName name
  /\ ensureSchemaName (Some (ensureSchemaName name)) = ensureSchemaName name.
Proof.
  assert (Hd : "ResponseSchema" <> ""
               /\ all_white "ResponseSchema" = false
               /\ trim "ResponseSchema" = "ResponseSchema"
               /\ ensureSchemaName (Some "ResponseSchema") = "ResponseSchema").
  { repeat split. discriminate. }
  destruct name as [s|]; [|exact Hd].
  destruct (all_white s) eqn:Hw.
  - rewrite (ensureSchemaName_default s Hw). exact Hd.
  - rewrite (ensureSchemaName_trimmed s Hw).
    assert (Hw' : all_white (trim s) = false).
    { unfold trim. now rewrite all_white_trimEnd, all_white_trimStart. }
    split; [|split; [exact Hw'|split]].
    + intros He. apply trim_empty in He. congruence.
    + apply trim_idempotent.
    + rewrite (ensureSchemaName_trimmed _ Hw'). apply trim_idempotent.
Qed.

End Adapter.

(* ================================================================== *)
(** * The properties at work *)
(* ================================================================== *)

(** [generate] of the adapter against the mock backend. *)
#[local] Abbreviation mock_call success status body params :=
  (fst
     (generate Empty_set Mock.no_schema Mock.parse Mock.stringify
        Mock.display true Mock.Date_now (Mock.backend success status body)
        "secret" "https://api.x.ai/v1" params Mock.idle)).

(** [sanitize_contract] on [person_schema], as a tree and in a store. *)
Lemma sanitize_contract_witness :
  well_formed Mock.person_schema = true
  /\ ordinary Mock.person_schema = true
  /\ sanitizeSchemaForGrok Mock.person_schema = Mock.person_schema_sanitized
  /\ mentions_banned (sanitizeSchemaForGrok Mock.person_schema) = false
  /\ follow [Key "anyOf"; Index 0; Key "type"]
       (sanitizeSchemaForGrok Mock.person_schema)
     = Some (VStr "string")
  /\ sanitizeSchemaForGrok (sanitizeSchemaForGrok Mock.person_schema)
     = sanitizeSchemaForGrok Mock.person_schema
  /\ exists w' m',
       Store.sanitizeSchemaForGrok 5 (Store.WRef 7) Mock.person_store
       = Some (w', m')
       /\ Store.preserved Mock.person_store m'
       /\ Store.reify 8 5 m' w' = Some Mock.person_schema_sanitized.
Proof.
  destruct (sanitize_contract Mock.person_schema eq_refl eq_refl)
    as [Hstrip [Hclean [Hpath [_ [_ [_ [_ [Hidem Hstore]]]]]]]].
  assert (Hs : sanitizeSchemaForGrok Mock.person_schema
               = Mock.person_schema_sanitized).
  { rewrite Hstrip. reflexivity. }
  split; [reflexivity|]. split; [reflexivity|]. split; [exact Hs|].
  split; [exact Hclean|]. split; [|split; [exact Hidem|]].
  - rewrite (Hpath [Key "anyOf"; Index 0; Key "type"] eq_refl). reflexivity.
  - destruct (Hstore 5 Mock.person_store (Store.WRef 7) eq_refl)
      as [w' [m' [Hrun [Hkeep Hread]]]].
    exists w', m'. rewrite <- Hs. auto.
Defined.

(** [generate_success] on the backend that answers [answer_4]. *)
Lemma generate_success_witness :
  mock_call true "OK" Mock.answer_4 (just_prompt Empty_set "2+2?")
  = Return
      {| Result.content := "4";
         Result.rawResponse :=
           VObj
             [ ("model", VStr "m1");
               ("choices",
                VArr [VObj [("message", VObj [("content", VStr "4")])]]) ];
         Result.provider := PROVIDER_NAME;
         Result.model := VStr "m1";
         Result.usage := VObj [("latencyMs", VNum 42)] |}.
Proof.
  refine
    (generate_success Empty_set Mock.no_schema Mock.parse Mock.stringify
       Mock.display true Mock.Date_now (Mock.backend true "OK" Mock.answer_4)
       "secret" "https://api.x.ai/v1" (just_prompt Empty_set "2+2?")
       Mock.idle _ _ Mock.answer_4
       (VObj
          [ ("model", VStr "m1");
            ("choices",
             VArr [VObj [("message", VObj [("content", VStr "4")])]]) ])
       _ _ _ _ _ _ _ _);
    try reflexivity; discriminate.
Defined.



(** [generate_empty_body] on a backend that answers 200 with nothing,
    and on one that answers 200 with a text that is not JSON. *)
Lemma generate_empty_body_witness :
  mock_call true "OK" "" (just_prompt Empty_set "2+2?")
  = Throw (JsError "Grok API returned an empty response.")
  /\ mock_call true "OK" "<html>" (just_prompt Empty_set "2+2?")
     = Throw (JsError "Grok API returned a non-JSON response.").
Proof.
  split.
  - apply
      (generate_empty_body Empty_set Mock.no_schema Mock.parse Mock.stringify
         Mock.display true Mock.Date_now (Mock.backend true "OK" "")
         "secret" "https://api.x.ai/v1" (just_prompt Empty_set "2+2?")
         Mock.idle _ _ "" eq_refl eq_refl eq_refl);
      reflexivity.
  - apply
      (generate_empty_body Empty_set Mock.no_schema Mock.parse Mock.stringify
         Mock.display true Mock.Date_now (Mock.backend true "OK" "<html>")
         "secret" "https://api.x.ai/v1" (just_prompt Empty_set "2+2?")
         Mock.idle _ _ "<html>" eq_refl eq_refl eq_refl).
    split; [discriminate | reflexivity].
Defined.

(** [buildPayload_structured] on a descriptor that converts, with the
    label [ Foo ], and on one that does not. *)
Lemma buildPayload_structured_witness :
  (exists payload,
     buildPayload Mock.descriptor Mock.toJSONSchema
       (Mock.structured Mock.Person (Some " Foo "))
     = Return payload
     /\ get payload "response_format"
        = VObj
            [ ("type", VStr "json_schema");
              ("json_schema",
               VObj
                 [ ("name", VStr "Foo");
                   ("schema", Mock.person_schema_sanitized) ]) ])
  /\ buildPayload Mock.descriptor Mock.toJSONSchema
       (Mock.structured Mock.Unsupported None)
     = Throw (JsError "Failed to convert schema: Unsupported type").
Proof.
  split.
  - destruct
      (buildPayload_structured Mock.descriptor Mock.toJSONSchema Mock.parse
         Mock.stringify Mock.display true Mock.Date_now
         (Mock.backend true "OK" "")
         (Mock.structured Mock.Person (Some " Foo ")) Mock.Person eq_refl)
      as [Hdoc _].
    exact (Hdoc Mock.person_schema eq_refl).
  - destruct
      (buildPayload_structured Mock.descriptor Mock.toJSONSchema Mock.parse
         Mock.stringify Mock.display true Mock.Date_now
         (Mock.backend true "OK" "")
         (Mock.structured Mock.Unsupported None) Mock.Unsupported eq_refl)
      as [_ [Hthrow _]].
    destruct (Hthrow (JsError "Unsupported type") eq_refl)
      as [message [Hb [Hm _]]].
    rewrite Hb, Hm. reflexivity.
Defined.

(** The zero latency of C5 reached through [generate]: the backend
    answers within the millisecond and reports no usage, and the result
    carries no usage record, where a slower answer carries
    [{latencyMs: 42}] (see [generate_success_witness]). *)
Example generate_drops_zero_latency :
  option_map Result.usage
    match
      fst
        (generate Empty_set Mock.no_schema Mock.parse Mock.stringify
           Mock.display true Mock.still
           (Mock.backend true "OK" Mock.answer_4)
           "secret" "https://api.x.ai/v1" (just_prompt Empty_set "2+2?")
           Mock.idle)
    with
    | Return r => Some r
    | Throw _ => None
    end
  = Some VUndef.
Proof. reflexivity. Qed.

(** A call with a deadline of one millisecond against a backend that
    never answers: the timer fires, the request is aborted, the call
    rejects with the timeout error, and nothing is left pending. *)
Example generate_times_out :
  generate Empty_set Mock.no_schema Mock.parse Mock.stringify Mock.display
    true Mock.Date_now Mock.silence "secret" "https://api.x.ai/v1"
    (Mock.hurried "x" 1) Mock.idle
  = (Throw (JsError "Grok request timed out."),
     {| pending := []; fresh := 2; clock := 1;
        wire :=
          [ {| url := "https://api.x.ai/v1/chat/completions";
               method := "POST";
               headers :=
                 [ ("Authorization", "Bearer secret");
                   ("Content-Type", "application/json") ];
               body := "(payload)";
               signal := Some 0 |} ] |}).
Proof. reflexivity. Qed.

(** [generate_returns_only_text] on the result of the backend that
    answers [answer_4]. *)
Lemma generate_returns_only_text_witness :
  exists r,
    mock_call true "OK" Mock.answer_4 (just_prompt Empty_set "2+2?")
    = Return r
    /\ Result.content r <> ""
    /\ Result.provider r = PROVIDER_NAME
    /\ Mock.parse Mock.answer_4 = Some (Result.rawResponse r).
Proof.
  eexists. split; [reflexivity|].
  destruct
    (generate_returns_only_text Empty_set Mock.no_schema Mock.parse
       Mock.stringify Mock.display true Mock.Date_now
       (Mock.backend true "OK" Mock.answer_4)
       "secret" "https://api.x.ai/v1" (just_prompt Empty_set "2+2?")
       Mock.idle _ eq_refl)
    as [Hc [Hp [payload [response [responseText
         [Hb [Hf [Hok [Ht [Hne [Hparse Hx]]]]]]]]]]].
  split; [exact Hc|]. split; [exact Hp|]. reflexivity.
Defined.

(** [generate_passes_failure_on] on a backend that refuses the
    connection. *)
Lemma generate_passes_failure_on_witness :
  fst
    (generate Empty_set Mock.no_schema Mock.parse Mock.stringify
       Mock.display true Mock.Date_now Mock.silence
       "secret" "https://api.x.ai/v1" (just_prompt Empty_set "x") Mock.idle)
  = Throw (JsError "fetch failed").
Proof.
  refine
    (generate_passes_failure_on Empty_set Mock.no_schema Mock.parse
       Mock.stringify Mock.display true Mock.Date_now Mock.silence
       "secret" "https://api.x.ai/v1" (just_prompt Empty_set "x") Mock.idle
       _ (JsError "fetch failed") eq_refl _ _).
  - left. reflexivity.
  - discriminate.
Defined.

(** [generate_spares_other_timers] on a host where another call's
    timer is pending, with a deadline of its own. *)
Lemma generate_spares_other_timers_witness :
  timers_fresh Mock.busy
  /\ In {| timer_id := 5; timer_delay := 30000; timer_aborts := 4 |}
       (pending
          (snd
             (generate Empty_set Mock.no_schema Mock.parse Mock.stringify
                Mock.display true Mock.Date_now
                (Mock.backend true "OK" Mock.answer_4)
                "secret" "https://api.x.ai/v1" (Mock.hurried "x" 1)
                Mock.busy))).
Proof.
  assert (Hfresh : timers_fresh Mock.busy).
  { unfold timers_fresh. simpl. repeat constructor. }
  split; [exact Hfresh|].
  destruct
    (generate_spares_other_timers Empty_set Mock.no_schema Mock.parse
       Mock.stringify Mock.display true Mock.Date_now
       (Mock.backend true "OK" Mock.answer_4)
       "secret" "https://api.x.ai/v1" (Mock.hurried "x" 1) Mock.busy Hfresh)
    as [_ [_ Hkeep]].
  apply Hkeep.
  - left. reflexivity.
  - intros payload _ Hin. exact Hin.
Defined.

(** [adapter_request] in an environment whose base URL ends with a
    slash. *)
Lemma adapter_request_witness :
  exists adapter request,
    createGrokAdapter Empty_set Mock.no_schema Mock.parse Mock.stringify
      Mock.display true Mock.env Mock.Date_now
      (Mock.backend true "OK" Mock.answer_4)
    = Return adapter
    /\ wire
         (snd
            (ProviderAdapter.generate adapter (just_prompt Empty_set "2+2?")
               Mock.idle))
       = [request]
    /\ url request = "https://proxy.test/v1/chat/completions"
    /\ headers request
       = [ ("Authorization", "Bearer secret");
           ("Content-Type", "application/json") ].
Proof.
  eexists. 
  destruct
    (adapter_request Empty_set Mock.no_schema Mock.parse Mock.stringify
       Mock.display true Mock.env Mock.Date_now
       (Mock.backend true "OK" Mock.answer_4)
       _ (just_prompt Empty_set "2+2?") Mock.idle _ eq_refl eq_refl)
    as [key [base [request
         [Hk [Hw [Hu [_ [Hh [_ [_ [Hslash _]]]]]]]]]]].
  exists request. split; [reflexivity|]. split; [exact Hw|].
  injection Hk as <-.
  rewrite Hu, Hh, (Hslash "https://proxy.test/v1" eq_refl).
  split; reflexivity.
Defined.

(** [sanitize_drops_homonymous_property] on [limits_schema]. *)
Lemma sanitize_drops_homonymous_property_witness :
  well_formed Mock.limits_schema = true
  /\ follow [Key "properties"; Key "maxLength"] Mock.limits_schema
     = Some (VObj [("type", VStr "number")])
  /\ follow [Key "properties"; Key "maxLength"]
       (sanitizeSchemaForGrok Mock.limits_schema)
     = None
  /\ follow [Key "required"] (sanitizeSchemaForGrok Mock.limits_schema)
     = Some (VArr [VStr "maxLength"; VStr "unit"]).
Proof.
  destruct (sanitize_drops_homonymous_property Mock.limits_schema eq_refl)
    as [Hgone Hnames].
  split; [reflexivity|]. split; [reflexivity|]. split.
  - exact (Hgone [Key "properties"] "maxLength" eq_refl).
  - exact (Hnames [Key "required"] ["maxLength"; "unit"] eq_refl eq_refl).
Defined.

End Grok.

(* ================================================================== *)
(** * Properties of the video page *)
(* ================================================================== *)

Module PageProperties.
Import JS Page.

(** ** Strings *)

Lemma length_append (a b : string) :
  String.length (a ++ b) = String.length a + String.length b.
Proof. induction a as [|c a IH]; simpl; [reflexivity | now rewrite IH]. Qed.

Lemma append_empty_r (a : string) : a ++ "" = a.
Proof. induction a as [|c a IH]; simpl; [reflexivity | now rewrite IH]. Qed.

Lemma append_associative (a b c : string) : (a ++ b) ++ c = a ++ b ++ c.
Proof. induction a as [|x a IH]; simpl; [reflexivity | now rewrite IH]. Qed.

Lemma append_cancel_l (a b c : string) : a ++ b = a ++ c -> b = c.
Proof.
  induction a as [|x a IH]; simpl; [trivial|]. intros [= H]. now apply IH.
Qed.

Lemma substring_whole (s : string) (n : nat) :
  String.length s <= n -> substring 0 n s = s.
Proof.
  revert n. induction s as [|c s IH]; intros [|n] H; simpl in *;
    try reflexivity; try lia.
  now rewrite IH by lia.
Qed.

Lemma substring_skip (a s : string) (k m : nat) :
  substring (String.length a + k) m (a ++ s) = substring k m s.
Proof. induction a as [|c a IH]; simpl; [reflexivity | exact IH]. Qed.

Lemma substring_head (s t : string) :
  substring 0 (String.length s) (s ++ t) = s.
Proof.
  induction s as [|c s IH]; simpl.
  - destruct t; reflexivity.
  - now rewrite IH.
Qed.

Lemma length_substring_head (s : string) (n : nat) :
  String.length (substring 0 n s) = Nat.min n (String.length s).
Proof.
  revert n. induction s as [|c s IH]; intros [|n]; simpl; try reflexivity.
  now rewrite IH.
Qed.

(** A string splits at every position up to its length. *)
Lemma split_at (s : string) (k : nat) :
  k <= String.length s ->
  exists a b, s = a ++ b /\ String.length a = k.
Proof.
  revert k. induction s as [|c s IH]; intros [|k] H; simpl in *.
  - now exists "", "".
  - lia.
  - now exists "", (String c s).
  - destruct (IH k) as [a [b [-> Ha]]]; [lia|].
    exists (String c a), b. simpl. now rewrite Ha.
Qed.

Lemma slice_index_end (len : nat) : slice_index len (Z.of_nat len) = len.
Proof.
  unfold slice_index. destruct (Z.ltb_spec (Z.of_nat len) 0); [lia|].
  rewrite Nat2Z.id. apply Nat.min_id.
Qed.

Lemma slice_index_back (len n : nat) :
  0 < n -> slice_index len (- Z.of_nat n) = len - n.
Proof.
  intros Hn. unfold slice_index.
  destruct (Z.ltb_spec (- Z.of_nat n) 0); lia.
Qed.

(** [s.slice(-n)] is the last [n] characters, or all of [s]. *)
Lemma slice_from_back (a b : string) (n : nat) :
  0 < n -> String.length b = Nat.min n (String.length (a ++ b)) ->
  (String.length a = 0 \/ String.length b = n) ->
  slice_from (a ++ b) (- Z.of_nat n) = b.
Proof.
  intros Hn Hb Hcase. unfold slice_from, slice.
  rewrite slice_index_end, slice_index_back by exact Hn.
  rewrite length_append in *.
  destruct Hcase as [Ha | Hbn].
  - destruct a; [|discriminate]. simpl in *.
    replace (String.length b - n) with 0 by lia.
    apply substring_whole. lia.
  - replace (String.length a + String.length b - n) with (String.length a + 0)
      by lia.
    rewrite substring_skip.
    apply substring_whole. lia.
Qed.

Lemma slice_from_back_split (s : string) (n : nat) :
  0 < n ->
  exists a, s = a ++ slice_from s (- Z.of_nat n)
            /\ String.length (slice_from s (- Z.of_nat n))
               = Nat.min n (String.length s).
Proof.
  intros Hn.
  destruct (split_at s (String.length s - n)) as [a [b [Hs Ha]]]; [lia|].
  assert (Hlen : String.length s = String.length a + String.length b).
  { now rewrite Hs, length_append. }
  assert (Hb : slice_from s (- Z.of_nat n) = b).
  { rewrite Hs. apply slice_from_back; [exact Hn | |].
    - rewrite <- Hs. lia.
    - lia. }
  exists a. rewrite Hb. split; [exact Hs | lia].
Qed.


(** ** The id in a slug *)

Lemma id_pattern_length (id : string) :
  id_pattern id = true -> String.length id = 11.
Proof.
  unfold id_pattern. intros H. apply andb_true_iff in H as [H _].
  now apply Nat.eqb_eq.
Qed.

Lemma extractVideoId_some (slug id : string) :
  extractVideoIdFromSlug slug = Some id ->
  id_pattern id = true
  /\ exists q, strip_trailing_slash (trim slug) = q ++ id.
Proof.
  unfold extractVideoIdFromSlug.
  set (cleaned := strip_trailing_slash (trim slug)).
  change (-11)%Z with (- Z.of_nat 11)%Z.
  destruct (id_pattern (slice_from cleaned (- Z.of_nat 11))) eqn:Hp;
    [|discriminate].
  intros [= <-]. split; [exact Hp|].
  destruct (slice_from_back_split cleaned 11) as [a [Ha _]]; [lia|].
  now exists a.
Qed.

Lemma extractVideoId_ends (slug q id : string) :
  id_pattern id = true ->
  strip_trailing_slash (trim slug) = q ++ id ->
  extractVideoIdFromSlug slug = Some id.
Proof.
  intros Hp Hq. unfold extractVideoIdFromSlug. rewrite Hq.
  change (-11)%Z with (- Z.of_nat 11)%Z.
  rewrite slice_from_back.
  - now rewrite Hp.
  - lia.
  - rewrite length_append, (id_pattern_length id Hp). lia.
  - right. now apply id_pattern_length.
Qed.

Lemma id_char_not_white (c : ascii) :
  is_id_char c = true -> is_white c = false.
Proof.
  destruct c as [[] [] [] [] [] [] [] []]; vm_compute; congruence.
Qed.

Lemma id_char_not_slash (c : ascii) :
  is_id_char c = true -> Ascii.eqb c "/"%char = false.
Proof.
  destruct c as [[] [] [] [] [] [] [] []]; vm_compute; congruence.
Qed.

(** A string that [trimEnd] leaves alone is left alone after any
    prefix. *)
Lemma trimEnd_after (a b : string) :
  b <> "" -> trimEnd b = b -> trimEnd (a ++ b) = a ++ b.
Proof.
  intros Hne Hb. induction a as [|c a IH]; simpl; [exact Hb|].
  rewrite IH. destruct (a ++ b) eqn:E; [|reflexivity].
  destruct a; simpl in E; [contradiction | discriminate].
Qed.

Lemma trimEnd_white_tail (a r : string) :
  all_white r = true -> trimEnd (a ++ r) = trimEnd a.
Proof.
  intros Hr. induction a as [|c a IH]; simpl.
  - now apply Grok.trimEnd_empty.
  - now rewrite IH.
Qed.

Lemma trimEnd_id (id : string) :
  all_chars is_id_char id = true -> trimEnd id = id.
Proof.
  induction id as [|c id IH]; simpl; [reflexivity|].
  intros H. apply andb_true_iff in H as [Hc Hid].
  rewrite (IH Hid). destruct id; [|reflexivity].
  now rewrite (id_char_not_white c Hc).
Qed.

Lemma trimStart_before (p x : string) (c : ascii) :
  is_white c = false ->
  exists q, trimStart (p ++ String c x) = q ++ String c x.
Proof.
  intros Hc. induction p as [|d p [q Hq]]; simpl.
  - rewrite Hc. now exists "".
  - destruct (is_white d); [now exists q|].
    now exists (String d p).
Qed.

Lemma strip_after (a b : string) :
  b <> "" -> strip_trailing_slash b = b ->
  strip_trailing_slash (a ++ b) = a ++ b.
Proof.
  intros Hne Hb. induction a as [|c a IH]; simpl; [exact Hb|].
  rewrite IH. destruct (a ++ b) eqn:E; [|reflexivity].
  destruct a; simpl in E; [contradiction | discriminate].
Qed.

Lemma strip_id (id : string) :
  all_chars is_id_char id = true -> strip_trailing_slash id = id.
Proof.
  induction id as [|c id IH]; simpl; [reflexivity|].
  intros H. apply andb_true_iff in H as [Hc Hid].
  destruct id as [|d id']; [now rewrite (id_char_not_slash c Hc)|].
  now rewrite (IH Hid).
Qed.

(** What is left of a slug that ends with an id, a slash or none, and
    white space. *)
Lemma cleaned_ends_with_id (p id tail r : string) :
  id_pattern id = true ->
  tail = "" \/ tail = "/" ->
  all_white r = true ->
  exists q, strip_trailing_slash (trim (p ++ id ++ tail ++ r)) = q ++ id.
Proof.
  intros Hp Htail Hr.
  pose proof (id_pattern_length id Hp) as Hlen.
  unfold id_pattern in Hp. apply andb_true_iff in Hp as [_ Hchars].
  destruct id as [|c id']; [discriminate|].
  assert (Hc : is_white c = false).
  { simpl in Hchars. apply andb_true_iff in Hchars as [Hc _].
    now apply id_char_not_white. }
  unfold trim.
  destruct (trimStart_before p (id' ++ tail ++ r) c Hc) as [q Hq].
  change (String c id' ++ tail ++ r) with (String c (id' ++ tail ++ r)).
  rewrite Hq. exists q.
  replace (q ++ String c (id' ++ tail ++ r))
    with ((q ++ String c id' ++ tail) ++ r)
    by (now rewrite !append_associative).
  rewrite trimEnd_white_tail by exact Hr.
  destruct Htail as [-> | ->].
  - rewrite append_empty_r.
    rewrite trimEnd_after;
      [|discriminate | now apply trimEnd_id].
    apply strip_after; [discriminate | now apply strip_id].
  - rewrite <- append_associative.
    rewrite trimEnd_after; [|discriminate | reflexivity].
    apply Grok.strip_trailing_slash_removes.
Qed.

Lemma extractVideoId_suffix (p id tail r : string) :
  id_pattern id = true ->
  tail = "" \/ tail = "/" ->
  all_white r = true ->
  extractVideoIdFromSlug (p ++ id ++ tail ++ r) = Some id.
Proof.
  intros Hp Htail Hr.
  destruct (cleaned_ends_with_id p id tail r Hp Htail Hr) as [q Hq].
  exact (extractVideoId_ends _ q id Hp Hq).
Qed.

(** X9.  [extractVideoIdFromSlug] returns an id exactly when the slug,
    once trimmed and rid of one trailing slash, ends with eleven
    characters of the class [[A-Za-z0-9_-]], and the id is those eleven
    characters: what stands before them does not count, and a shorter
    slug, or one with another character among its last eleven, gives
    [null]. *)
Theorem extractVideoId_characterised (slug id : string) :
  extractVideoIdFromSlug slug = Some id
  <-> id_pattern id = true
      /\ exists q, strip_trailing_slash (trim slug) = q ++ id.
Proof.
  split.
  - apply extractVideoId_some.
  - intros [Hp [q Hq]]. exact (extractVideoId_ends slug q id Hp Hq).
Qed.

(** X10.  Every slug made of anything followed by an id, that is eleven
    characters of [[A-Za-z0-9_-]], gives that id back, also with one
    slash after the id and with white space behind. *)
Theorem extractVideoId_round_trip (p id r : string) :
  id_pattern id = true ->
  all_white r = true ->
  extractVideoIdFromSlug (p ++ id ++ r) = Some id
  /\ extractVideoIdFromSlug (p ++ id ++ "/" ++ r) = Some id.
Proof.
  intros Hp Hr. split.
  - exact (extractVideoId_suffix p id "" r Hp (or_introl eq_refl) Hr).
  - exact (extractVideoId_suffix p id "/" r Hp (or_intror eq_refl) Hr).
Qed.

(** ** Where a request goes *)

Lemma endsWith_spec (s t : string) :
  endsWith s t = true <-> exists a, s = a ++ t.
Proof.
  unfold endsWith. split.
  - intros H. apply andb_true_iff in H as [Hlen Heq].
    apply Nat.leb_le in Hlen. apply String.eqb_eq in Heq.
    destruct (split_at s (String.length s - String.length t))
      as [a [b [Hs Ha]]]; [lia|].
    exists a. subst s. f_equal.
    assert (Hb : String.length b = String.length t).
    { rewrite length_append in Ha, Hlen. lia. }
    assert (H : substring (String.length a + 0) (String.length t) (a ++ b)
                = t).
    { now rewrite Nat.add_0_r, Ha. }
    rewrite substring_skip, substring_whole in H by lia. exact H.
  - intros [a ->]. rewrite length_append.
    apply andb_true_iff. split; [apply Nat.leb_le; lia|].
    replace (String.length a + String.length t - String.length t)
      with (String.length a + 0) by lia.
    rewrite substring_skip, substring_whole by lia.
    apply String.eqb_refl.
Qed.

Lemma last_char (a : string) :
  a <> "" -> exists a' c, a = a' ++ String c "".
Proof.
  induction a as [|c a IH]; [contradiction|]. intros _.
  destruct a as [|d a0].
  - now exists "", c.
  - destruct IH as [a' [c' H]]; [discriminate|].
    exists (String c a'), c'. simpl. now rewrite <- H.
Qed.

(** [s.slice(-12, -11)] in front of eleven characters: the character
    before them, if there is one. *)
Lemma slice_before_id (a id : string) :
  String.length id = 11 ->
  slice (a ++ id) (-12) (-11) = "-" <-> exists q, a = q ++ "-".
Proof.
  intros Hid. unfold slice.
  change (-12)%Z with (- Z.of_nat 12)%Z.
  change (-11)%Z with (- Z.of_nat 11)%Z.
  rewrite !slice_index_back by lia. rewrite length_append, Hid.
  destruct a as [|c0 a0].
  - destruct id; simpl; (split; [discriminate|]);
      intros [q Hq]; destruct q; discriminate.
  - destruct (last_char (String c0 a0)) as [a' [c Ha]]; [discriminate|].
    rewrite Ha, length_append. simpl String.length.
    replace (String.length a' + 1 + 11 - 12) with (String.length a' + 0)
      by lia.
    replace (String.length a' + 1 + 11 - 11 - (String.length a' + 0))
      with 1 by lia.
    rewrite append_associative, substring_skip. simpl.
    destruct id; [discriminate|]. simpl. split.
    + intros [= ->]. now exists a'.
    + intros [q Hq].
      assert (Hl : String.length a' = String.length q).
      { apply (f_equal String.length) in Hq.
        rewrite !length_append in Hq. simpl in Hq. lia. }
      clear Ha. revert q Hq Hl.
      induction a' as [|x a' IH]; intros [|y q] Hq Hl;
        simpl in *; try discriminate.
      * now injection Hq as ->.
      * injection Hq as _ Hq. injection Hl as Hl. now apply (IH q).
Qed.

(** The test behind [hasCanonicalSuffix], for an id. *)
Lemma canonical_suffix (slug id : string) :
  id_pattern id = true ->
  endsWith slug id
  && ((String.length slug =? 11)%nat || String.eqb (slice slug (-12) (-11)) "-")
  = true
  <-> slug = id \/ exists q, slug = q ++ "-" ++ id.
Proof.
  intros Hp. pose proof (id_pattern_length id Hp) as Hid.
  rewrite andb_true_iff, orb_true_iff, endsWith_spec, Nat.eqb_eq,
    String.eqb_eq.
  split.
  - intros [[a ->] [Hlen | Hdash]].
    + left. rewrite length_append in Hlen.
      destruct a; [reflexivity | simpl in Hlen; lia].
    + right. apply (slice_before_id a id Hid) in Hdash as [q ->].
      exists q. now rewrite append_associative.
  - intros [-> | [q ->]].
    + split; [now exists "" | now left].
    + split; [exists (q ++ "-"); now rewrite append_associative|].
      right. rewrite <- append_associative.
      apply (slice_before_id (q ++ "-") id Hid). now exists q.
Qed.

Lemma id_truthy (id : string) :
  id_pattern id = true -> truthy (VStr id) = true.
Proof.
  intros Hp. apply id_pattern_length in Hp.
  destruct id; [discriminate | reflexivity].
Qed.

Lemma extractVideoId_of_canonical (slug id : string) :
  id_pattern id = true ->
  (exists q, slug = q ++ id) ->
  extractVideoIdFromSlug slug = Some id.
Proof.
  intros Hp [q ->].
  pose proof (extractVideoId_suffix q id "" "" Hp (or_introl eq_refl)
                eq_refl) as H.
  simpl in H. now rewrite append_empty_r in H.
Qed.

Section Routing.

Variable select_by_youtube_id : string -> option VideoAnalysisRow.
Variable select_by_slug : string -> option VideoAnalysisRow.
Variable buildVideoSlug : string -> string -> string.

#[local] Abbreviation resolve :=
  (resolveVideoFromSlug select_by_youtube_id select_by_slug buildVideoSlug).
#[local] Abbreviation page :=
  (VideoPage select_by_youtube_id select_by_slug buildVideoSlug).
#[local] Abbreviation metadata :=
  (generateMetadata select_by_youtube_id select_by_slug buildVideoSlug).

(** What is resolved is made of the row found. *)
Lemma resolved_shape (slug : string) (r : Resolved) :
  resolve slug = Some r -> r = resolved_of buildVideoSlug (video r).
Proof.
  unfold resolveVideoFromSlug. intros H.
  assert (Hmap : forall o,
             option_map (resolved_of buildVideoSlug) o = Some r ->
             r = resolved_of buildVideoSlug (video r)).
  { intros [d|]; simpl; [|discriminate]. now intros [= <-]. }
  destruct (extractVideoIdFromSlug slug) as [id|].
  - destruct (truthy (VStr id)).
    + destruct (select_by_youtube_id id) as [d|] eqn:E.
      * simpl in H. injection H as <-. reflexivity.
      * simpl in H. exact (Hmap _ H).
    + exact (Hmap _ H).
  - exact (Hmap _ H).
Qed.

(** X11.  When no video is resolved, the page redirects to
    [/analyze/<id>] exactly when the slug is an id, or ends with a
    hyphen and an id, an id being eleven characters of [[A-Za-z0-9_-]];
    any other slug, also one that holds an id followed by a slash or by
    white space, ends in [notFound()].  The page is never built. *)
Theorem VideoPage_unresolved (slug : string) :
  resolve slug = None ->
  (forall url,
      page slug = Redirect url
      <-> exists id,
            id_pattern id = true
            /\ url = "/analyze/" ++ id
            /\ (slug = id \/ exists q, slug = q ++ "-" ++ id))
  /\ (page slug = NotFound \/ exists url, page slug = Redirect url).
Proof.
  intros Hres. unfold VideoPage. rewrite Hres.
  destruct (extractVideoIdFromSlug slug) as [id|] eqn:E.
  - pose proof (extractVideoId_some slug id E) as [Hp _].
    rewrite (id_truthy id Hp). cbn [andb].
    pose proof (canonical_suffix slug id Hp) as Hsuffix.
    destruct (endsWith slug id
              && ((String.length slug =? 11)%nat
                  || String.eqb (slice slug (-12) (-11)) "-")) eqn:C.
    + split; [|right; eauto]. intros url. split.
      * intros [= <-]. exists id. repeat split; [exact Hp|].
        now apply Hsuffix.
      * intros [id' [Hp' [-> Hshape]]].
        assert (E' : extractVideoIdFromSlug slug = Some id').
        { apply extractVideoId_of_canonical; [exact Hp'|].
          destruct Hshape as [-> | [q ->]]; [now exists ""|].
          exists (q ++ "-"). now rewrite append_associative. }
        rewrite E in E'. now injection E' as ->.
    + split; [|now left]. intros url. split; [discriminate|].
      intros [id' [Hp' [-> Hshape]]].
      assert (E' : extractVideoIdFromSlug slug = Some id').
      { apply extractVideoId_of_canonical; [exact Hp'|].
        destruct Hshape as [-> | [q ->]]; [now exists ""|].
        exists (q ++ "-"). now rewrite append_associative. }
      rewrite E in E'. injection E' as <-.
      apply Hsuffix in Hshape. discriminate.
  - split; [|now left]. intros url. split; [discriminate|].
    intros [id' [Hp' [-> Hshape]]].
    assert (E' : extractVideoIdFromSlug slug = Some id').
    { apply extractVideoId_of_canonical; [exact Hp'|].
      destruct Hshape as [-> | [q ->]]; [now exists ""|].
      exists (q ++ "-"). now rewrite append_associative. }
    rewrite E in E'. discriminate.
Qed.

(** X12.  A redirect to the canonical slug is the last one: when the
    video found has an id of eleven characters of [[A-Za-z0-9_-]], its
    canonical slug ends with that id and the table answers the id with
    that video, the request for the canonical slug goes on to the page
    of the same video; and the request for [slug] itself does so only
    when [slug] is the canonical one, and is redirected to
    [/v/<canonical slug>] otherwise. *)
Theorem canonical_redirect_renders (slug : string) (r : Resolved) :
  resolve slug = Some r ->
  id_pattern (youtube_id (video r)) = true ->
  (exists q, canonicalSlug r = q ++ youtube_id (video r)) ->
  select_by_youtube_id (youtube_id (video r)) = Some (video r) ->
  page (canonicalSlug r) = Rendered (video r) (videoId r)
  /\ (canonicalSlug r = slug ->
      page slug = Rendered (video r) (videoId r))
  /\ (canonicalSlug r <> slug ->
      page slug = Redirect ("/v/" ++ canonicalSlug r)).
Proof.
  intros Hres Hp Hends Hrow.
  pose proof (resolved_shape slug r Hres) as Hshape.
  assert (Htruthy : truthy (VStr (canonicalSlug r)) = true).
  { destruct Hends as [q ->]. apply id_pattern_length in Hp.
    destruct (youtube_id (video r)); [discriminate|].
    destruct q; reflexivity. }
  assert (Hcanon : resolve (canonicalSlug r) = Some r).
  { unfold resolveVideoFromSlug.
    rewrite (extractVideoId_of_canonical _ _ Hp Hends).
    rewrite (id_truthy _ Hp), Hrow. simpl. now rewrite <- Hshape. }
  split; [|split].
  - unfold VideoPage. rewrite Hcanon, Htruthy, String.eqb_refl.
    reflexivity.
  - intros <-. unfold VideoPage.
    rewrite Hcanon, Htruthy, String.eqb_refl. reflexivity.
  - intros Hne. unfold VideoPage. rewrite Hres, Htruthy.
    apply String.eqb_neq in Hne. now rewrite Hne.
Qed.

(** ** The metadata *)

Lemma length_trimStart (s : string) :
  String.length (trimStart s) <= String.length s.
Proof.
  induction s as [|c s IH]; simpl; [lia|].
  destruct (is_white c); simpl; lia.
Qed.

Lemma length_trimEnd (s : string) :
  String.length (trimEnd s) <= String.length s.
Proof.
  induction s as [|c s IH]; simpl; [lia|].
  destruct (trimEnd s); [destruct (is_white c)|]; simpl in *; lia.
Qed.

Lemma length_trim (s : string) :
  String.length (trim s) <= String.length s.
Proof.
  unfold trim. pose proof (length_trimEnd (trimStart s)).
  pose proof (length_trimStart s). lia.
Qed.

Lemma slice_head (s : string) (n : nat) :
  slice s 0 (Z.of_nat n) = substring 0 n s.
Proof.
  unfold slice, slice_index.
  destruct (Z.ltb_spec (Z.of_nat n) 0); [lia|].
  rewrite Nat2Z.id. simpl. rewrite Nat.sub_0_r.
  destruct (Nat.le_gt_cases n (String.length s)) as [Hle | Hgt].
  - now rewrite Nat.min_l.
  - rewrite Nat.min_r by lia.
    now rewrite !substring_whole by lia.
Qed.

Lemma description_of_string (s title : string) :
  s <> "" ->
  exists d,
    description_of (VStr s) title = Return d
    /\ String.length d <= 163
    /\ (String.length s <= 160 -> d = trim s)
    /\ (160 < String.length s ->
        d = trim (substring 0 160 s) ++ "...")
    /\ (all_white s = true -> String.length s <= 160 -> d = "").
Proof.
  intros Hne. unfold description_of.
  assert (Ht : truthy (VStr s) = true).
  { destruct s; [contradiction | reflexivity]. }
  rewrite Ht. eexists. split; [reflexivity|].
  change 160%Z with (Z.of_nat 160). rewrite slice_head.
  pose proof (length_trim (substring 0 160 s)) as Hlen.
  rewrite length_substring_head in Hlen.
  destruct (Nat.ltb_spec 160 (String.length s)) as [Hlong | Hshort].
  - repeat split.
    + rewrite length_append. simpl. lia.
    + lia.
    + lia.
  - rewrite append_empty_r, substring_whole by exact Hshort.
    repeat split.
    + pose proof (length_trim s). lia.
    + lia.
    + intros Hw _. now apply Grok.trim_empty.
Qed.

(** X13.  For a video whose summary text is a string that is not empty,
    the metadata has one description, the same under [description],
    [openGraph] and [twitter]: the first 160 characters of the summary,
    trimmed, with an ellipsis when the summary is longer, so at most 163
    characters.  A short summary of white space alone gives the empty
    description, not the default sentence. *)
Theorem generateMetadata_description (slug : string) (r : Resolved)
    (s : string) :
  resolve slug = Some r ->
  summary_of (video r) = VStr s ->
  s <> "" ->
  exists meta d,
    metadata slug = Return meta
    /\ get meta "description" = VStr d
    /\ get (get meta "openGraph") "description" = VStr d
    /\ get (get meta "twitter") "description" = VStr d
    /\ String.length d <= 163
    /\ (String.length s <= 160 -> d = trim s)
    /\ (160 < String.length s -> d = trim (substring 0 160 s) ++ "...")
    /\ (all_white s = true -> String.length s <= 160 -> d = "").
Proof.
  intros Hres Hsum Hne. unfold generateMetadata. rewrite Hres, Hsum.
  destruct (description_of_string s (title (video r)) Hne)
    as [d [-> Hd]].
  eexists. exists d. split; [reflexivity|].
  split; [reflexivity|]. split; [reflexivity|]. split; [reflexivity|].
  exact Hd.
Qed.

(** X14.  For a video whose summary is not a string and holds under
    [content] something truthy that is not a string either (a number,
    an object, an array), [generateMetadata] throws: it calls [slice]
    and [trim] on that value. *)
Theorem generateMetadata_throws (slug : string) (r : Resolved) :
  resolve slug = Some r ->
  is_string (summary (video r)) = false ->
  truthy (opt_get (summary (video r)) "content") = true ->
  is_string (opt_get (summary (video r)) "content") = false ->
  exists e, metadata slug = Throw e.
Proof.
  intros Hres Hsum Htruthy Hstr. unfold generateMetadata.
  rewrite Hres. unfold summary_of. rewrite Hsum. unfold or_else.
  rewrite Htruthy. unfold description_of. rewrite Htruthy.
  destruct (opt_get (summary (video r)) "content");
    try discriminate; eexists; reflexivity.
Qed.

(** X15.  The canonical URL of the metadata is where the page is: for a
    request that goes on to the page it is [https://longcut.ai/v/<slug>]
    with the slug of the request, and for a request of a stored video
    that is redirected it is the target of the redirect; [openGraph.url]
    is the same URL. *)
Theorem metadata_canonical_follows_page (slug : string) (r : Resolved)
    (meta : value) :
  resolve slug = Some r ->
  metadata slug = Return meta ->
  get (get meta "openGraph") "url" = get (get meta "alternates") "canonical"
  /\ (forall v i,
         page slug = Rendered v i ->
         get (get meta "alternates") "canonical"
         = VStr ("https://longcut.ai/v/" ++ slug))
  /\ (forall url,
         page slug = Redirect url ->
         get (get meta "alternates") "canonical"
         = VStr ("https://longcut.ai" ++ url)).
Proof.
  intros Hres. unfold generateMetadata, VideoPage. rewrite Hres.
  destruct (description_of (summary_of (video r)) (title (video r)))
    as [d|e]; [|discriminate].
  destruct (truthy (VStr (canonicalSlug r))) eqn:Ht; cbn [andb].
  - destruct (String.eqb_spec (canonicalSlug r) slug) as [Heq | Hne];
      cbn [negb]; intros [= <-].
    + rewrite Heq. split; [reflexivity|].
      split; [reflexivity | discriminate].
    + split; [reflexivity|]. split; [discriminate|].
      now intros url [= <-].
  - intros [= <-]. split; [reflexivity|].
    split; [reflexivity | discriminate].
Qed.

(** X16.  The keywords of a video without an author: the [null] entry
    is filtered out, the entry made from it is not, so the list holds
    [null videos]; and a title that is empty leaves only its
    [ transcript] entry. *)
Theorem keywords_without_author (slug : string) (r : Resolved)
    (meta : value) :
  resolve slug = Some r ->
  author (video r) = None ->
  metadata slug = Return meta ->
  get meta "keywords"
  = VStr
      ((if String.eqb (title (video r)) "" then ""
        else title (video r) ++ ", ")
       ++ title (video r)
       ++ " transcript, null videos, video transcript, video summary, AI analysis, highlights").
Proof.
  intros Hres Hauthor. unfold generateMetadata. rewrite Hres.
  destruct (description_of (summary_of (video r)) (title (video r)))
    as [d|e]; [|discriminate].
  intros [= <-]. cbn [get obj_get String.eqb Ascii.eqb Bool.eqb].
  f_equal. unfold keywords_of. rewrite Hauthor.
  cbn [app template filter truthy].
  destruct (title (video r)) as [|c t]; [reflexivity|].
  cbn [append String.eqb negb join]. 
  rewrite !append_associative. reflexivity.
Qed.

End Routing.

(** ** The properties on the sample table *)

#[local] Abbreviation sample_resolve :=
  (resolveVideoFromSlug Sample.select_by_youtube_id Sample.select_by_slug
     Sample.buildVideoSlug).
#[local] Abbreviation sample_page :=
  (VideoPage Sample.select_by_youtube_id Sample.select_by_slug
     Sample.buildVideoSlug).
#[local] Abbreviation sample_metadata :=
  (generateMetadata Sample.select_by_youtube_id Sample.select_by_slug
     Sample.buildVideoSlug).

(** [extractVideoId_round_trip] on a slug with a title, and a slash and
    a space behind the id. *)
Lemma extractVideoId_round_trip_witness :
  extractVideoIdFromSlug ("my-video-" ++ "dQw4w9WgXcQ" ++ " ")
  = Some "dQw4w9WgXcQ"
  /\ extractVideoIdFromSlug ("my-video-" ++ "dQw4w9WgXcQ" ++ "/" ++ " ")
     = Some "dQw4w9WgXcQ".
Proof.
  apply (extractVideoId_round_trip "my-video-" "dQw4w9WgXcQ" " ");
    reflexivity.
Defined.

(** [VideoPage_unresolved] on the slug of a video that is not stored. *)
Lemma VideoPage_unresolved_witness :
  sample_resolve "some-talk-bbbbbbbbbbb" = None
  /\ sample_page "some-talk-bbbbbbbbbbb" = Redirect "/analyze/bbbbbbbbbbb".
Proof.
  split; [reflexivity|].
  apply (VideoPage_unresolved Sample.select_by_youtube_id
           Sample.select_by_slug Sample.buildVideoSlug
           "some-talk-bbbbbbbbbbb" eq_refl).
  exists "bbbbbbbbbbb". split; [reflexivity|]. split; [reflexivity|].
  right. now exists "some-talk".
Defined.

(** [canonical_redirect_renders] on the legacy slug of the sample
    video. *)
Lemma canonical_redirect_renders_witness :
  sample_page "never-gonna" = Redirect "/v/rickroll-dQw4w9WgXcQ"
  /\ sample_page "rickroll-dQw4w9WgXcQ"
     = Rendered Sample.row "dQw4w9WgXcQ".
Proof.
  destruct
    (canonical_redirect_renders Sample.select_by_youtube_id
       Sample.select_by_slug Sample.buildVideoSlug "never-gonna"
       (resolved_of Sample.buildVideoSlug Sample.row) eq_refl eq_refl
       (ex_intro _ "rickroll-" eq_refl) eq_refl)
    as [Hcanon [_ Hredirect]].
  split; [|exact Hcanon].
  apply Hredirect. discriminate.
Defined.

(** [generateMetadata_description] on the sample video. *)
Lemma generateMetadata_description_witness :
  exists meta,
    sample_metadata "rickroll-dQw4w9WgXcQ" = Return meta
    /\ get meta "description" = VStr "A song, line by line.".
Proof.
  destruct
    (generateMetadata_description Sample.select_by_youtube_id
       Sample.select_by_slug Sample.buildVideoSlug "rickroll-dQw4w9WgXcQ"
       (resolved_of Sample.buildVideoSlug Sample.row)
       "A song, line by line." eq_refl eq_refl)
    as [meta [d [Hmeta [Hd [_ [_ [_ [Hshort _]]]]]]]]; [discriminate|].
  exists meta. split; [exact Hmeta|].
  rewrite Hd, Hshort; [reflexivity | simpl; lia].
Defined.

(** [generateMetadata_throws] on the video whose summary holds a
    number. *)
Lemma generateMetadata_throws_witness :
  exists e, sample_metadata "odd-aaaaaaaaaaa" = Throw e.
Proof.
  exact
    (generateMetadata_throws Sample.select_by_youtube_id
       Sample.select_by_slug Sample.buildVideoSlug "odd-aaaaaaaaaaa"
       (resolved_of Sample.buildVideoSlug Sample.odd)
       eq_refl eq_refl eq_refl eq_refl).
Defined.

(** [metadata_canonical_follows_page] on the legacy slug of the sample
    video. *)
Lemma metadata_canonical_follows_page_witness :
  exists meta,
    sample_metadata "never-gonna" = Return meta
    /\ get (get meta "alternates") "canonical"
       = VStr "https://longcut.ai/v/rickroll-dQw4w9WgXcQ".
Proof.
  eexists. split; [reflexivity|].
  exact
    (proj2
       (proj2
          (metadata_canonical_follows_page Sample.select_by_youtube_id
             Sample.select_by_slug Sample.buildVideoSlug "never-gonna"
             (resolved_of Sample.buildVideoSlug Sample.row) _
             eq_refl eq_refl))
       "/v/rickroll-dQw4w9WgXcQ" eq_refl).
Defined.

(** [keywords_without_author] on the sample video. *)
Lemma keywords_without_author_witness :
  exists meta,
    sample_metadata "rickroll-dQw4w9WgXcQ" = Return meta
    /\ get meta "keywords"
       = VStr
           "rickroll, rickroll transcript, null videos, video transcript, video summary, AI analysis, highlights".
Proof.
  eexists. split; [reflexivity|].
  exact
    (keywords_without_author Sample.select_by_youtube_id
       Sample.select_by_slug Sample.buildVideoSlug "rickroll-dQw4w9WgXcQ"
       (resolved_of Sample.buildVideoSlug Sample.row) _
       eq_refl eq_refl eq_refl).
Defined.

End PageProperties.

(* ================================================================== *)
(** * Properties of the migration *)
(* ================================================================== *)

Module SqlProperties.
Import Sql.

Lemma Permutation_filter {A : Type} (f : A -> bool) (l l' : list A) :
  Permutation l l' -> Permutation (filter f l) (filter f l').
Proof.
  induction 1 as [|x l l' _ IH|x y l|l l' l'' _ IH1 _ IH2]; simpl.
  - constructor.
  - destruct (f x); [now constructor | exact IH].
  - destruct (f x), (f y); try apply Permutation_refl. apply perm_swap.
  - eapply Permutation_trans; eassumption.
Qed.

(** The rows that a condition takes and those it leaves are all the
    rows. *)
Lemma Permutation_partition {A : Type} (f : A -> bool) (g : A -> A)
    (l : list A) :
  Permutation
    (filter (fun x => negb (f x)) l ++ map g (filter f l))%list
    (map (fun x => if f x then g x else x) l).
Proof.
  induction l as [|x l IH]; simpl; [constructor|].
  destruct (f x); simpl.
  - eapply Permutation_trans; [|apply perm_skip, IH].
    apply Permutation_sym, Permutation_middle.
  - now constructor.
Qed.

Section Table.

Variable jsonb : Type.
Variable timestamp : Type.
Variable columns : Type.

#[local] Abbreviation row := (Sql.row jsonb timestamp columns).
#[local] Abbreviation table := (Sql.table jsonb timestamp columns).

(** The storage loses no row and makes none up. *)
Variable placed : table -> table -> table.
Hypothesis placed_permutes :
  forall rest written, Permutation (placed rest written) (rest ++ written).

Lemma update_updated (now : timestamp) (t : table) (v : option uuid)
    (p_summary p_suggested_questions : option jsonb) :
  Permutation
    (update placed now t v p_summary p_suggested_questions)
    (updated now t v p_summary p_suggested_questions).
Proof.
  unfold update, updated.
  eapply Permutation_trans; [apply placed_permutes|].
  apply Permutation_partition.
Qed.

Lemma select_into_find (t : table) (p_youtube_id : option text) :
  select_into t p_youtube_id
  = match find (matches p_youtube_id) t with
    | Some r => (id r, created_by r)
    | None => (None, None)
    end.
Proof.
  unfold select_into.
  induction t as [|r t IH]; simpl; [reflexivity|].
  destruct (matches p_youtube_id r); [reflexivity | exact IH].
Qed.



Lemma hit_spec (v : option uuid) (r : row) :
  hit v r = true <-> exists i, id r = Some i /\ v = Some i.
Proof.
  unfold hit, eq3, holds. destruct (id r) as [a|], v as [b|]; simpl.
  - destruct (N.eqb_spec a b) as [-> | Hne].
    + split; [now exists b | reflexivity].
    + split; [discriminate|]. intros [i [[= <-] [= <-]]]. contradiction.
  - split; [discriminate|]. now intros [i [_ [=]]].
  - split; [discriminate|]. now intros [i [[=] _]].
  - split; [discriminate|]. now intros [i [[=] _]].
Qed.


(** X18.  A call that is refused changes no row.  It answers with the id
    of the video when a video is stored under [p_youtube_id], so for
    the video of another user too, and with NULL when none is. *)
Theorem update_refused (now : timestamp) (t : table)
    (p_youtube_id : option text) (p_user_id : option uuid)
    (p_summary p_suggested_questions : option jsonb) :
  let result :=
    update_video_analysis_secure placed now t p_youtube_id p_user_id
      p_summary p_suggested_questions in
  fst (fst result) = false ->
  snd result = t
  /\ snd (fst result)
     = match find (matches p_youtube_id) t with
       | Some r => id r
       | None => None
       end.
Proof.
  unfold update_video_analysis_secure. rewrite select_into_find.
  destruct (find (matches p_youtube_id) t) as [r|].
  - destruct (id r) as [i|]; simpl; [|now split].
    destruct (holds _); simpl; [now split | discriminate].
  - simpl. now split.
Qed.

Lemma kept_as_refl (v : option uuid)
    (p_summary p_suggested_questions : option jsonb) (r : row) :
  kept_as v p_summary p_suggested_questions r r.
Proof. unfold kept_as. repeat split; trivial. Qed.

Lemma kept_as_updated (now : timestamp) (v : option uuid)
    (p_summary p_suggested_questions : option jsonb) (t : table) :
  Forall2 (kept_as v p_summary p_suggested_questions) t
    (updated now t v p_summary p_suggested_questions).
Proof.
  unfold updated. induction t as [|r t IH]; simpl; constructor; [|exact IH].
  destruct (hit v r) eqn:Hhit; [|apply kept_as_refl].
  apply hit_spec in Hhit as [i [Hid ->]].
  unfold kept_as, written; cbn. repeat split.
  - intros [Hnull | Hne]; congruence.
  - destruct p_summary; [discriminate | trivial].
  - destruct p_suggested_questions; [discriminate | trivial].
  - now intros ->.
  - now intros ->.
Qed.

(** X19.  Whatever the call, the table keeps its rows, up to where the
    storage puts them: the rows after the call are, one for one, the
    rows before it, each with its [id], [youtube_id], [created_by] and
    the columns the function does not name; a row other than those of
    the id returned is left as it was; and no stored summary or list of
    questions becomes NULL, a NULL argument leaving the stored value
    in place. *)
Theorem update_frame (now : timestamp) (t : table)
    (p_youtube_id : option text) (p_user_id : option uuid)
    (p_summary p_suggested_questions : option jsonb) :
  let result :=
    update_video_analysis_secure placed now t p_youtube_id p_user_id
      p_summary p_suggested_questions in
  exists t',
    Permutation (snd result) t'
    /\ Forall2 (kept_as (snd (fst result)) p_summary p_suggested_questions)
         t t'.
Proof.
  assert (Hsame : forall v,
             exists t',
               Permutation t t'
               /\ Forall2 (kept_as v p_summary p_suggested_questions) t t').
  { intros v. exists t. split; [apply Permutation_refl|].
    induction t; constructor; [apply kept_as_refl | assumption]. }
  cbv zeta. unfold update_video_analysis_secure.
  destruct (select_into t p_youtube_id) as [v_video_id v_created_by].
  destruct (is_null v_video_id); [exact (Hsame None)|].
  destruct (holds _); [exact (Hsame v_video_id)|].
  cbn [fst snd].
  exists (updated now t v_video_id p_summary p_suggested_questions).
  split; [apply update_updated | apply kept_as_updated].
Qed.

Lemma matches_written (now : timestamp)
    (p_summary p_suggested_questions : option jsonb)
    (p_youtube_id : option text) (v : option uuid) (r : row) :
  matches p_youtube_id
    (if hit v r then written now p_summary p_suggested_questions r else r)
  = matches p_youtube_id r.
Proof. now destruct (hit v r). Qed.

Lemma hit_written (now : timestamp)
    (p_summary p_suggested_questions : option jsonb)
    (v v' : option uuid) (r : row) :
  hit v'
    (if hit v r then written now p_summary p_suggested_questions r else r)
  = hit v' r.
Proof. now destruct (hit v r). Qed.

Lemma filter_updated (f : row -> bool) (now : timestamp) (t : table)
    (v : option uuid) (p_summary p_suggested_questions : option jsonb) :
  (forall r,
      f (if hit v r then written now p_summary p_suggested_questions r
         else r)
      = f r) ->
  filter f (updated now t v p_summary p_suggested_questions)
  = updated now (filter f t) v p_summary p_suggested_questions.
Proof.
  intros Hf. unfold updated. induction t as [|r t IH]; simpl; [reflexivity|].
  rewrite Hf. destruct (f r); simpl; now rewrite IH.
Qed.

Lemma updated_twice (now : timestamp) (t : table) (v : option uuid)
    (p_summary p_suggested_questions : option jsonb) :
  updated now (updated now t v p_summary p_suggested_questions) v p_summary
    p_suggested_questions
  = updated now t v p_summary p_suggested_questions.
Proof.
  unfold updated. rewrite map_map. apply map_ext. intros r.
  rewrite hit_written. destruct (hit v r); [|reflexivity].
  unfold written; cbn. f_equal.
  - now destruct p_summary.
  - now destruct p_suggested_questions.
Qed.

Lemma updated_permuted (now : timestamp) (t t' : table) (v : option uuid)
    (p_summary p_suggested_questions : option jsonb) :
  Permutation t t' ->
  Permutation (updated now t v p_summary p_suggested_questions)
    (updated now t' v p_summary p_suggested_questions).
Proof. apply Permutation_map. Qed.

(** On a table that stores at most one row under [p_youtube_id], the
    row that the function looks at is the same after an [UPDATE]. *)
Lemma select_into_update (now : timestamp) (t : table) (v : option uuid)
    (p_summary p_suggested_questions : option jsonb)
    (p_youtube_id : option text) :
  List.length (filter (matches p_youtube_id) t) <= 1 ->
  select_into (update placed now t v p_summary p_suggested_questions)
    p_youtube_id
  = select_into t p_youtube_id.
Proof.
  intros Hone. unfold select_into.
  pose proof (Permutation_filter (matches p_youtube_id) _ _
                (update_updated now t v p_summary p_suggested_questions))
    as Hperm.
  rewrite (filter_updated (matches p_youtube_id)) in Hperm
    by (intros r; apply matches_written).
  destruct (filter (matches p_youtube_id) t) as [|r0 [|r1 l]];
    cbn in Hperm, Hone.
  - apply Permutation_sym, Permutation_nil in Hperm. now rewrite Hperm.
  - apply Permutation_sym, Permutation_length_1_inv in Hperm.
    rewrite Hperm. now destruct (hit v r0).
  - lia.
Qed.

(** X20.  On a table that stores at most one row under [p_youtube_id],
    the call is idempotent: made again at the same time with the same
    arguments on the table it left, it gives the same answer and leaves
    the same rows. *)
Theorem update_idempotent (now : timestamp) (t : table)
    (p_youtube_id : option text) (p_user_id : option uuid)
    (p_summary p_suggested_questions : option jsonb) :
  List.length (filter (matches p_youtube_id) t) <= 1 ->
  let once :=
    update_video_analysis_secure placed now t p_youtube_id p_user_id
      p_summary p_suggested_questions in
  let twice :=
    update_video_analysis_secure placed now (snd once) p_youtube_id
      p_user_id p_summary p_suggested_questions in
  fst twice = fst once /\ Permutation (snd twice) (snd once).
Proof.
  intros Hone. cbv zeta. unfold update_video_analysis_secure.
  destruct (select_into t p_youtube_id) as [v_video_id v_created_by]
    eqn:Hsel.
  destruct (is_null v_video_id) eqn:Hnull.
  - cbn [snd]. rewrite Hsel, Hnull. split; [reflexivity|].
    apply Permutation_refl.
  - destruct (holds _) eqn:Hcheck.
    + cbn [snd]. rewrite Hsel, Hnull, Hcheck. split; [reflexivity|].
      apply Permutation_refl.
    + cbn [snd]. rewrite (select_into_update _ _ _ _ _ _ Hone).
      rewrite Hsel, Hnull, Hcheck. cbn [fst snd]. split; [reflexivity|].
      eapply Permutation_trans; [apply update_updated|].
      eapply Permutation_trans;
        [apply updated_permuted, update_updated|].
      rewrite updated_twice. apply Permutation_sym, update_updated.
Qed.

End Table.


(** [update_refused] on the call of user 9 for the video of user 7. *)
Lemma update_refused_witness :
  snd
    (update_video_analysis_secure Sample.placed 30 Sample.videos
       (Some "bbbbbbbbbbb") (Some 9%N) (Some "{'content':'x'}") None)
  = Sample.videos
  /\ snd
       (fst
          (update_video_analysis_secure Sample.placed 30 Sample.videos
             (Some "bbbbbbbbbbb") (Some 9%N) (Some "{'content':'x'}")
             None))
     = Some 2%N.
Proof.
  exact
    (update_refused string nat unit Sample.placed 30 Sample.videos
       (Some "bbbbbbbbbbb") (Some 9%N) (Some "{'content':'x'}") None eq_refl).
Defined.

(** [update_frame] on the call of user 7 for their video. *)
Lemma update_frame_witness :
  exists t',
    Permutation
      (snd
         (update_video_analysis_secure Sample.placed 30 Sample.videos
            (Some "bbbbbbbbbbb") (Some 7%N) (Some "{'content':'x'}") None))
      t'
    /\ Forall2 (kept_as (Some 2%N) (Some "{'content':'x'}") None)
         Sample.videos t'.
Proof.
  exact
    (update_frame string nat unit Sample.placed
       (fun rest written => Permutation_refl (rest ++ written)%list)
       30 Sample.videos (Some "bbbbbbbbbbb") (Some 7%N)
       (Some "{'content':'x'}") None).
Defined.

(** [update_idempotent] on the call of user 7 for their video. *)
Lemma update_idempotent_witness :
  fst
    (update_video_analysis_secure Sample.placed 30
       (snd
          (update_video_analysis_secure Sample.placed 30 Sample.videos
             (Some "bbbbbbbbbbb") (Some 7%N) (Some "{'content':'x'}") None))
       (Some "bbbbbbbbbbb") (Some 7%N) (Some "{'content':'x'}") None)
  = (true, Some 2%N).
Proof.
  destruct
    (update_idempotent string nat unit Sample.placed
       (fun rest written => Permutation_refl (rest ++ written)%list)
       30 Sample.videos (Some "bbbbbbbbbbb") (Some 7%N)
       (Some "{'content':'x'}") None)
    as [Hsame _]; [simpl; lia|].
  rewrite Hsame. reflexivity.
Defined.

End SqlProperties.
